(** * Techra backend: tenant resolution, aggregate lifecycle routes and chat gateway

    A shallow embedding of the TypeScript sources:
    - the tenant mapping module ([getDbTenantId], [getTenantIdForUser], ...),
    - the route handlers of [database.ts] and of the cars-schema admin routes
      that move HVAC aggregates between wagons, written in a small
      state-and-exception monad over an explicit database state,
    - the [authenticate] hook and the [/chat] handler of the server module,
    - the remaining aggregate routes (status, deletion, listings, audit trail,
      connection probe) and the routes that create, configure, list and read
      trains with their wagons.

    Strings are Rocq strings; identifiers of rows are integers; a table keyed
    by its primary key is a [gmap]; an append-only table is a list in
    insertion order.  Columns filled by the clock ([created_at],
    [updated_at = NOW()]) are left out. *)

From Stdlib Require Import ZArith String Ascii List Bool Lia.
From stdpp Require Import base option list strings gmap pretty.
From stdpp Require Import sorting.

Open Scope string_scope.
Set Warnings "-register-all".

(** ** JavaScript values that travel through the handlers *)

Module Js.

(** A parsed JSON document.  Numbers are kept as integers: the handlers only
    copy them. *)
Inductive JValue : Type :=
  | JNull
  | JBool (b : bool)
  | JNum (n : Z)
  | JStr (s : string)
  | JArr (items : list JValue)
  | JObj (fields : list (string * JValue)).

(** ToBoolean. *)
Definition truthy (v : JValue) : bool :=
  match v with
  | JNull => false
  | JBool b => b
  | JNum n => negb (n =? 0)%Z
  | JStr s => negb (String.eqb s "")
  | JArr _ | JObj _ => true
  end.

(** [a || b] where [a] may be [undefined] ([None]). *)
Definition or_value (a : option JValue) (b : JValue) : JValue :=
  match a with
  | Some v => if truthy v then v else b
  | None => b
  end.

(** [s || d] for a string that may be [undefined]: the empty string is falsy. *)
Definition str_or (s : option string) (d : string) : string :=
  match s with
  | Some v => if String.eqb v "" then d else v
  | None => d
  end.

(** Property lookup in an object literal; JSON.parse keeps the last of
    duplicated keys. *)
Fixpoint assoc_last (k : string) (fields : list (string * JValue)) : option JValue :=
  match fields with
  | [] => None
  | (k', v) :: rest =>
      match assoc_last k rest with
      | Some v' => Some v'
      | None => if String.eqb k k' then Some v else None
      end
  end.

(** [v.k]: [None] in the outer option is the TypeError raised on [null];
    [Some None] is [undefined].  Booleans, numbers, strings and arrays have
    none of the properties the handlers read. *)
Definition get_prop (v : JValue) (k : string) : option (option JValue) :=
  match v with
  | JNull => None
  | JObj fields => Some (assoc_last k fields)
  | _ => Some None
  end.

(** An integer column or parameter that may be NULL, as a JSON value. *)
Definition of_id (i : option Z) : JValue :=
  match i with Some n => JNum n | None => JNull end.

(** A member of a request body that holds an id: the body does not have it
    ([undefined]), or has it with [null] or a number. *)
Inductive Member : Type :=
  | Missing
  | Given (v : option Z).

(** As the parameter of a statement: the driver sends [undefined] as NULL. *)
Definition param (m : Member) : option Z :=
  match m with
  | Missing => None
  | Given v => v
  end.

(** As a member of an object literal: [undefined] stays [undefined]. *)
Definition member_value (m : Member) : option JValue :=
  match m with
  | Missing => None
  | Given v => Some (of_id v)
  end.

End Js.

(** ** Tenant mapping *)

Module TenantMapping.

Record TenantMapping : Type := mkTenantMapping {
  azureTenantId : string;
  dbTenantId : string;
  name : string
}.

Definition DEFAULT_TENANT_MAPPINGS : list TenantMapping :=
  [ mkTenantMapping "71416bf2-04a4-4715-a8d2-6af239168e20" "default" "Öresundståg" ].

Definition TECHVANA_SUPER_ADMINS : list string :=
  [ "elias-chahoud@hotmail.com" ].

(** What the module finds in [process.env.TENANT_MAPPING] when it is loaded:
    nothing (or the empty string), a text JSON.parse rejects, or a parsed
    list. *)
Inductive EnvMapping : Type :=
  | EnvUnset
  | EnvInvalid
  | EnvParsed (mappings : list TenantMapping).

(** The initial value of the module variable [tenantMappings]. *)
Definition loadTenantMappings (env : EnvMapping) : list TenantMapping :=
  match env with
  | EnvParsed mappings => mappings
  | EnvUnset | EnvInvalid => DEFAULT_TENANT_MAPPINGS
  end.

(** The functions below read the module variable [tenantMappings]; it is
    their first argument here. *)
Definition getDbTenantId (tenantMappings : list TenantMapping) (azure : string) : string :=
  match List.find (fun m => String.eqb (azureTenantId m) azure) tenantMappings with
  | Some mapping => dbTenantId mapping
  | None => "default"
  end.

Definition getTenantName (tenantMappings : list TenantMapping) (dbId : string) : string :=
  match List.find (fun m => String.eqb (dbTenantId m) dbId) tenantMappings with
  | Some mapping => if String.eqb (name mapping) "" then "Unknown" else name mapping
  | None => "Unknown"
  end.

Definition getAllTenants (tenantMappings : list TenantMapping) : list TenantMapping :=
  tenantMappings.

(** [toLowerCase] on the ASCII letters; other bytes are kept. *)
Definition lower_ascii (c : ascii) : ascii :=
  let n := nat_of_ascii c in
  if (65 <=? n)%nat && (n <=? 90)%nat then ascii_of_nat (n + 32) else c.

Fixpoint toLowerCase (s : string) : string :=
  match s with
  | EmptyString => EmptyString
  | String c rest => String (lower_ascii c) (toLowerCase rest)
  end.

Definition isTechvanaSuperAdmin (email : string) : bool :=
  existsb (String.eqb (toLowerCase email)) TECHVANA_SUPER_ADMINS.

Definition getTenantIdForUser (tenantMappings : list TenantMapping)
    (email azure : string) (requestedTenantId : option string) : string :=
  if isTechvanaSuperAdmin email
  then Js.str_or requestedTenantId "default"
  else getDbTenantId tenantMappings azure.

(** [findIndex] of the first mapping with the given Azure tenant id. *)
Fixpoint findIndex (azure : string) (l : list TenantMapping) : option nat :=
  match l with
  | [] => None
  | m :: rest =>
      if String.eqb (azureTenantId m) azure then Some 0%nat
      else S <$> findIndex azure rest
  end.

(** [addTenantMapping]: the new value of [tenantMappings]. *)
Definition addTenantMapping (tenantMappings : list TenantMapping)
    (mapping : TenantMapping) : list TenantMapping :=
  match findIndex (azureTenantId mapping) tenantMappings with
  | Some existingIndex => <[existingIndex := mapping]> tenantMappings
  | None => tenantMappings ++ [mapping]
  end.

End TenantMapping.

(** ** The relational store *)

Module Store.

(** A row of [aggregates].  The record has one field for the reference of an
    aggregate to where it is mounted: it stands for the column
    [current_wagon_id] under the routes of database.ts and for the column
    [current_car_id] under the cars-schema routes.  [is_spare] is the column
    the phase 7 migration adds. *)
Record Aggregate : Type := mkAggregate {
  aggregate_number : string;
  status : string;
  current_wagon_id : option Z;
  is_spare : bool;
  current_temperature : option Z;
  pressure_value : option Z
}.

Record AggregateLog : Type := mkAggregateLog {
  log_aggregate_id : Z;
  log_wagon_id : option Z;
  log_event_type : string;
  log_description : string;
  log_old_value : option Js.JValue;
  log_new_value : option Js.JValue
}.

Record AggregateReplacement : Type := mkAggregateReplacement {
  rep_tenant_id : string;
  rep_old_aggregate_id : Z;
  rep_new_aggregate_id : Z;
  rep_wagon_id : option Z;
  rep_reason : string;
  rep_replaced_by : option string
}.

Record AuditLog : Type := mkAuditLog {
  audit_tenant_id : string;
  audit_user_email : option string;
  audit_user_name : option string;
  audit_action : string;
  audit_entity_type : string;
  audit_entity_id : string;
  audit_old_value : option Js.JValue;
  audit_new_value : option Js.JValue;
  audit_description : string
}.

Record SensorReading : Type := mkSensorReading {
  reading_aggregate_id : Z;
  reading_temperature : option Z;
  reading_pressure : option Z;
  reading_humidity : option Z;
  reading_power_consumption : option Z;
  reading_error_codes : option string
}.

Record Tenant : Type := mkTenant {
  tenant_name : string;
  tenant_logo_url : option string;
  tenant_primary_color : option string;
  tenant_language : option string
}.

(** A row of [train_configurations]; [wagon_count] and [wagon_types] are NOT
    NULL in schema-phase7-8.sql. *)
Record TrainConfiguration : Type := mkTrainConfiguration {
  cfg_wagon_count : Z;
  cfg_wagon_types : Js.JValue;
  cfg_custom_labels : option Js.JValue
}.

Record Db : Type := mkDb {
  aggregates : gmap Z Aggregate;
  aggregate_logs : list AggregateLog;
  aggregate_replacements : list AggregateReplacement;
  audit_logs : list AuditLog;
  sensor_readings : list SensorReading;
  tenants : gmap string Tenant;
  train_configurations : gmap string TrainConfiguration
}.

Definition with_aggregates (m : gmap Z Aggregate) (d : Db) : Db :=
  mkDb m (aggregate_logs d) (aggregate_replacements d) (audit_logs d)
       (sensor_readings d) (tenants d) (train_configurations d).

Definition with_tenants (m : gmap string Tenant) (d : Db) : Db :=
  mkDb (aggregates d) (aggregate_logs d) (aggregate_replacements d) (audit_logs d)
       (sensor_readings d) m (train_configurations d).

Definition with_train_configurations (m : gmap string TrainConfiguration) (d : Db) : Db :=
  mkDb (aggregates d) (aggregate_logs d) (aggregate_replacements d) (audit_logs d)
       (sensor_readings d) (tenants d) m.

(** *** Statements

    Each SQL text of the handlers is a function from the store to its result
    rows and the new store. *)

(** [SELECT ... FROM aggregates WHERE id = $1]: at most one row. *)
Definition select_aggregate (id : Z) (d : Db) : option Aggregate * Db :=
  (aggregates d !! id, d).

(** [UPDATE aggregates SET ... WHERE id = $n RETURNING *]: the updated row, if
    the id exists. *)
Definition update_aggregate (set : Aggregate → Aggregate) (id : Z) (d : Db)
    : option Aggregate * Db :=
  (set <$> aggregates d !! id, with_aggregates (alter set id (aggregates d)) d).

Definition set_wagon (w : option Z) (a : Aggregate) : Aggregate :=
  mkAggregate (aggregate_number a) (status a) w (is_spare a)
              (current_temperature a) (pressure_value a).

Definition set_wagon_status (w : option Z) (st : string) (a : Aggregate) : Aggregate :=
  mkAggregate (aggregate_number a) st w (is_spare a)
              (current_temperature a) (pressure_value a).

Definition set_wagon_spare_status (w : option Z) (sp : bool) (st : string)
    (a : Aggregate) : Aggregate :=
  mkAggregate (aggregate_number a) st w sp
              (current_temperature a) (pressure_value a).

Definition set_live_values (t p : option Z) (a : Aggregate) : Aggregate :=
  mkAggregate (aggregate_number a) (status a) (current_wagon_id a) (is_spare a) t p.

Definition insert_aggregate_log (r : AggregateLog) (d : Db) : unit * Db :=
  (tt, mkDb (aggregates d) (aggregate_logs d ++ [r]) (aggregate_replacements d)
            (audit_logs d) (sensor_readings d) (tenants d) (train_configurations d)).

Definition insert_aggregate_replacement (r : AggregateReplacement) (d : Db) : unit * Db :=
  (tt, mkDb (aggregates d) (aggregate_logs d) (aggregate_replacements d ++ [r])
            (audit_logs d) (sensor_readings d) (tenants d) (train_configurations d)).

Definition insert_audit_log (r : AuditLog) (d : Db) : unit * Db :=
  (tt, mkDb (aggregates d) (aggregate_logs d) (aggregate_replacements d)
            (audit_logs d ++ [r]) (sensor_readings d) (tenants d) (train_configurations d)).

(** [INSERT INTO sensor_readings ... RETURNING *]. *)
Definition insert_sensor_reading (r : SensorReading) (d : Db) : SensorReading * Db :=
  (r, mkDb (aggregates d) (aggregate_logs d) (aggregate_replacements d)
           (audit_logs d) (sensor_readings d ++ [r]) (tenants d) (train_configurations d)).

(** [COALESCE($n, column)]. *)
Definition coalesce {A} (param column : option A) : option A :=
  match param with Some v => Some v | None => column end.

(** *** One request against the pool

    The world of a handler: the store as its connection sees it, the
    snapshot taken by BEGIN while a transaction is open, the number of
    clients the handler holds checked out of the pool, and the number of data
    statements it has issued. *)
Record World : Type := mkWorld {
  db : Db;
  tx : option Db;
  held : nat;
  issued : nat
}.

(** What other sessions can read: the snapshot while a transaction is open. *)
Definition committed (w : World) : Db :=
  match tx w with Some snapshot => snapshot | None => db w end.

Definition start (d : Db) : World := mkWorld d None 0 0.

(** A promise settles with a value or rejects. *)
Inductive Outcome (A : Type) : Type :=
  | Ret (a : A)
  | Throw.
Arguments Ret {A} a.
Arguments Throw {A}.

Definition M (A : Type) : Type := World → Outcome A * World.

#[export] Instance M_ret : MRet M := λ A a w, (Ret a, w).
#[export] Instance M_bind : MBind M := λ A B f m w,
  match m w with
  | (Ret a, w') => f a w'
  | (Throw, w') => (Throw, w')
  end.

Definition throw {A} : M A := λ w, (Throw, w).

(** [try { m } catch { h }]. *)
Definition try_catch {A} (m h : M A) : M A := λ w,
  match m w with
  | (Ret a, w') => (Ret a, w')
  | (Throw, w') => h w'
  end.

(** [try { m } finally { f }]: [f] runs on both exits. *)
Definition try_finally {A} (m : M A) (f : M unit) : M A := λ w,
  match m w with
  | (o, w') =>
      match f w' with
      | (Ret _, w'') => (o, w'')
      | (Throw, w'') => (Throw, w'')
      end
  end.

(** [pool.connect()] and [client.release()]. *)
Definition connect : M unit := λ w,
  (Ret tt, mkWorld (db w) (tx w) (S (held w)) (issued w)).

Definition release : M unit := λ w,
  (Ret tt, mkWorld (db w) (tx w) (pred (held w)) (issued w)).

Definition BEGIN : M unit := λ w,
  (Ret tt, mkWorld (db w) (Some (db w)) (held w) (issued w)).

Definition COMMIT : M unit := λ w,
  (Ret tt, mkWorld (db w) None (held w) (issued w)).

Definition ROLLBACK : M unit := λ w,
  (Ret tt, mkWorld (committed w) None (held w) (issued w)).

(** A data statement.  Whether the store rejects it (a violated constraint
    such as the foreign keys of [aggregate_replacements], a lost connection, a
    timeout) is not computed from the rows: a fault plan says which of the
    statements a handler issues, counted from 0, throws.  A statement that
    throws changes nothing.  [client.query] and [pool.query] are both
    [query]: outside a transaction each statement commits by itself. *)
Definition query {A} (fault : nat → bool) (q : Db → A * Db) : M A := λ w,
  if fault (issued w)
  then (Throw, mkWorld (db w) (tx w) (held w) (S (issued w)))
  else let '(a, d) := q (db w) in
       (Ret a, mkWorld d (tx w) (held w) (S (issued w))).

(** A data statement with constraints that are computed from its parameters
    and the rows (the NOT NULL columns and the foreign key of
    [train_configurations]): [q] answers [None] when one is violated, and the
    statement then throws and changes nothing, as under a fault. *)
Definition query_checked {A} (fault : nat → bool) (q : Db → option (A * Db)) : M A := λ w,
  if fault (issued w)
  then (Throw, mkWorld (db w) (tx w) (held w) (S (issued w)))
  else match q (db w) with
       | Some (a, d) => (Ret a, mkWorld d (tx w) (held w) (S (issued w)))
       | None => (Throw, mkWorld (db w) (tx w) (held w) (S (issued w)))
       end.

Definition no_fault : nat → bool := λ _, false.

(** The plan in which exactly statement [k] throws. *)
Definition fault_at (k : nat) : nat → bool := λ i, Nat.eqb i k.

End Store.

(** ** Route handlers *)

Module Routes.
Import Js Store.

(** [request.user] as the handlers read it. *)
Record User : Type := mkUser {
  user_email : string;
  user_name : string;
  user_tenantId : string
}.

(** [request.user?.tenantId || 'default']. *)
Definition tenant_of (u : option User) : string :=
  str_or (user_tenantId <$> u) "default".

Inductive Body : Type :=
  | BAggregate (row : Aggregate)
  | BReading (row : SensorReading)
  | BSuccess (message : string)
  | BError (error : string).

(** The response: a returned value is sent with status 200, [reply.code(n)]
    sets another status.  The [details] field of some error bodies is left
    out. *)
Record Reply : Type := mkReply {
  code : nat;
  body : Body
}.

(** The status the client sees; a rejection that leaves the handler is
    answered 500 by the framework. *)
Definition http_status (o : Outcome Reply) : nat :=
  match o with
  | Ret r => code r
  | Throw => 500%nat
  end.

(** An object literal through JSON.stringify: [undefined] members are
    dropped. *)
Definition stringify_fields (fields : list (string * option JValue)) : JValue :=
  JObj (omap (λ '(k, v), (λ x, (k, x)) <$> v) fields).

Section Handlers.

Variable fault : nat → bool.

(** *** database.ts, database routes *)

(** POST /api/aggregates/:id/assign.  [wagon_id] is the member of the body:
    the UPDATE and the log row receive it as a parameter, the [new_value] of
    the log row is [JSON.stringify({ wagon_id })], which is [{}] for a body
    without the member. *)
Definition assign (id : Z) (wagon_id : Member) : M Reply :=
  connect ;;
  try_finally
    (try_catch
       (BEGIN ;;
        oldResult ← query fault (select_aggregate id);
        result ← query fault (update_aggregate (set_wagon (param wagon_id)) id);
        match result with
        | None =>
            ROLLBACK ;;
            mret (mkReply 404 (BError "Aggregate not found"))
        | Some row =>
            old ← match oldResult with Some o => mret o | None => throw end;
            query fault (insert_aggregate_log
              (mkAggregateLog id (param wagon_id) "moved"
                 "Aggregate reassigned to different wagon"
                 (Some (JObj [("wagon_id", of_id (current_wagon_id old))]))
                 (Some (stringify_fields [("wagon_id", member_value wagon_id)])))) ;;
            COMMIT ;;
            mret (mkReply 200 (BAggregate row))
        end)
       (ROLLBACK ;;
        mret (mkReply 500 (BError "Failed to assign aggregate"))))
    release.

(** The body of POST /api/aggregates/:id/readings. *)
Record Reading : Type := mkReading {
  temperature : option Z;
  pressure : option Z;
  humidity : option Z;
  power_consumption : option Z;
  error_codes : option string
}.

(** POST /api/aggregates/:id/readings: two [pool.query] calls, no
    transaction. *)
Definition record_reading (id : Z) (r : Reading) : M Reply :=
  try_catch
    (result ← query fault (insert_sensor_reading
       (mkSensorReading id (temperature r) (pressure r) (humidity r)
          (power_consumption r) (error_codes r)));
     query fault (update_aggregate
       (set_live_values (temperature r) (pressure r)) id) ;;
     mret (mkReply 200 (BReading result)))
    (mret (mkReply 500 (BError "Failed to record reading"))).

(** *** database.ts, first admin routes *)

(** POST /api/aggregates/replace *)
Definition replace_v1 (u : option User) (old_aggregate_id new_aggregate_id : Z)
    (reason : string) : M Reply :=
  let tenantId := tenant_of u in
  connect ;;
  try_finally
    (try_catch
       (BEGIN ;;
        oldAgg ← query fault (select_aggregate old_aggregate_id);
        match oldAgg with
        | None =>
            ROLLBACK ;;
            mret (mkReply 404 (BError "Old aggregate not found"))
        | Some o =>
            let wagonId := current_wagon_id o in
            query fault (update_aggregate
              (set_wagon_spare_status None true "maintenance") old_aggregate_id) ;;
            query fault (update_aggregate
              (set_wagon_spare_status wagonId false "operational") new_aggregate_id) ;;
            query fault (insert_aggregate_replacement
              (mkAggregateReplacement tenantId old_aggregate_id new_aggregate_id
                 wagonId reason (user_email <$> u))) ;;
            query fault (insert_audit_log
              (mkAuditLog tenantId (user_email <$> u) (user_name <$> u)
                 "REPLACE" "aggregate" (pretty old_aggregate_id)
                 (Some (JObj [("aggregate_id", JNum old_aggregate_id);
                              ("wagon_id", of_id wagonId)]))
                 (Some (JObj [("aggregate_id", JNum new_aggregate_id);
                              ("wagon_id", of_id wagonId)]))
                 ("Replaced aggregate " ++ aggregate_number o
                    ++ " with spare. Reason: " ++ reason))) ;;
            COMMIT ;;
            mret (mkReply 200 (BSuccess "Aggregate replaced successfully"))
        end)
       (ROLLBACK ;;
        mret (mkReply 500 (BError "Failed to replace aggregate"))))
    release.

(** The body of PUT /api/tenants/:id/configuration.  [None] is a member the
    body does not have; a statement receives it as NULL. *)
Record ConfigurationBody : Type := mkConfigurationBody {
  body_name : option string;
  body_logo_url : option string;
  body_primary_color : option string;
  body_language : option string;
  body_wagon_count : option Z;
  body_wagon_types : option JValue;
  body_custom_labels : option JValue
}.

(** [x ? JSON.stringify(x) : null]. *)
Definition stringify_if_truthy (v : option JValue) : option JValue :=
  match v with
  | Some x => if truthy x then Some x else None
  | None => None
  end.

Definition update_tenant_v1 (b : ConfigurationBody) (id : string) (d : Db) : unit * Db :=
  (tt, with_tenants
         (alter (λ t, mkTenant
                   (default (tenant_name t) (body_name b))
                   (coalesce (body_logo_url b) (tenant_logo_url t))
                   (coalesce (body_primary_color b) (tenant_primary_color t))
                   (coalesce (body_language b) (tenant_language t)))
                id (tenants d)) d).

(** The constraints of [train_configurations] in schema-phase7-8.sql that an
    INSERT ... ON CONFLICT (tenant_id) DO UPDATE meets.  [wagon_count] and
    [wagon_types] are NOT NULL: the proposed row is checked before the
    conflict is looked at, so a NULL parameter is a violation also when the
    tenant has a row.  [tenant_id] references [tenants]: a row is inserted only
    for a tenant that exists.  [upsert_configuration] answers [None] on a
    violation, and otherwise inserts [fresh] or replaces the row [c] of the
    tenant by [merge c]. *)
Definition upsert_configuration (wagon_count : option Z) (wagon_types : option JValue)
    (fresh : Z → JValue → TrainConfiguration)
    (merge : Z → JValue → TrainConfiguration → TrainConfiguration)
    (id : string) (d : Db) : option (unit * Db) :=
  count ← wagon_count;
  types ← wagon_types;
  match train_configurations d !! id with
  | Some c =>
      Some (tt, with_train_configurations
                  (<[id := merge count types c]> (train_configurations d)) d)
  | None =>
      match tenants d !! id with
      | Some _ =>
          Some (tt, with_train_configurations
                      (<[id := fresh count types]> (train_configurations d)) d)
      | None => None
      end
  end.

(** [INSERT ... VALUES ($1, $2, $3, $4) ON CONFLICT (tenant_id) DO UPDATE SET
    c = COALESCE($n, c)] with [$3] and [$4] the members stringified when
    truthy and NULL otherwise. *)
Definition upsert_configuration_v1 (b : ConfigurationBody) (id : string) (d : Db)
    : option (unit * Db) :=
  let labels := stringify_if_truthy (body_custom_labels b) in
  upsert_configuration (body_wagon_count b) (stringify_if_truthy (body_wagon_types b))
    (λ count types, mkTrainConfiguration count types labels)
    (λ count types c,
       mkTrainConfiguration
         (default (cfg_wagon_count c) (Some count))
         (default (cfg_wagon_types c) (Some types))
         (coalesce labels (cfg_custom_labels c)))
    id d.

(** PUT /api/tenants/:id/configuration *)
Definition put_configuration_v1 (u : option User) (id : string)
    (b : ConfigurationBody) : M Reply :=
  connect ;;
  try_finally
    (try_catch
       (BEGIN ;;
        query fault (update_tenant_v1 b id) ;;
        query_checked fault (upsert_configuration_v1 b id) ;;
        query fault (insert_audit_log
          (mkAuditLog id (user_email <$> u) (user_name <$> u)
             "UPDATE" "tenant_config" id None
             (Some (stringify_fields
                [("name", JStr <$> body_name b);
                 ("wagon_count", JNum <$> body_wagon_count b);
                 ("wagon_types", body_wagon_types b)]))
             ("Updated tenant configuration for " ++ id))) ;;
        COMMIT ;;
        mret (mkReply 200 (BSuccess "Configuration updated")))
       (ROLLBACK ;;
        mret (mkReply 500 (BError "Failed to update configuration"))))
    release.

(** *** database.ts, second admin routes *)

(** POST /api/aggregates/replace *)
Definition replace_v2 (u : option User) (old_aggregate_id new_aggregate_id : Z)
    (reason : string) : M Reply :=
  let tenantId := tenant_of u in
  connect ;;
  try_finally
    (try_catch
       (BEGIN ;;
        oldAggResult ← query fault (select_aggregate old_aggregate_id);
        match oldAggResult with
        | None => throw
        | Some o =>
            let wagonId := current_wagon_id o in
            query fault (update_aggregate
              (set_wagon_spare_status None true "maintenance") old_aggregate_id) ;;
            query fault (update_aggregate
              (set_wagon_spare_status wagonId false "operational") new_aggregate_id) ;;
            query fault (insert_aggregate_replacement
              (mkAggregateReplacement tenantId old_aggregate_id new_aggregate_id
                 wagonId reason (user_email <$> u))) ;;
            query fault (insert_audit_log
              (mkAuditLog tenantId (user_email <$> u) (user_name <$> u)
                 "REPLACE" "aggregate" (pretty new_aggregate_id) None None
                 ("Replaced aggregate " ++ pretty old_aggregate_id ++ " with "
                    ++ pretty new_aggregate_id ++ ": " ++ reason))) ;;
            COMMIT ;;
            mret (mkReply 200 (BSuccess "Aggregate replaced successfully"))
        end)
       (ROLLBACK ;;
        mret (mkReply 500 (BError "Failed to replace aggregate"))))
    release.

Definition update_tenant_v2 (b : ConfigurationBody) (id : string) (d : Db) : unit * Db :=
  (tt, with_tenants
         (alter (λ t, mkTenant
                   (tenant_name t)
                   (coalesce (body_logo_url b) (tenant_logo_url t))
                   (coalesce (body_primary_color b) (tenant_primary_color t))
                   (tenant_language t))
                id (tenants d)) d).

(** [INSERT ... VALUES ($1, $2, $3, $4) ON CONFLICT (tenant_id) DO UPDATE SET
    c = EXCLUDED.c] with [$3] and [$4] the members through JSON.stringify: a
    member the body does not have is sent as NULL, any other value (also
    [null]) as its JSON text. *)
Definition upsert_configuration_v2 (b : ConfigurationBody) (id : string) (d : Db)
    : option (unit * Db) :=
  upsert_configuration (body_wagon_count b) (body_wagon_types b)
    (λ count types, mkTrainConfiguration count types (body_custom_labels b))
    (λ count types _, mkTrainConfiguration count types (body_custom_labels b))
    id d.

(** PUT /api/tenants/:tenant_id/configuration: the client is checked out
    inside the [try]; the [catch] only answers. *)
Definition put_configuration_v2 (tenant_id : string) (b : ConfigurationBody)
    : M Reply :=
  try_catch
    (connect ;;
     BEGIN ;;
     query fault (update_tenant_v2 b tenant_id) ;;
     query_checked fault (upsert_configuration_v2 b tenant_id) ;;
     COMMIT ;;
     release ;;
     mret (mkReply 200 (BSuccess "Tenant configuration updated")))
    (mret (mkReply 500 (BError "Failed to update tenant configuration"))).

(** *** Cars-schema admin routes *)

(** POST /api/aggregates/:id/move/:carId *)
Definition move (id carId : Z) : M Reply :=
  try_catch
    (result ← query fault (update_aggregate (set_wagon (Some carId)) id);
     match result with
     | None => mret (mkReply 404 (BError "Aggregate not found"))
     | Some row => mret (mkReply 200 (BAggregate row))
     end)
    (mret (mkReply 500 (BError "Failed to move aggregate"))).

(** POST /api/aggregates/:id/unassign *)
Definition unassign (id : Z) : M Reply :=
  try_catch
    (result ← query fault (update_aggregate (set_wagon_status None "reserve") id);
     match result with
     | None => mret (mkReply 404 (BError "Aggregate not found"))
     | Some row => mret (mkReply 200 (BAggregate row))
     end)
    (mret (mkReply 500 (BError "Failed to unassign aggregate"))).

(** POST /api/aggregates/:id/swap *)
Definition swap (id target_aggregate_id : Z) : M Reply :=
  try_catch
    (connect ;;
     try_finally
       (try_catch
          (BEGIN ;;
           agg1 ← query fault (select_aggregate id);
           agg2 ← query fault (select_aggregate target_aggregate_id);
           match agg1, agg2 with
           | Some a1, Some a2 =>
               let car1 := current_wagon_id a1 in
               let car2 := current_wagon_id a2 in
               query fault (update_aggregate (set_wagon car2) id) ;;
               query fault (update_aggregate (set_wagon car1) target_aggregate_id) ;;
               COMMIT ;;
               mret (mkReply 200 (BSuccess "Aggregates swapped successfully"))
           | _, _ =>
               ROLLBACK ;;
               mret (mkReply 404 (BError "One or both aggregates not found"))
           end)
          (ROLLBACK ;; throw))
       release)
    (mret (mkReply 500 (BError "Failed to swap aggregates"))).

(** POST /api/aggregates/replace: the car comes from the request body. *)
Definition replace_cars (old_aggregate_id new_aggregate_id : Z) (car_id : option Z)
    : M Reply :=
  try_catch
    (connect ;;
     try_finally
       (try_catch
          (BEGIN ;;
           query fault (update_aggregate
             (set_wagon_status None "reserve") old_aggregate_id) ;;
           query fault (update_aggregate
             (set_wagon_status car_id "operational") new_aggregate_id) ;;
           COMMIT ;;
           mret (mkReply 200 (BSuccess "Aggregate replaced successfully")))
          (ROLLBACK ;; throw))
       release)
    (mret (mkReply 500 (BError "Failed to replace aggregate"))).

End Handlers.

(** Running a handler on a store with no transaction open and no client
    held. *)
Definition run (h : M Reply) (d : Db) : Outcome Reply * World := h (start d).

Definition status_of (h : M Reply) (d : Db) : nat := http_status (fst (run h d)).
Definition world_after (h : M Reply) (d : Db) : World := snd (run h d).
Definition db_after (h : M Reply) (d : Db) : Db := committed (world_after h d).

(** The lifecycle operations, for statements about all of them. *)
Inductive Operation : Type :=
  | OpAssign (id : Z) (wagon_id : Member)
  | OpUnassign (id : Z)
  | OpMove (id carId : Z)
  | OpReplaceV1 (u : option User) (old new : Z) (reason : string)
  | OpReplaceV2 (u : option User) (old new : Z) (reason : string)
  | OpReplaceCars (old new : Z) (car_id : option Z)
  | OpSwap (id target : Z).

Definition handler (fault : nat → bool) (op : Operation) : M Reply :=
  match op with
  | OpAssign id w => assign fault id w
  | OpUnassign id => unassign fault id
  | OpMove id c => move fault id c
  | OpReplaceV1 u o n r => replace_v1 fault u o n r
  | OpReplaceV2 u o n r => replace_v2 fault u o n r
  | OpReplaceCars o n c => replace_cars fault o n c
  | OpSwap a b => swap fault a b
  end.

(** The data-model invariant: attached implies not spare (equivalently,
    spare implies detached). *)
Definition attached_xor_spare (a : Aggregate) : Prop :=
  (current_wagon_id a ≠ None → is_spare a = false) ∧
  (is_spare a = true → current_wagon_id a = None).

Definition invariant (d : Db) : Prop :=
  ∀ id a, aggregates d !! id = Some a → attached_xor_spare a.

(** What the routes that leave [is_spare] alone need for the invariant: the
    aggregates that receive a wagon reference are not flagged spare. *)
Definition attaches_unflagged (op : Operation) (d : Db) : Prop :=
  match op with
  | OpAssign id wagon_id =>
      param wagon_id ≠ None → ∀ a, aggregates d !! id = Some a → is_spare a = false
  | OpMove id _ =>
      ∀ a, aggregates d !! id = Some a → is_spare a = false
  | OpReplaceCars _ new car_id =>
      car_id ≠ None → ∀ a, aggregates d !! new = Some a → is_spare a = false
  | OpSwap id target =>
      ∀ a b, aggregates d !! id = Some a → aggregates d !! target = Some b →
        (current_wagon_id b ≠ None → is_spare a = false)
        ∧ (current_wagon_id a ≠ None → is_spare b = false)
  | OpUnassign _ | OpReplaceV1 _ _ _ _ | OpReplaceV2 _ _ _ _ => True
  end.

End Routes.

(** ** The server module: authentication hook and chat endpoint *)

Module Server.
Import Js.

Definition SUPERVISOR_GROUP : string := "d5f7f6e7-380f-468d-9d0e-6a7c30fd3ef9".
Definition TECHNICIAN_GROUP : string := "5dc860e3-600d-4332-9200-5cdc53e7242b".

(** [s.split(sep)] for a one-character separator. *)
Fixpoint split_on (sep : ascii) (s : string) : list string :=
  match s with
  | EmptyString => [EmptyString]
  | String c rest =>
      if Ascii.eqb c sep then EmptyString :: split_on sep rest
      else match split_on sep rest with
           | [] => [String c EmptyString]
           | piece :: pieces => String c piece :: pieces
           end
  end.

(** [s.substring(n)]. *)
Definition substring_from (n : nat) (s : string) : string :=
  String.substring n (String.length s - n) s.

(** [request.user] as the hook builds it: each field is whatever the token
    payload holds, or the default. *)
Record UserInfo : Type := mkUserInfo {
  email : JValue;
  name : JValue;
  tenantId : JValue;
  objectId : JValue;
  groups : JValue
}.

Inductive AuthResult : Type :=
  | Rejected (code : nat) (error : string)
  | Authenticated (user : UserInfo).

Section Authenticate.

(** The runtime's [Buffer.from(s, 'base64').toString('utf8')] and
    [JSON.parse] ([None] when it throws), and [config.tenantId]. *)
Variable base64_utf8 : string → string.
Variable JSON_parse : string → option JValue.
Variable config_tenantId : string.

Definition development_user : UserInfo :=
  mkUserInfo (JStr "dev@techra.app") (JStr "Development User")
             (JStr config_tenantId) (JStr "dev-123")
             (JArr [JStr SUPERVISOR_GROUP]).

(** The statements of the [try] block after the prefix test; [None] when one
    of them throws. *)
Definition user_of_token (token : string) : option UserInfo :=
  segment ← split_on "." token !! 1%nat;
  payload ← JSON_parse (base64_utf8 segment);
  upn ← get_prop payload "upn";
  mail ← get_prop payload "email";
  preferred ← get_prop payload "preferred_username";
  nm ← get_prop payload "name";
  tid ← get_prop payload "tid";
  oid ← get_prop payload "oid";
  grp ← get_prop payload "groups";
  Some (mkUserInfo
    (or_value upn (or_value mail (or_value preferred (JStr "test@techra.app"))))
    (or_value nm (JStr "Test User"))
    (or_value tid (JStr config_tenantId))
    (or_value oid (JStr "test-123"))
    (or_value grp (JArr [JStr SUPERVISOR_GROUP]))).

(** The [authenticate] preHandler on the Authorization header. *)
Definition authenticate (authorization : option string) : AuthResult :=
  match authorization with
  | None => Rejected 401 "Authentication required"
  | Some authHeader =>
      if String.prefix "Bearer " authHeader
      then match user_of_token (substring_from 7 authHeader) with
           | Some user => Authenticated user
           | None => Authenticated development_user
           end
      else Rejected 401 "Authentication required"
  end.

End Authenticate.

(** *** Chat *)

(** A message as the handler hands it to the completion client: [role] and
    [content] are what the history entry or the body holds, [None] for
    [undefined]. *)
Record Message : Type := mkMessage {
  role : option JValue;
  content : option JValue
}.

(** A hit of the search index, before the defaults are applied. *)
Record SearchDocument : Type := mkSearchDocument {
  document_content : option string;
  metadata_storage_name : option string;
  document_score : option Z
}.

Record SearchResult : Type := mkSearchResult {
  result_content : string;
  source : string;
  score : Z
}.

(** A configured search client: the hits for a query and a limit, or [None]
    when the call or the iteration over its results throws.  The query is
    the [message] member of the body, whatever it holds. *)
Definition SearchClient : Type := option JValue → nat → option (list SearchDocument).

(** A configured completion client: [None] when the call throws, [Some None]
    when the first choice carries no content. *)
Definition OpenAIClient : Type := list Message → option (option string).

(** [searchDocuments(query, top = 3)]; the module variable [searchClient] is
    [None] when the service is not configured. *)
Definition searchDocuments (searchClient : option SearchClient) (query : option JValue)
    (top : nat) : list SearchResult :=
  match searchClient with
  | None => []
  | Some client =>
      match client query top with
      | Some documents =>
          map (λ d, mkSearchResult
                 (str_or (document_content d) "")
                 (str_or (metadata_storage_name d) "Unknown")
                 (match document_score d with
                  | Some s => s
                  | None => 0%Z
                  end)) documents
      | None => []
      end
  end.

Definition nl : string := String (ascii_of_nat 10) EmptyString.
Definition dquote : string := String (ascii_of_nat 34) EmptyString.

(** The [forEach] over the search results: the numbered passages and the
    sources without repetition. *)
Fixpoint add_results (idx : nat) (results : list SearchResult)
    (context : string) (sources : list string) : string * list string :=
  match results with
  | [] => (context, sources)
  | r :: rest =>
      add_results (S idx) rest
        (context ++ "[" ++ pretty (S idx) ++ "] " ++ result_content r ++ nl ++ nl)
        (if existsb (String.eqb (source r)) sources
         then sources else sources ++ [source r])
  end.

Definition build_context (results : list SearchResult) : string * list string :=
  match results with
  | [] => ("", [])
  | _ => add_results 0 results
           ("Relevant information from documentation:" ++ nl ++ nl) []
  end.

(** [s.includes(x)] on strings. *)
Fixpoint contains (x s : string) : bool :=
  String.prefix x s
  || match s with
     | EmptyString => false
     | String _ rest => contains x rest
     end.

(** [v.includes(x)] for a string [x]: arrays and strings have the method; on
    every other value the call throws ([None]). *)
Definition includes (v : JValue) (x : string) : option bool :=
  match v with
  | JArr items =>
      Some (existsb (λ item, match item with
                             | JStr s => String.eqb s x
                             | _ => false
                             end) items)
  | JStr s => Some (contains x s)
  | _ => None
  end.

(** The role line of the system prompt; [None] when [user.groups.includes]
    throws. *)
Definition role_name (groups : JValue) : option string :=
  supervisor ← includes groups SUPERVISOR_GROUP;
  if (supervisor : bool) then Some "Supervisor"
  else (technician ← includes groups TECHNICIAN_GROUP;
        Some (if (technician : bool) then "Technician" else "Viewer")).

Definition indent : string := "            ".

(** [conversation_history.map(msg => ({ role: msg.role, content: msg.content }))]:
    only an array has the method, and reading a member of [null] throws. *)
Definition history_messages (conversation_history : JValue) : option (list Message) :=
  match conversation_history with
  | JArr items =>
      mapM (λ msg, r ← get_prop msg "role";
                   c ← get_prop msg "content";
                   Some (mkMessage r c)) items
  | _ => None
  end.

(** An object literal [{ role, content }] of the response as JSON.stringify
    sends it: a [content] that is [undefined] is left out. *)
Definition entry (role : string) (content : option JValue) : JValue :=
  JObj (("role", JStr role)
        :: match content with
           | Some v => [("content", v)]
           | None => []
           end).

(** [const { message, conversation_history = [] } = request.body]: throws on a
    body that is [undefined] or [null]; the default replaces [undefined]
    only. *)
Definition destructure (body : option JValue) : option (option JValue * JValue) :=
  b ← body;
  message ← get_prop b "message";
  conversation_history ← get_prop b "conversation_history";
  Some (message, default (JArr []) conversation_history).

Record ChatResponse : Type := mkChatResponse {
  response_user : option JValue;
  reply : string;
  sources : list string;
  conversation_history : list JValue
}.

Inductive ChatReply : Type :=
  | ChatOk (response : ChatResponse)
  | ChatFailed (code : nat) (error : string).

Section Chat.

(** The runtime: the text a template literal puts for a value that is not a
    string (a number, a boolean, [null], [undefined], an array, an object;
    none of these conversions throws on parsed JSON), and the code points by
    which the spread syntax iterates a string. *)
Variable to_text : option JValue → string.
Variable code_points : string → list string.

(** [`${v}`]. *)
Definition text_of (v : option JValue) : string :=
  match v with
  | Some (JStr s) => s
  | _ => to_text v
  end.

(** [[...v]]: arrays and strings are iterable, every other value throws. *)
Definition spread (v : JValue) : option (list JValue) :=
  match v with
  | JArr items => Some items
  | JStr s => Some (JStr <$> code_points s)
  | _ => None
  end.

Definition system_prompt (user : UserInfo) (context : string) : option string :=
  role ← role_name (groups user);
  Some ("You are Techra AI Assistant, helping with train HVAC systems troubleshooting." ++ nl
        ++ indent ++ "User: " ++ text_of (Some (name user))
        ++ " (" ++ text_of (Some (email user)) ++ ")" ++ nl
        ++ indent ++ "Role: " ++ role ++ nl
        ++ indent ++ nl
        ++ indent ++ (if String.eqb context ""
                      then "No specific documentation found."
                      else "Use this documentation to answer:" ++ nl ++ context) ++ nl
        ++ indent ++ nl
        ++ indent ++ "Provide accurate, technical responses about train HVAC systems, maintenance, and troubleshooting.").

Definition mock_response (message : option JValue) (found : nat) : string :=
  "Mock response for: " ++ dquote ++ text_of message ++ dquote ++ nl ++ nl
  ++ "Found " ++ pretty found ++ " relevant documents." ++ nl
  ++ "This is a development response. Configure Azure OpenAI for real responses.".

(** The messages the handler sends to the completion client: the system
    prompt, the history, the user's message; [None] when building them
    throws. *)
Definition prompt_of (user : UserInfo) (context : string) (message : option JValue)
    (conversation_history : JValue) : option (list Message) :=
  prompt ← system_prompt user context;
  turns ← history_messages conversation_history;
  Some (mkMessage (Some (JStr "system")) (Some (JStr prompt))
        :: turns ++ [mkMessage (Some (JStr "user")) message]).

(** POST /chat on the body of the request ([None] when it has none) and the
    user the hook installed.  Whatever throws inside the [try] is answered
    500. *)
Definition chat (searchClient : option SearchClient) (openAIClient : option OpenAIClient)
    (user : UserInfo) (body : option JValue) : ChatReply :=
  match destructure body with
  | None => ChatFailed 500 "Chat processing failed"
  | Some (message, conversation_history) =>
      let searchResults := searchDocuments searchClient message 3 in
      let '(context, sources) := build_context searchResults in
      let aiResponse :=
        match openAIClient with
        | Some client =>
            messages ← prompt_of user context message conversation_history;
            completion ← client messages;
            Some (str_or completion "No response generated")
        | None => Some (mock_response message (length searchResults))
        end in
      match aiResponse, spread conversation_history with
      | Some text, Some entries =>
          ChatOk (mkChatResponse message text sources
                    (entries ++ [entry "user" message;
                                 entry "assistant" (Some (JStr text))]))
      | _, _ => ChatFailed 500 "Chat processing failed"
      end
  end.

End Chat.

End Server.

(** ** Example data *)

Module Examples.
Import Js Store Routes.

(** Aggregate 10 runs on wagon 7; aggregate 20 is a spare waiting in the
    workshop, as a replacement leaves it. *)
Definition aggregate_10 : Aggregate :=
  mkAggregate "AGG-10" "operational" (Some 7%Z) false None None.

Definition aggregate_20 : Aggregate :=
  mkAggregate "AGG-20" "maintenance" None true None None.

Definition aggregate_30 : Aggregate :=
  mkAggregate "AGG-30" "operational" (Some 8%Z) false (Some 21%Z) (Some 3%Z).

Definition fleet : Db :=
  mkDb (<[10%Z := aggregate_10]> (<[20%Z := aggregate_20]> (<[30%Z := aggregate_30]> ∅)))
       [] [] [] []
       (<["default" := mkTenant "Öresundståg" None (Some "#3B82F6") (Some "sv")]> ∅)
       ∅.

Definition supervisor : User := mkUser "lead@example.com" "Lead" "default".

Definition reading_1 : Reading :=
  mkReading (Some 24%Z) (Some 5%Z) (Some 40%Z) (Some 1200%Z) None.

(** A configuration body that names no wagon types. *)
Definition colour_only : ConfigurationBody :=
  mkConfigurationBody None None (Some "#112233") None None None None.

(** A configuration body with a colour, a wagon count and wagon types. *)
Definition three_wagons : ConfigurationBody :=
  mkConfigurationBody None None (Some "#112233") None (Some 3%Z)
    (Some (Js.JArr [Js.JStr "M43 Hytt"; Js.JStr "T47 Salong"; Js.JStr "M45 Hytt"])) None.

(** The user the hook installs when the payload names nobody. *)
Definition test_user : Server.UserInfo :=
  Server.mkUserInfo (Js.JStr "test@techra.app") (Js.JStr "Test User") (Js.JStr "tid-0")
    (Js.JStr "test-123") (Js.JArr [Js.JStr Server.SUPERVISOR_GROUP]).

(** A chat body with a message and no history. *)
Definition ask (message : string) : option Js.JValue :=
  Some (Js.JObj [("message", Js.JStr message)]).

(** A runtime for the chat examples, which hold strings only: the text of a
    value that is not a string is never asked for, and strings are iterated
    by character. *)
Definition toy_text : option Js.JValue → string := λ _, "".
Definition toy_code_points (s : string) : list string :=
  (λ c, String c EmptyString) <$> list_ascii_of_string s.

(** A runtime for examples: the decoder is the identity and the parser knows
    two texts. *)
Definition toy_parse (s : string) : option Js.JValue :=
  if String.eqb s "{}" then Some (Js.JObj [])
  else if String.eqb s "null" then Some Js.JNull
  else None.

End Examples.

(** ** Vocabulary of the lifecycle properties *)

Module LifecycleSpec.
Import Js Store Routes.

(** The invariant only reads [aggregates]. *)
Definition rows_ok (m : gmap Z Aggregate) : Prop :=
  ∀ id a, m !! id = Some a → attached_xor_spare a.

(** A handler is disciplined on a store when, run there, it ends with no
    client held and no transaction open, and either answered 200 or left the
    store as it was. *)
Definition disciplined (h : M Reply) (d : Db) : Prop :=
  held (world_after h d) = 0%nat
  ∧ tx (world_after h d) = None
  ∧ (status_of h d = 200%nat ∨ db (world_after h d) = d).

(** A handler has rolled back on a store when, run there, it ends with no
    transaction open, no client held, and the store as it was. *)
Definition rolled_back (h : M Reply) (d : Db) : Prop :=
  tx (world_after h d) = None
  ∧ held (world_after h d) = 0%nat
  ∧ db (world_after h d) = d.

(** The row the admin replace routes append to aggregate_replacements. *)
Definition replacement_row (u : option User) (old new : Z) (wagon : option Z)
    (reason : string) : AggregateReplacement :=
  mkAggregateReplacement (tenant_of u) old new wagon reason (user_email <$> u).

(** The audit row of the first admin variant: the old and new values name the
    old aggregate, the new aggregate and the wagon. *)
Definition audit_row_v1 (u : option User) (old new : Z) (o : Aggregate)
    (reason : string) : AuditLog :=
  mkAuditLog (tenant_of u) (user_email <$> u) (user_name <$> u)
    "REPLACE" "aggregate" (pretty old)
    (Some (JObj [("aggregate_id", JNum old); ("wagon_id", of_id (current_wagon_id o))]))
    (Some (JObj [("aggregate_id", JNum new); ("wagon_id", of_id (current_wagon_id o))]))
    ("Replaced aggregate " ++ aggregate_number o ++ " with spare. Reason: " ++ reason).

(** The audit row of the second admin variant: the entity is the new
    aggregate, the description names both aggregates, the wagon is absent. *)
Definition audit_row_v2 (u : option User) (old new : Z) (reason : string) : AuditLog :=
  mkAuditLog (tenant_of u) (user_email <$> u) (user_name <$> u)
    "REPLACE" "aggregate" (pretty new) None None
    ("Replaced aggregate " ++ pretty old ++ " with " ++ pretty new ++ ": " ++ reason).

(** What a committed admin replacement leaves behind. *)
Definition replaced (d d' : Db) (old new : Z) (o n : Aggregate) (audit : AuditLog)
    (u : option User) (reason : string) : Prop :=
  aggregates d' !! old = Some (set_wagon_spare_status None true "maintenance" o)
  ∧ aggregates d' !! new
    = Some (set_wagon_spare_status (current_wagon_id o) false "operational" n)
  ∧ (∀ id, id ≠ old → id ≠ new → aggregates d' !! id = aggregates d !! id)
  ∧ aggregate_replacements d'
    = (aggregate_replacements d
       ++ [replacement_row u old new (current_wagon_id o) reason])%list
  ∧ audit_logs d' = (audit_logs d ++ [audit])%list
  ∧ aggregate_logs d' = aggregate_logs d
  ∧ sensor_readings d' = sensor_readings d.

(** The row the assign route appends to aggregate_logs: the wagon the
    aggregate [a] was on, and the wagon_id member of the body as
    JSON.stringify leaves it. *)
Definition moved_row (id : Z) (wagon_id : Member) (a : Aggregate) : AggregateLog :=
  mkAggregateLog id (param wagon_id) "moved" "Aggregate reassigned to different wagon"
    (Some (JObj [("wagon_id", of_id (current_wagon_id a))]))
    (Some (JObj match wagon_id with
                | Missing => []
                | Given v => [("wagon_id", of_id v)]
                end)).

(** The row the readings route inserts. *)
Definition reading_row (id : Z) (r : Reading) : SensorReading :=
  mkSensorReading id (temperature r) (pressure r) (humidity r)
    (power_consumption r) (error_codes r).

End LifecycleSpec.

(** ** Further aggregate routes: status, deletion, listings, health *)

Module AggregateRoutes.
Import Js Store Routes.

(** The answer of a route that returns rows. *)
Inductive Answer (A : Type) : Type :=
  | Sent (payload : A)
  | Failed (code : nat) (error : string).
Arguments Sent {A} payload.
Arguments Failed {A} code error.

Section Handlers.

Variable fault : nat → bool.

(** *** database.ts, database routes *)

(** [pool.connect()] of the probes, which exist to find out whether the store
    can be reached: [reachable] says whether the pool hands out a client; when
    it does not, the promise rejects and no client is checked out. *)
Definition pool_connect (reachable : bool) : M unit :=
  if reachable then connect else throw.

(** [testConnection] of database.ts: the client is released only after the
    query has succeeded. *)
Definition testConnection (reachable : bool) : M bool :=
  try_catch
    (pool_connect reachable ;;
     query fault (λ d, (tt, d)) ;;
     release ;;
     mret true)
    (mret false).

(** [testConnection] of database-pool.ts: the same, rethrowing. *)
Definition testConnection_pool (reachable : bool) : M unit :=
  try_catch
    (pool_connect reachable ;;
     query fault (λ d, (tt, d)) ;;
     release ;;
     mret tt)
    throw.

(** GET /api/db/health: [true] stands for 'connected'. *)
Definition db_health (reachable : bool) : M bool := testConnection reachable.

Definition set_status (st : string) (a : Aggregate) : Aggregate :=
  mkAggregate (aggregate_number a) st (current_wagon_id a) (is_spare a)
              (current_temperature a) (pressure_value a).

(** PATCH /api/aggregates/:id/status: two [pool.query] calls, no
    transaction. *)
Definition update_status (id : Z) (status : string) : M Reply :=
  try_catch
    (result ← query fault (update_aggregate (set_status status) id);
     match result with
     | None => mret (mkReply 404 (BError "Aggregate not found"))
     | Some row =>
         query fault (insert_aggregate_log
           (mkAggregateLog id None "status_change" "Status updated" None
              (Some (JObj [("status", JStr status)])))) ;;
         mret (mkReply 200 (BAggregate row))
     end)
    (mret (mkReply 500 (BError "Failed to update status"))).

(** [SELECT * FROM aggregate_logs WHERE aggregate_id = $1 ORDER BY created_at
    DESC LIMIT 50].  Rows are stamped when they are inserted, so newest first
    is the table in reverse (rows with equal stamps aside). *)
Definition select_logs (id : Z) (d : Db) : list AggregateLog * Db :=
  (take 50 (reverse (filter (λ r, log_aggregate_id r = id) (aggregate_logs d))), d).

(** GET /api/aggregates/:id/logs *)
Definition get_logs (id : Z) : M (Answer (list AggregateLog)) :=
  try_catch
    (result ← query fault (select_logs id);
     mret (Sent result))
    (mret (Failed 500 "Failed to fetch logs")).

(** *** Listings of aggregates

    [SELECT ... FROM aggregates WHERE ... ORDER BY aggregate_number]: the
    order depends on the collation of the store and is not modelled; a result
    is the set of its rows, keyed by id. *)
Definition select_aggregates (P : Aggregate → Prop) `{∀ a, Decision (P a)} (d : Db)
    : gmap Z Aggregate * Db :=
  (filter (λ r, P r.2) (aggregates d), d).

(** GET /api/aggregates/spare, first admin routes:
    [WHERE a.is_spare = true AND a.current_wagon_id IS NULL]. *)
Definition spare_v1 : M (Answer (gmap Z Aggregate)) :=
  try_catch
    (result ← query fault
       (select_aggregates (λ a, is_spare a = true ∧ current_wagon_id a = None));
     mret (Sent result))
    (mret (Failed 500 "Failed to fetch spare aggregates")).

(** GET /api/aggregates/spare, second admin routes: [WHERE is_spare = true]. *)
Definition spare_v2 : M (Answer (gmap Z Aggregate)) :=
  try_catch
    (result ← query fault (select_aggregates (λ a, is_spare a = true));
     mret (Sent result))
    (mret (Failed 500 "Failed to fetch spare aggregates")).

(** *** Cars-schema admin routes

    In the cars schema the reference of an aggregate is the column
    [current_car_id], which the routes of that module (move, unassign, swap,
    the cars variant of replace, and the two listings below) read and write;
    the routes of database.ts read and write [current_wagon_id].  The record
    has one field for the reference, so what these listings return is related
    to what the cars-schema routes wrote, not to what the routes of
    database.ts wrote. *)
Abbreviation current_car_id := current_wagon_id (only parsing).

(** GET /api/aggregates/reserve and GET /api/aggregates/spare, cars-schema
    routes: [WHERE current_car_id IS NULL]. *)
Definition reserve : M (Answer (gmap Z Aggregate)) :=
  try_catch
    (result ← query fault (select_aggregates (λ a, current_car_id a = None));
     mret (Sent result))
    (mret (Failed 500 "Failed to fetch spare aggregates")).

(** GET /api/cars/:id/aggregates: [WHERE a.current_car_id = $1]. *)
Definition car_aggregates (car : Z) : M (Answer (gmap Z Aggregate)) :=
  try_catch
    (result ← query fault (select_aggregates (λ a, current_car_id a = Some car));
     mret (Sent result))
    (mret (Failed 500 "Failed to fetch car aggregates")).

(** [DELETE FROM aggregates WHERE id = $1 RETURNING *]. *)
Definition delete_aggregate_row (id : Z) (d : Db) : option Aggregate * Db :=
  (aggregates d !! id, with_aggregates (delete id (aggregates d)) d).

(** DELETE /api/aggregates/:id, cars-schema routes. *)
Definition delete_aggregate (id : Z) : M Reply :=
  try_catch
    (result ← query fault (delete_aggregate_row id);
     match result with
     | None => mret (mkReply 404 (BError "Aggregate not found"))
     | Some _ => mret (mkReply 200 (BSuccess "Aggregate deleted successfully"))
     end)
    (mret (mkReply 500 (BError "Failed to delete aggregate"))).

(** *** database.ts, admin routes: audit trail and tenant configuration *)

(** [SELECT * FROM audit_logs WHERE tenant_id = $1 ORDER BY created_at DESC
    LIMIT $2 OFFSET $3]; newest first is again the table in reverse. *)
Definition select_audit_logs (tenantId : string) (limit offset : nat) (d : Db)
    : list AuditLog * Db :=
  (take limit (drop offset
     (reverse (filter (λ r, audit_tenant_id r = tenantId) (audit_logs d)))), d).

(** GET /api/audit-logs of both admin routes; [limit] and [offset] are the
    query parameters, 100 and 0 when absent. *)
Definition get_audit_logs (u : option User) (limit offset : option nat)
    : M (Answer (list AuditLog)) :=
  let tenantId := tenant_of u in
  try_catch
    (result ← query fault
       (select_audit_logs tenantId (default 100%nat limit) (default 0%nat offset));
     mret (Sent result))
    (mret (Failed 500 "Failed to fetch audit logs")).

(** GET /api/tenants/:id/configuration, first admin routes: the tenant, then
    its configuration ([null] when it has none). *)
Definition get_configuration_v1 (id : string)
    : M (Answer (Tenant * option TrainConfiguration)) :=
  try_catch
    (tenantResult ← query fault (λ d, (tenants d !! id, d));
     match tenantResult with
     | None => mret (Failed 404 "Tenant not found")
     | Some tenant =>
         configResult ← query fault (λ d, (train_configurations d !! id, d));
         mret (Sent (tenant, configResult))
     end)
    (mret (Failed 500 "Failed to fetch configuration")).

(** GET /api/tenants/:tenant_id/configuration, second admin routes: one query,
    tenants LEFT JOIN train_configurations. *)
Definition get_configuration_v2 (tenant_id : string)
    : M (Answer (Tenant * option TrainConfiguration)) :=
  try_catch
    (result ← query fault
       (λ d, ((λ t, (t, train_configurations d !! tenant_id)) <$> tenants d !! tenant_id, d));
     match result with
     | None => mret (Failed 404 "Tenant not found")
     | Some row => mret (Sent row)
     end)
    (mret (Failed 500 "Failed to fetch tenant configuration")).

End Handlers.

(** The answer of a read route on a store, and the world it leaves. *)
Definition answer_of {A} (h : M A) (d : Db) : Outcome A := fst (h (start d)).
Definition world_of {A} (h : M A) (d : Db) : World := snd (h (start d)).

(** The aggregates a lifecycle operation names. *)
Definition targets (op : Operation) : list Z :=
  match op with
  | OpAssign id _ | OpUnassign id | OpMove id _ => [id]
  | OpReplaceV1 _ old new _ | OpReplaceV2 _ old new _ | OpReplaceCars old new _ =>
      [old; new]
  | OpSwap id target => [id; target]
  end.

(** [m'] differs from [m] at most in the wagon reference, spare flag and
    status of the rows with an id in [ids]. *)
Definition touched_only (ids : list Z) (m m' : gmap Z Aggregate) : Prop :=
  ∀ id,
    match m !! id, m' !! id with
    | Some a, Some a' =>
        aggregate_number a' = aggregate_number a
        ∧ current_temperature a' = current_temperature a
        ∧ pressure_value a' = pressure_value a
        ∧ (id ∉ ids → a' = a)
    | None, None => True
    | _, _ => False
    end.

(** The tenant the first configuration route leaves: what the body gives
    replaces, what it omits stays. *)
Definition merged_tenant (b : ConfigurationBody) (t : Tenant) : Tenant :=
  mkTenant (default (tenant_name t) (body_name b))
           (coalesce (body_logo_url b) (tenant_logo_url t))
           (coalesce (body_primary_color b) (tenant_primary_color t))
           (coalesce (body_language b) (tenant_language t)).

(** The labels the first configuration route leaves: those of the body when
    it gives truthy ones, the stored ones otherwise. *)
Definition merged_labels (b : ConfigurationBody) (old : option TrainConfiguration)
    : option JValue :=
  coalesce (stringify_if_truthy (body_custom_labels b)) (old ≫= cfg_custom_labels).

(** The tenant the second configuration route leaves. *)
Definition recoloured_tenant (b : ConfigurationBody) (t : Tenant) : Tenant :=
  mkTenant (tenant_name t)
           (coalesce (body_logo_url b) (tenant_logo_url t))
           (coalesce (body_primary_color b) (tenant_primary_color t))
           (tenant_language t).

(** The audit row of the first configuration route. *)
Definition configuration_audit_row (u : option User) (id : string)
    (b : ConfigurationBody) : AuditLog :=
  mkAuditLog id (user_email <$> u) (user_name <$> u)
    "UPDATE" "tenant_config" id None
    (Some (stringify_fields
       [("name", JStr <$> body_name b);
        ("wagon_count", JNum <$> body_wagon_count b);
        ("wagon_types", body_wagon_types b)]))
    ("Updated tenant configuration for " ++ id).

(** The log row of a status change. *)
Definition status_log (id : Z) (status : string) : AggregateLog :=
  mkAggregateLog id None "status_change" "Status updated" None
    (Some (JObj [("status", JStr status)])).

End AggregateRoutes.

(** ** Vocabulary of the server properties *)

Module ServerSpec.
Import Js Server.

(** [pieces.join(sep)]. *)
Fixpoint join (sep : ascii) (pieces : list string) : string :=
  match pieces with
  | [] => ""
  | [piece] => piece
  | piece :: rest => piece ++ String sep (join sep rest)
  end.

(** The character does not occur in the string. *)
Fixpoint free_of (sep : ascii) (s : string) : Prop :=
  match s with
  | EmptyString => True
  | String c rest => c ≠ sep ∧ free_of sep rest
  end.

(** A bearer header around a three-part token. *)
Definition bearer (header payload signature : string) : string :=
  "Bearer " ++ header ++ "." ++ payload ++ "." ++ signature.

(** *** The identity a token payload gives *)

(** The member [k] of a payload that is not [null]: only objects have the
    members the hook reads. *)
Definition member (payload : JValue) (k : string) : option JValue :=
  match payload with
  | JObj fields => assoc_last k fields
  | _ => None
  end.

(** The first of the candidates that is there and truthy, or the default. *)
Fixpoint first_truthy (candidates : list (option JValue)) (d : JValue) : JValue :=
  match candidates with
  | [] => d
  | Some v :: rest => if truthy v then v else first_truthy rest d
  | None :: rest => first_truthy rest d
  end.

Definition identity_of (config_tenantId : string) (payload : JValue) : UserInfo :=
  mkUserInfo
    (first_truthy [member payload "upn"; member payload "email";
                   member payload "preferred_username"] (JStr "test@techra.app"))
    (first_truthy [member payload "name"] (JStr "Test User"))
    (first_truthy [member payload "tid"] (JStr config_tenantId))
    (first_truthy [member payload "oid"] (JStr "test-123"))
    (first_truthy [member payload "groups"] (JArr [JStr SUPERVISOR_GROUP])).

(** *** Chat requests that throw *)

(** The request has no body the handler can destructure. *)
Definition no_body (body : option JValue) : Prop :=
  body = None ∨ body = Some JNull.

(** The value is neither an array nor a string: it cannot be spread, and it
    has no [includes]. *)
Definition not_iterable (v : JValue) : Prop :=
  (∀ items, v ≠ JArr items) ∧ (∀ s, v ≠ JStr s).

(** The history cannot be mapped to messages: it is no array, or one of its
    entries is [null]. *)
Definition no_map (conversation_history : JValue) : Prop :=
  (∀ items, conversation_history ≠ JArr items)
  ∨ ∃ items, conversation_history = JArr items ∧ JNull ∈ items.

(** The message of a request, and the retrieval context the handler builds
    for it. *)
Definition message_of (body : option JValue) : option JValue :=
  match destructure body with
  | Some (message, _) => message
  | None => None
  end.

Definition context_of (searchClient : option SearchClient) (message : option JValue)
    : string :=
  (build_context (searchDocuments searchClient message 3)).1.

(** Everything that makes the handler answer 500: no body; a history that
    cannot be spread; and, with a configured completion client, groups
    without [includes], a history that cannot be mapped, or a completion call
    that throws. *)
Definition chat_throws (to_text : option JValue → string)
    (searchClient : option SearchClient) (openAIClient : option OpenAIClient)
    (user : UserInfo) (body : option JValue) : Prop :=
  no_body body
  ∨ ∃ message history,
      destructure body = Some (message, history)
      ∧ (not_iterable history
         ∨ ∃ client,
             openAIClient = Some client
             ∧ (not_iterable (groups user)
                ∨ no_map history
                ∨ ∃ messages,
                    prompt_of to_text user (context_of searchClient message)
                      message history = Some messages
                    ∧ client messages = None)).

End ServerSpec.

(** ** Trains and wagons *)

Module Fleet.
Import Js Store Routes AggregateRoutes.

(** A row of [trains]; the key of the table is the serial [id].  [None] in
    [train_status] leaves the column to its default.  [tenant_id] is the
    column the phase 7 migration adds, with default 'default'. *)
Record Train : Type := mkTrain {
  train_number : string;
  train_name : string;
  train_operator : string;
  train_status : option string;
  train_tenant_id : string
}.

(** A row of [wagons].  The first routes store the ordinal as wagon number,
    the second admin routes a text. *)
Record Wagon : Type := mkWagon {
  wagon_train_id : Z;
  wagon_number : JValue;
  wagon_type : string;
  position : Z;
  wagon_status : option string
}.

(** The store of the lifecycle routes together with trains and wagons. *)
Record FleetDb : Type := mkFleetDb {
  core : Db;
  trains : gmap Z Train;
  wagons : gmap Z Wagon
}.

(** The serial sequences of [trains.id] and [wagons.id]: the values the next
    [nextval] returns.  A sequence is not part of any transaction. *)
Record Sequences : Type := mkSequences {
  next_train : Z;
  next_wagon : Z
}.

Record FleetWorld : Type := mkFleetWorld {
  fleet_db : FleetDb;
  fleet_tx : option FleetDb;
  fleet_held : nat;
  fleet_issued : nat;
  sequences : Sequences
}.

Definition fleet_committed (w : FleetWorld) : FleetDb :=
  match fleet_tx w with Some snapshot => snapshot | None => fleet_db w end.

Definition fleet_start (s : Sequences) (d : FleetDb) : FleetWorld :=
  mkFleetWorld d None 0 0 s.

Definition FM (A : Type) : Type := FleetWorld → Outcome A * FleetWorld.

Definition fret {A} (a : A) : FM A := λ w, (Ret a, w).

Definition fbind {A B} (m : FM A) (k : A → FM B) : FM B := λ w,
  match m w with
  | (Ret a, w') => k a w'
  | (Throw, w') => (Throw, w')
  end.

Definition fthrow {A} : FM A := λ w, (Throw, w).

Definition ftry_catch {A} (m h : FM A) : FM A := λ w,
  match m w with
  | (Ret a, w') => (Ret a, w')
  | (Throw, w') => h w'
  end.

Definition ftry_finally {A} (m : FM A) (f : FM unit) : FM A := λ w,
  match m w with
  | (o, w') =>
      match f w' with
      | (Ret _, w'') => (o, w'')
      | (Throw, w'') => (Throw, w'')
      end
  end.

Definition fconnect : FM unit := λ w,
  (Ret tt, mkFleetWorld (fleet_db w) (fleet_tx w) (S (fleet_held w)) (fleet_issued w)
             (sequences w)).

Definition frelease : FM unit := λ w,
  (Ret tt, mkFleetWorld (fleet_db w) (fleet_tx w) (pred (fleet_held w)) (fleet_issued w)
             (sequences w)).

Definition fBEGIN : FM unit := λ w,
  (Ret tt, mkFleetWorld (fleet_db w) (Some (fleet_db w)) (fleet_held w) (fleet_issued w)
             (sequences w)).

Definition fCOMMIT : FM unit := λ w,
  (Ret tt, mkFleetWorld (fleet_db w) None (fleet_held w) (fleet_issued w) (sequences w)).

Definition fROLLBACK : FM unit := λ w,
  (Ret tt, mkFleetWorld (fleet_committed w) None (fleet_held w) (fleet_issued w)
             (sequences w)).

(** A data statement reads the sequences and the store; [None] as its result
    is an error the store raises by itself (a primary key that exists).  As
    before, the fault plan says which statements fail for another reason, and
    such a statement changes nothing. *)
Definition fquery {A} (fault : nat → bool)
    (q : Sequences → FleetDb → option A * Sequences * FleetDb) : FM A := λ w,
  if fault (fleet_issued w)
  then (Throw, mkFleetWorld (fleet_db w) (fleet_tx w) (fleet_held w)
                 (S (fleet_issued w)) (sequences w))
  else let '(a, s, d) := q (sequences w) (fleet_db w) in
       (match a with Some v => Ret v | None => Throw end,
        mkFleetWorld d (fleet_tx w) (fleet_held w) (S (fleet_issued w)) s).

(** *** Statements *)

(** [INSERT INTO trains ... RETURNING *]: the id is drawn from the sequence;
    an id already in the table violates the primary key. *)
Definition insert_train (row : Train) (s : Sequences) (d : FleetDb)
    : option (Z * Train) * Sequences * FleetDb :=
  let id := next_train s in
  let s' := mkSequences (id + 1) (next_wagon s) in
  match trains d !! id with
  | Some _ => (None, s', d)
  | None => (Some (id, row), s', mkFleetDb (core d) (<[id := row]> (trains d)) (wagons d))
  end.

Definition insert_wagon (row : Wagon) (s : Sequences) (d : FleetDb)
    : option unit * Sequences * FleetDb :=
  let id := next_wagon s in
  let s' := mkSequences (next_train s) (id + 1) in
  match wagons d !! id with
  | Some _ => (None, s', d)
  | None => (Some tt, s', mkFleetDb (core d) (trains d) (<[id := row]> (wagons d)))
  end.

Definition insert_audit (row : AuditLog) (s : Sequences) (d : FleetDb)
    : option unit * Sequences * FleetDb :=
  (Some tt, s, mkFleetDb (snd (insert_audit_log row (core d))) (trains d) (wagons d)).

(** [SELECT * FROM trains WHERE id = $1]. *)
Definition select_train (id : Z) (s : Sequences) (d : FleetDb)
    : option (option Train) * Sequences * FleetDb :=
  (Some (trains d !! id), s, d).

(** [SELECT * FROM trains WHERE id = $1 AND tenant_id = $2]. *)
Definition select_train_of (id : Z) (tenantId : string) (s : Sequences) (d : FleetDb)
    : option (option Train) * Sequences * FleetDb :=
  (Some (t ← trains d !! id; if decide (train_tenant_id t = tenantId) then Some t else None),
   s, d).

(** The rows of a wagon in the LEFT JOIN with aggregates: one per aggregate
    on the wagon, or one without aggregate. *)
Definition join_aggregates (d : FleetDb) (w : Z * Wagon)
    : list (Z * Wagon * option (Z * Aggregate)) :=
  match map_to_list (filter (λ r, current_wagon_id r.2 = Some w.1) (aggregates (core d))) with
  | [] => [(w, None)]
  | rows => (λ a, (w, Some a)) <$> rows
  end.

Definition by_position (w1 w2 : Z * Wagon) : Prop :=
  (position w1.2 ≤ position w2.2)%Z.

#[export] Instance by_position_dec (w1 w2 : Z * Wagon) : Decision (by_position w1 w2) :=
  Z_le_dec _ _.

(** [SELECT w.*, a... FROM wagons w LEFT JOIN aggregates a ON w.id =
    a.current_wagon_id WHERE w.train_id = $1 ORDER BY w.position]: the wagons
    of the train in the order of their positions (the order among equal
    positions is not determined by the query), each with its aggregates. *)
Definition select_wagons (train : Z) (s : Sequences) (d : FleetDb)
    : option (list (Z * Wagon * option (Z * Aggregate))) * Sequences * FleetDb :=
  (Some (merge_sort by_position
           (map_to_list (filter (λ r, wagon_train_id r.2 = train) (wagons d)))
         ≫= join_aggregates d),
   s, d).

(** [COUNT(w.id)] of the wagons joined to a train. *)
Definition wagon_count (d : FleetDb) (train : Z) : nat :=
  size (filter (λ r : Z * Wagon, wagon_train_id r.2 = train) (wagons d)).

(** [SELECT t.*, COUNT(w.id) ... GROUP BY t.id ORDER BY t.train_number], with
    the WHERE clause as [P]: the rows, keyed by id (the order depends on the
    collation). *)
Definition select_trains (P : Train → Prop) `{∀ t, Decision (P t)} (s : Sequences)
    (d : FleetDb) : option (gmap Z (Train * nat)) * Sequences * FleetDb :=
  (Some (map_imap (λ id t, if decide (P t) then Some (t, wagon_count d id) else None)
           (trains d)),
   s, d).

Definition X31_LAYOUT : list string :=
  ["M43 Hytt"; "M43 Salong"; "T47 Salong"; "M45 Salong"; "M45 Hytt"].

Section Handlers.

Variable fault : nat → bool.

(** The [for] loops over the wagon types: [i] counts from 0, [make] builds
    the row of the [i]-th wagon. *)
Fixpoint insert_wagons (make : nat → string → Wagon) (i : nat) (types : list string)
    : FM unit :=
  match types with
  | [] => fret tt
  | type :: rest =>
      fbind (fquery fault (insert_wagon (make i type)))
            (λ _, insert_wagons make (S i) rest)
  end.

(** The wagon rows of the first routes: number and position are [i + 1]. *)
Definition wagon_v1 (train : Z) (i : nat) (type : string) : Wagon :=
  mkWagon train (JNum (Z.of_nat i + 1)) type (Z.of_nat i + 1) None.

(** The wagon rows of the second admin routes. *)
Definition wagon_v2 (train : Z) (number : string) (i : nat) (type : string) : Wagon :=
  mkWagon train (JStr (number ++ "-" ++ pretty (i + 1)%nat)) type (Z.of_nat i + 1)
          (Some "operational").

(** POST /api/trains, database routes: a train with the five wagons of the X31
    layout. *)
Definition create_train (number name : string) (operator : option string)
    : FM (Answer (Z * Train)) :=
  fbind fconnect (λ _,
  ftry_finally
    (ftry_catch
       (fbind fBEGIN (λ _,
        fbind (fquery fault (insert_train
                 (mkTrain number name (str_or operator "Öresundståg") None "default")))
          (λ train,
        fbind (insert_wagons (wagon_v1 train.1) 0 X31_LAYOUT) (λ _,
        fbind fCOMMIT (λ _,
        fret (Sent train))))))
       (fbind fROLLBACK (λ _, fret (Failed 500 "Failed to create train"))))
    frelease).

(** POST /api/trains/configure, first admin routes.  [wagon_types] is [None]
    when the body has none: reading its length then throws. *)
Definition configure_v1 (u : option User) (number name : string)
    (operator : option string) (wagon_types : option (list string))
    : FM (Answer (Z * Train)) :=
  let tenantId := tenant_of u in
  fbind fconnect (λ _,
  ftry_finally
    (ftry_catch
       (fbind fBEGIN (λ _,
        fbind (fquery fault (insert_train
                 (mkTrain number name (str_or operator "Öresundståg") None tenantId)))
          (λ train,
        fbind (match wagon_types with Some types => fret types | None => fthrow end)
          (λ types,
        fbind (insert_wagons (wagon_v1 train.1) 0 types) (λ _,
        fbind (fquery fault (insert_audit
                 (mkAuditLog tenantId (user_email <$> u) (user_name <$> u)
                    "CREATE" "train" (pretty train.1) None
                    (Some (JObj [("train_number", JStr number);
                                 ("wagon_types", JArr (JStr <$> types))]))
                    ("Created train " ++ number ++ " with " ++ pretty (length types)
                       ++ " wagons"))))
          (λ _,
        fbind fCOMMIT (λ _,
        fret (Sent train))))))))
       (fbind fROLLBACK (λ _, fret (Failed 500 "Failed to create train"))))
    frelease).

(** POST /api/trains/configure, second admin routes. *)
Definition configure_v2 (u : option User) (number name : string)
    (operator : option string) (wagon_types : option (list string))
    : FM (Answer (Z * Train)) :=
  let tenantId := tenant_of u in
  fbind fconnect (λ _,
  ftry_finally
    (ftry_catch
       (fbind fBEGIN (λ _,
        fbind (fquery fault (insert_train
                 (mkTrain number name (str_or operator "Öresundståg")
                    (Some "operational") tenantId)))
          (λ train,
        fbind (match wagon_types with Some types => fret types | None => fthrow end)
          (λ types,
        fbind (insert_wagons (wagon_v2 train.1 number) 0 types) (λ _,
        fbind (fquery fault (insert_audit
                 (mkAuditLog tenantId (user_email <$> u) (user_name <$> u)
                    "CREATE" "train" (pretty train.1) None None
                    ("Created train " ++ number ++ " with " ++ pretty (length types)
                       ++ " wagons"))))
          (λ _,
        fbind fCOMMIT (λ _,
        fret (Sent train))))))))
       (fbind fROLLBACK (λ _, fret (Failed 500 "Failed to configure train"))))
    frelease).

(** GET /api/trains/:id, database routes: the train and its wagon rows. *)
Definition get_train (id : Z)
    : FM (Answer (Train * list (Z * Wagon * option (Z * Aggregate)))) :=
  ftry_catch
    (fbind (fquery fault (select_train id)) (λ trainResult,
     match trainResult with
     | None => fret (Failed 404 "Train not found")
     | Some train =>
         fbind (fquery fault (select_wagons id)) (λ wagonsResult,
         fret (Sent (train, wagonsResult)))
     end))
    (fret (Failed 500 "Failed to fetch train")).

(** GET /api/trains/:id, second admin routes: the train must belong to the
    caller's tenant. *)
Definition get_train_v2 (u : option User) (id : Z)
    : FM (Answer (Train * list (Z * Wagon * option (Z * Aggregate)))) :=
  let tenantId := tenant_of u in
  ftry_catch
    (fbind (fquery fault (select_train_of id tenantId)) (λ trainResult,
     match trainResult with
     | None => fret (Failed 404 "Train not found")
     | Some train =>
         fbind (fquery fault (select_wagons id)) (λ wagonsResult,
         fret (Sent (train, wagonsResult)))
     end))
    (fret (Failed 500 "Failed to fetch train")).

(** GET /api/trains, database routes: every train. *)
Definition list_trains : FM (Answer (gmap Z (Train * nat))) :=
  ftry_catch
    (fbind (fquery fault (select_trains (λ _, True))) (λ result, fret (Sent result)))
    (fret (Failed 500 "Failed to fetch trains")).

(** GET /api/trains, second admin routes: [WHERE t.tenant_id = $1]. *)
Definition list_trains_v2 (u : option User) : FM (Answer (gmap Z (Train * nat))) :=
  let tenantId := tenant_of u in
  ftry_catch
    (fbind (fquery fault (select_trains (λ t, train_tenant_id t = tenantId)))
       (λ result, fret (Sent result)))
    (fret (Failed 500 "Failed to fetch trains")).

(** GET /api/aggregates/:id, database routes: the aggregate joined with its
    wagon and the train of that wagon, then
    [SELECT * FROM sensor_readings WHERE aggregate_id = $1 ORDER BY
    reading_timestamp DESC LIMIT 10].  The INSERT of the readings route gives no
    [reading_timestamp], so the column is taken to be stamped at insertion and
    newest first is the table in reverse. *)
Definition select_aggregate_joined (id : Z) (s : Sequences) (d : FleetDb)
    : option (option (Aggregate * option Wagon * option Train)) * Sequences * FleetDb :=
  (Some (a ← aggregates (core d) !! id;
         let wagon := w ← current_wagon_id a; wagons d !! w in
         let train := w ← wagon; trains d !! wagon_train_id w in
         Some (a, wagon, train)),
   s, d).

Definition select_recent_readings (id : Z) (s : Sequences) (d : FleetDb)
    : option (list SensorReading) * Sequences * FleetDb :=
  (Some (take 10 (reverse (filter (λ r, reading_aggregate_id r = id)
                             (sensor_readings (core d))))),
   s, d).

Definition get_aggregate (id : Z)
    : FM (Answer (Aggregate * option Wagon * option Train * list SensorReading)) :=
  ftry_catch
    (fbind (fquery fault (select_aggregate_joined id)) (λ result,
     match result with
     | None => fret (Failed 404 "Aggregate not found")
     | Some row =>
         fbind (fquery fault (select_recent_readings id)) (λ readingsResult,
         fret (Sent (row, readingsResult)))
     end))
    (fret (Failed 500 "Failed to fetch aggregate")).

End Handlers.

Definition fleet_answer {A} (h : FM A) (s : Sequences) (d : FleetDb) : Outcome A :=
  fst (h (fleet_start s d)).

Definition fleet_world {A} (h : FM A) (s : Sequences) (d : FleetDb) : FleetWorld :=
  snd (h (fleet_start s d)).

Definition fleet_after {A} (h : FM A) (s : Sequences) (d : FleetDb) : FleetDb :=
  fleet_committed (fleet_world h s d).

(** The sequences are ahead of the tables: no id from the next value on is
    in use, as a key or as a reference. *)
Definition ahead (s : Sequences) (d : FleetDb) : Prop :=
  (∀ id, (next_train s ≤ id)%Z → trains d !! id = None)
  ∧ (∀ id, (next_wagon s ≤ id)%Z → wagons d !! id = None)
  ∧ (∀ id w, wagons d !! id = Some w → (wagon_train_id w < next_train s)%Z)
  ∧ (∀ id a wagon, aggregates (core d) !! id = Some a →
       current_wagon_id a = Some wagon → (wagon < next_wagon s)%Z).

(** The wagons a configuration adds: ids from [first] on, rows made by
    [make] from index [i] on. *)
Fixpoint new_wagons (make : nat → string → Wagon) (first : Z) (i : nat)
    (types : list string) : list (Z * Wagon) :=
  match types with
  | [] => []
  | type :: rest => (first, make i type) :: new_wagons make (first + 1) (S i) rest
  end.

Definition add_wagons (rows : list (Z * Wagon)) (m : gmap Z Wagon) : gmap Z Wagon :=
  foldl (λ acc r, <[r.1 := r.2]> acc) m rows.

End Fleet.

(** ** Vocabulary of the train properties *)

Module FleetSpec.
Import Js Store Routes AggregateRoutes Fleet.

(** What the routes that create a train return and leave behind, whatever
    statement fails: the client is released and the transaction closed; the
    answer is the new train, or 500 with trains, wagons and audit trail exactly
    as before. *)
Definition all_or_nothing (h : FM (Answer (Z * Train))) (s : Sequences) (d : FleetDb)
    : Prop :=
  fleet_held (fleet_world h s d) = 0%nat
  ∧ fleet_tx (fleet_world h s d) = None
  ∧ ((∃ train, fleet_answer h s d = Ret (Sent train))
     ∨ ((∃ error, fleet_answer h s d = Ret (Failed 500 error))
        ∧ fleet_after h s d = d)).

(** The wagon rows of the three routes: wagon [i] of train [train] is at
    position [i + 1]. *)
Definition numbered (train : Z) (make : nat → string → Wagon) : Prop :=
  ∀ i type, wagon_train_id (make i type) = train
            ∧ position (make i type) = (Z.of_nat i + 1)%Z
            ∧ wagon_type (make i type) = type.

(** The train rows the configuration routes insert, and their audit row. *)
Definition train_v1 (u : option User) (number name : string) (operator : option string)
    : Train :=
  mkTrain number name (str_or operator "Öresundståg") None (tenant_of u).

Definition train_v2 (u : option User) (number name : string) (operator : option string)
    : Train :=
  mkTrain number name (str_or operator "Öresundståg") (Some "operational") (tenant_of u).

Definition created (u : option User) (number : string) (id : Z) (new_value : option JValue)
    (n : nat) : AuditLog :=
  mkAuditLog (tenant_of u) (user_email <$> u) (user_name <$> u) "CREATE" "train"
    (pretty id) None new_value
    ("Created train " ++ number ++ " with " ++ pretty n ++ " wagons").

(** The wagons a read returns, as (position, type, aggregate). *)
Definition layout_of (rows : list (Z * Wagon * option (Z * Aggregate)))
    : list (Z * string * option (Z * Aggregate)) :=
  (λ r, (position r.1.2, wagon_type r.1.2, r.2)) <$> rows.

Definition expected_layout (types : list string)
    : list (Z * string * option (Z * Aggregate)) :=
  imap (λ k type, (Z.of_nat k + 1, type, None)%Z) types.

End FleetSpec.

(** ** More example data *)

Module MoreExamples.
Import Js Store Routes.

Definition operator_a : User := mkUser "a@example.com" "A" "tenant-a".
Definition operator_b : User := mkUser "b@example.com" "B" "tenant-b".

Definition audit_a : AuditLog :=
  mkAuditLog "tenant-a" (Some "a@example.com") (Some "A") "CREATE" "train" "1"
    None None "Created train X31-1 with 5 wagons".

Definition audit_b : AuditLog :=
  mkAuditLog "tenant-b" (Some "b@example.com") (Some "B") "CREATE" "train" "2"
    None None "Created train X31-2 with 5 wagons".

(** The example fleet with an audit trail of two tenants. *)
Definition audited_fleet : Db :=
  mkDb (aggregates Examples.fleet) [] [] [audit_a; audit_b; audit_a] []
       (tenants Examples.fleet) ∅.

(** An aggregate flagged spare while on wagon 7, as assign leaves a spare. *)
Definition flagged_on_wagon : Db :=
  mkDb (<[20%Z := mkAggregate "AGG-20" "maintenance" (Some 7%Z) true None None]> ∅)
       [] [] [] [] ∅ ∅.

End MoreExamples.

(** ** An example depot *)

Module FleetExamples.
Import Js Store Routes Fleet.

(** One train of tenant-a with two wagons; aggregate 10 of the example fleet
    sits on wagon 7. *)
Definition depot : FleetDb :=
  mkFleetDb Examples.fleet
    (<[1%Z := mkTrain "X31-1001" "Old" "Öresundståg" None "tenant-a"]> ∅)
    (<[7%Z := mkWagon 1 (JNum 1) "M43 Hytt" 1 None]>
       (<[8%Z := mkWagon 1 (JNum 2) "M43 Salong" 2 None]> ∅)).

Definition depot_sequences : Sequences := mkSequences 2 9.

End FleetExamples.

(** * Properties *)

(** ** Tenant resolution *)

Module TenantMappingFacts.
Import Js TenantMapping.

Lemma find_azure_None (tm : list TenantMapping) (azure : string) :
  azure ∉ azureTenantId <$> tm →
  List.find (fun m => String.eqb (azureTenantId m) azure) tm = None.
Proof.
  induction tm as [|m tm IH]; simpl; intros Hnot; [reflexivity|].
  apply not_elem_of_cons in Hnot as [Hne Hrest].
  destruct (String.eqb_spec (azureTenantId m) azure) as [Heq|_].
  - congruence.
  - apply IH, Hrest.
Qed.

Lemma getDbTenantId_unknown (tm : list TenantMapping) (azure : string) :
  azure ∉ azureTenantId <$> tm → getDbTenantId tm azure = "default".
Proof.
  intros Hnot. unfold getDbTenantId. rewrite find_azure_None; auto.
Qed.

Lemma getDbTenantId_known (tm : list TenantMapping) (azure : string) :
  azure ∈ azureTenantId <$> tm →
  ∃ m, m ∈ tm ∧ azureTenantId m = azure ∧ getDbTenantId tm azure = dbTenantId m.
Proof.
  induction tm as [|m tm IH]; simpl; intros Hin.
  - inversion Hin.
  - unfold getDbTenantId. simpl.
    destruct (String.eqb_spec (azureTenantId m) azure) as [Heq|Hne].
    + exists m. split; [left|auto].
    + apply elem_of_cons in Hin as [Heq|Hin]; [congruence|].
      destruct (IH Hin) as (m' & Hm' & Hkey & Hres).
      exists m'. split; [right; exact Hm'|]. split; [exact Hkey|exact Hres].
Qed.

Lemma str_or_nonempty (r d : string) : r ≠ "" → str_or (Some r) d = r.
Proof.
  intros Hne. unfold str_or.
  destruct (String.eqb_spec r "") as [Heq|_]; [contradiction|reflexivity].
Qed.

Example super_admin_any_case :
  isTechvanaSuperAdmin "Elias-Chahoud@Hotmail.COM" = true
  ∧ isTechvanaSuperAdmin "dev@techra.app" = false.
Proof. split; reflexivity. Qed.

(** C4, as the spec words it, fails for the empty requested tenant id: the
    super-admin branch is [requestedTenantId || 'default'], and the empty
    string is falsy. *)
Lemma resolve_empty_request_counterexample :
  isTechvanaSuperAdmin "elias-chahoud@hotmail.com" = true
  ∧ getTenantIdForUser DEFAULT_TENANT_MAPPINGS "elias-chahoud@hotmail.com"
      "71416bf2-04a4-4715-a8d2-6af239168e20" (Some "") = "default"
  ∧ "default" ≠ "".
Proof. repeat split; discriminate. Qed.

(** C4 (amended).  For an e-mail that is not a super-admin and an external
    tenant id absent from the mapping table, [getTenantIdForUser] returns
    ["default"], whatever tenant was requested (the function is total: it
    does not throw).  For a super-admin e-mail it returns the requested
    tenant id when that is a non-empty string, whatever the mapping table
    holds, and ["default"] when no tenant (or the empty string) is
    requested. *)
Theorem resolve_tenant (tm : list TenantMapping) (email azure : string) :
  (isTechvanaSuperAdmin email = false →
   azure ∉ azureTenantId <$> tm →
   ∀ requested, getTenantIdForUser tm email azure requested = "default")
  ∧ (isTechvanaSuperAdmin email = true →
     (∀ requested, requested ≠ "" →
        getTenantIdForUser tm email azure (Some requested) = requested)
     ∧ getTenantIdForUser tm email azure None = "default"
     ∧ getTenantIdForUser tm email azure (Some "") = "default").
Proof.
  unfold getTenantIdForUser. split.
  - intros Hadmin Hnot requested. rewrite Hadmin.
    apply getDbTenantId_unknown, Hnot.
  - intros Hadmin. rewrite Hadmin. split; [|split; reflexivity].
    intros requested Hne. apply str_or_nonempty, Hne.
Qed.

Lemma resolve_tenant_witness :
  getTenantIdForUser DEFAULT_TENANT_MAPPINGS "driver@example.com"
    "00000000-0000-0000-0000-000000000000" (Some "tenantX") = "default"
  ∧ getTenantIdForUser DEFAULT_TENANT_MAPPINGS "Elias-Chahoud@hotmail.com"
      "00000000-0000-0000-0000-000000000000" (Some "tenantX") = "tenantX".
Proof.
  split.
  - apply (proj1 (resolve_tenant DEFAULT_TENANT_MAPPINGS "driver@example.com"
                    "00000000-0000-0000-0000-000000000000")).
    + reflexivity.
    + intros Hin. apply list_elem_of_singleton in Hin. discriminate Hin.
  - apply (proj2 (resolve_tenant DEFAULT_TENANT_MAPPINGS "Elias-Chahoud@hotmail.com"
                    "00000000-0000-0000-0000-000000000000")).
    + reflexivity.
    + discriminate.
Defined.

(** A known external id maps to the internal id of its first entry. *)
Lemma resolve_known_tenant (tm : list TenantMapping) (email azure : string) :
  isTechvanaSuperAdmin email = false →
  azure ∈ azureTenantId <$> tm →
  ∃ m, m ∈ tm ∧ azureTenantId m = azure
       ∧ ∀ requested, getTenantIdForUser tm email azure requested = dbTenantId m.
Proof.
  intros Hadmin Hin. destruct (getDbTenantId_known tm azure Hin) as (m & Hm & Hk & Hr).
  exists m. split; [exact Hm|]. split; [exact Hk|].
  intros requested. unfold getTenantIdForUser. rewrite Hadmin. exact Hr.
Qed.

(** [addTenantMapping] makes the lookup of the added external id return the
    added internal id. *)
Lemma findIndex_Some (azure : string) (tm : list TenantMapping) (i : nat) :
  findIndex azure tm = Some i →
  ∃ m, tm !! i = Some m ∧ azureTenantId m = azure
       ∧ List.find (fun m => String.eqb (azureTenantId m) azure) (take i tm) = None.
Proof.
  revert i. induction tm as [|m tm IH]; simpl; intros i Hfind; [discriminate|].
  destruct (String.eqb_spec (azureTenantId m) azure) as [Heq|Hne].
  - injection Hfind as <-. exists m. simpl. auto.
  - destruct (findIndex azure tm) as [j|] eqn:Hj; [|discriminate].
    simpl in Hfind. injection Hfind as <-.
    destruct (IH j eq_refl) as (m' & Hlook & Hkey & Hbefore).
    exists m'. simpl. split; [exact Hlook|]. split; [exact Hkey|].
    destruct (String.eqb_spec (azureTenantId m) azure); [contradiction|exact Hbefore].
Qed.

Lemma findIndex_None (azure : string) (tm : list TenantMapping) :
  findIndex azure tm = None →
  List.find (fun m => String.eqb (azureTenantId m) azure) tm = None.
Proof.
  induction tm as [|m tm IH]; simpl; intros Hfind; [reflexivity|].
  destruct (String.eqb (azureTenantId m) azure); [discriminate|].
  destruct (findIndex azure tm); [discriminate|]. apply IH. reflexivity.
Qed.

Lemma find_app_None {A} (p : A → bool) (l1 l2 : list A) :
  List.find p l1 = None → List.find p (l1 ++ l2) = List.find p l2.
Proof.
  induction l1 as [|x l1 IH]; simpl; intros H; [reflexivity|].
  destruct (p x); [discriminate|]. apply IH, H.
Qed.

(** After [addTenantMapping], the added external id resolves to the added
    tenant, whether the id was in the table before or not. *)
Lemma getDbTenantId_after_add (tm : list TenantMapping) (mapping : TenantMapping) :
  getDbTenantId (addTenantMapping tm mapping) (azureTenantId mapping)
  = dbTenantId mapping.
Proof.
  unfold addTenantMapping, getDbTenantId.
  destruct (findIndex (azureTenantId mapping) tm) as [i|] eqn:Hidx.
  - destruct (findIndex_Some _ _ _ Hidx) as (m & Hlook & _ & Hbefore).
    rewrite insert_take_drop by (eapply lookup_lt_Some; exact Hlook).
    rewrite find_app_None by exact Hbefore. simpl.
    rewrite String.eqb_refl. reflexivity.
  - rewrite find_app_None by (apply findIndex_None; exact Hidx). simpl.
    rewrite String.eqb_refl. reflexivity.
Qed.

End TenantMappingFacts.

(** ** Authentication hook and chat endpoint *)

Module ServerFacts.
Import Js Server.

Section AuthenticateFacts.

Variable base64_utf8 : string → string.
Variable JSON_parse : string → option JValue.
Variable config_tenantId : string.

Abbreviation authenticate := (authenticate base64_utf8 JSON_parse config_tenantId).
Abbreviation user_of_token := (user_of_token base64_utf8 JSON_parse config_tenantId).
Abbreviation development_user := (development_user config_tenantId).

Lemma get_prop_None (v : JValue) (k : string) :
  get_prop v k = None ↔ v = JNull.
Proof. destruct v; simpl; split; intros H; congruence. Qed.

Lemma get_prop_member (payload : JValue) (k : string) :
  payload ≠ JNull → get_prop payload k = Some (ServerSpec.member payload k).
Proof. destruct payload; simpl; congruence. Qed.

Lemma or_value_first_truthy (a : option JValue) (rest : list (option JValue))
    (d : JValue) :
  or_value a (ServerSpec.first_truthy rest d) = ServerSpec.first_truthy (a :: rest) d.
Proof. destruct a; reflexivity. Qed.

Lemma first_truthy_truthy (candidates : list (option JValue)) (d : JValue) :
  truthy d = true → truthy (ServerSpec.first_truthy candidates d) = true.
Proof.
  intros Hd. induction candidates as [|[v|] rest IH]; simpl; try assumption.
  destruct (truthy v) eqn:Hv; assumption.
Qed.

Lemma user_of_token_None (token : string) :
  user_of_token token = None ↔
  split_on "." token !! 1%nat = None
  ∨ ∃ segment, split_on "." token !! 1%nat = Some segment
      ∧ (JSON_parse (base64_utf8 segment) = None
         ∨ JSON_parse (base64_utf8 segment) = Some JNull).
Proof.
  unfold Server.user_of_token.
  destruct (split_on "." token !! 1%nat) as [segment|]; simpl.
  - destruct (JSON_parse (base64_utf8 segment)) as [payload|] eqn:Hparse; simpl.
    + assert (Hnull : payload = JNull ∨ payload ≠ JNull)
        by (destruct payload; auto; right; discriminate).
      destruct Hnull as [->|Hne].
      * simpl. split; [|reflexivity]. intros _. right. exists segment.
        split; [reflexivity|right; exact Hparse].
      * split.
        -- destruct payload; simpl; try discriminate. contradiction.
        -- intros [H|(s' & [= <-] & [H|H])]; [discriminate| |]; congruence.
    + split; [|reflexivity]. intros _. right. exists segment.
      split; [reflexivity|left; exact Hparse].
  - split; [intros _; left; reflexivity|reflexivity].
Qed.

Lemma user_of_token_Some (token segment : string) (payload : JValue) :
  split_on "." token !! 1%nat = Some segment →
  JSON_parse (base64_utf8 segment) = Some payload →
  payload ≠ JNull →
  user_of_token token = Some (ServerSpec.identity_of config_tenantId payload).
Proof.
  intros Hseg Hparse Hne. unfold Server.user_of_token.
  rewrite Hseg. simpl. rewrite Hparse. simpl.
  rewrite !(get_prop_member payload _ Hne). simpl.
  unfold ServerSpec.identity_of. simpl.
  repeat match goal with
  | |- context [ServerSpec.member payload ?k] =>
      destruct (ServerSpec.member payload k) as [?|]; simpl
  end;
  repeat match goal with
  | |- context [truthy ?v] => destruct (truthy v); simpl
  end; reflexivity.
Qed.

(** The [try] block of the hook throws, so that the development user is
    installed, exactly when the token has no second dot-separated segment,
    when JSON.parse rejects the decoded segment, or when the payload is
    [null].  Every other payload yields the user built from its members and
    the defaults: for each field the first member that is there and truthy
    (upn, then email, then preferred_username for the email), and the default
    when there is none.  So no field of that user is falsy, when the
    configured tenant id is not empty. *)
Theorem user_of_token_outcome (token : string) :
  (user_of_token token = None ↔
   split_on "." token !! 1%nat = None
   ∨ ∃ segment, split_on "." token !! 1%nat = Some segment
       ∧ (JSON_parse (base64_utf8 segment) = None
          ∨ JSON_parse (base64_utf8 segment) = Some JNull))
  ∧ (∀ user,
       user_of_token token = Some user ↔
       ∃ segment payload,
         split_on "." token !! 1%nat = Some segment
         ∧ JSON_parse (base64_utf8 segment) = Some payload
         ∧ payload ≠ JNull
         ∧ user = ServerSpec.identity_of config_tenantId payload)
  ∧ (∀ user,
       user_of_token token = Some user →
       truthy (email user) = true
       ∧ truthy (name user) = true
       ∧ truthy (objectId user) = true
       ∧ truthy (groups user) = true
       ∧ (config_tenantId ≠ "" → truthy (tenantId user) = true)).
Proof.
  assert (Hsome : ∀ user,
            user_of_token token = Some user ↔
            ∃ segment payload,
              split_on "." token !! 1%nat = Some segment
              ∧ JSON_parse (base64_utf8 segment) = Some payload
              ∧ payload ≠ JNull
              ∧ user = ServerSpec.identity_of config_tenantId payload).
  { intros user. split.
    - intros Huser.
      destruct (split_on "." token !! 1%nat) as [segment|] eqn:Hseg.
      + destruct (JSON_parse (base64_utf8 segment)) as [payload|] eqn:Hparse.
        * assert (Hnull : payload = JNull ∨ payload ≠ JNull)
            by (destruct payload; auto; right; discriminate).
          destruct Hnull as [->|Hne].
          -- assert (Hnone : user_of_token token = None).
             { apply user_of_token_None. right. exists segment. auto. }
             congruence.
          -- exists segment, payload. repeat split; try assumption.
             rewrite (user_of_token_Some token segment payload Hseg Hparse Hne) in Huser.
             congruence.
        * assert (Hnone : user_of_token token = None).
          { apply user_of_token_None. right. exists segment. auto. }
          congruence.
      + assert (Hnone : user_of_token token = None)
          by (apply user_of_token_None; left; exact Hseg).
        congruence.
    - intros (segment & payload & Hseg & Hparse & Hne & ->).
      apply (user_of_token_Some token segment payload Hseg Hparse Hne). }
  split; [apply user_of_token_None|]. split; [exact Hsome|].
  intros user Huser. apply Hsome in Huser as (segment & payload & _ & _ & _ & ->).
  unfold ServerSpec.identity_of. cbn [email name objectId groups tenantId].
  split; [|split; [|split; [|split]]]; try (apply first_truthy_truthy; reflexivity).
  intros Hne. apply first_truthy_truthy. simpl.
  destruct (String.eqb_spec config_tenantId ""); [contradiction|reflexivity].
Qed.

(** C9.  The hook answers 401 exactly when the Authorization header is absent
    or does not start with ["Bearer "], and it never answers another status.
    A header with the prefix is always let through: when decoding or parsing
    the token throws, the fixed development user is installed. *)
Theorem authenticate_rejects_iff_no_bearer (authorization : option string) :
  ((∃ error, authenticate authorization = Rejected 401 error) ↔
   (authorization = None
    ∨ ∃ authHeader, authorization = Some authHeader
        ∧ String.prefix "Bearer " authHeader = false))
  ∧ (∀ code error, authenticate authorization = Rejected code error → code = 401%nat)
  ∧ (∀ authHeader, authorization = Some authHeader →
       String.prefix "Bearer " authHeader = true →
       (∃ user, authenticate authorization = Authenticated user)
       ∧ (user_of_token (substring_from 7 authHeader) = None →
          authenticate authorization = Authenticated development_user)).
Proof.
  unfold Server.authenticate. split; [split|split].
  - intros [error Hrej]. destruct authorization as [h|]; [|left; reflexivity].
    right. exists h. split; [reflexivity|].
    destruct (String.prefix "Bearer " h); [|reflexivity].
    destruct (user_of_token (substring_from 7 h)); discriminate.
  - intros [->|(h & -> & Hprefix)].
    + eexists; reflexivity.
    + rewrite Hprefix. eexists; reflexivity.
  - intros code error. destruct authorization as [h|].
    + destruct (String.prefix "Bearer " h).
      * destruct (user_of_token (substring_from 7 h)); discriminate.
      * intros [= <- _]. reflexivity.
    + intros [= <- _]. reflexivity.
  - intros h -> Hprefix. rewrite Hprefix. split.
    + destruct (user_of_token (substring_from 7 h)); eexists; reflexivity.
    + intros ->. reflexivity.
Qed.

End AuthenticateFacts.

Example authenticate_examples :
  authenticate id Examples.toy_parse "tid-0" None = Rejected 401 "Authentication required"
  ∧ authenticate id Examples.toy_parse "tid-0" (Some "Basic abc") = Rejected 401 "Authentication required"
  ∧ authenticate id Examples.toy_parse "tid-0" (Some "Bearer garbage")
    = Authenticated (development_user "tid-0")
  ∧ authenticate id Examples.toy_parse "tid-0" (Some "Bearer a.null.c")
    = Authenticated (development_user "tid-0")
  ∧ authenticate id Examples.toy_parse "tid-0" (Some "Bearer a.{}.c")
    = Authenticated (mkUserInfo (JStr "test@techra.app") (JStr "Test User")
                       (JStr "tid-0") (JStr "test-123") (JArr [JStr SUPERVISOR_GROUP])).
Proof. repeat split. Qed.

(** *** Chat *)

Lemma searchDocuments_unavailable (searchClient : option SearchClient)
    (query : option JValue) (top : nat) :
  (searchClient = None ∨ ∃ client, searchClient = Some client ∧ client query top = None) →
  searchDocuments searchClient query top = [].
Proof.
  intros [->|(client & -> & Hthrow)]; simpl; [reflexivity|].
  rewrite Hthrow. reflexivity.
Qed.

Lemma destructure_None (body : option JValue) :
  destructure body = None ↔ ServerSpec.no_body body.
Proof.
  unfold destructure, ServerSpec.no_body. destruct body as [b|]; simpl.
  - destruct b; simpl; split; intros H; try discriminate;
      try (destruct H as [H|H]; discriminate); auto.
  - split; auto.
Qed.

Lemma not_iterable_cases (v : JValue) :
  ServerSpec.not_iterable v ↔
  match v with
  | JArr _ | JStr _ => False
  | _ => True
  end.
Proof.
  unfold ServerSpec.not_iterable. destruct v; split; try (intros _; exact I).
  all: try (intros _; split; intros; discriminate).
  - intros [_ H]. exact (H _ eq_refl).
  - intros [].
  - intros [H _]. exact (H _ eq_refl).
  - intros [].
Qed.

Lemma role_name_None (groups : JValue) :
  role_name groups = None ↔ ServerSpec.not_iterable groups.
Proof.
  rewrite not_iterable_cases. unfold role_name, includes.
  destruct groups; simpl; split; intros H; try discriminate; try exact I;
    try contradiction; try reflexivity.
  - destruct (contains _ _); [discriminate|]. simpl in H.
    destruct (contains _ _); discriminate.
  - destruct (existsb _ _); [discriminate|]. simpl in H.
    destruct (existsb _ _); discriminate.
Qed.

Lemma history_messages_None (conversation_history : JValue) :
  history_messages conversation_history = None ↔ ServerSpec.no_map conversation_history.
Proof.
  unfold history_messages, ServerSpec.no_map.
  destruct conversation_history as [| | | |items|];
    try (split; [intros _; left; intros; discriminate|reflexivity]).
  split.
  - intros Hnone. right. exists items. split; [reflexivity|].
    induction items as [|item items IH]; [discriminate|].
    cbn [mapM] in Hnone.
    destruct item; simpl in Hnone;
      try (destruct (mapM _ items); [discriminate|];
           apply elem_of_cons; right; apply IH; reflexivity).
    apply elem_of_cons. left. reflexivity.
  - intros [Hno|(items' & [= <-] & Hin)]; [exfalso; exact (Hno _ eq_refl)|].
    induction items as [|item items IH]; [inversion Hin|].
    cbn [mapM]. apply elem_of_cons in Hin as [<-|Hin]; [reflexivity|].
    rewrite (IH Hin). destruct item; reflexivity.
Qed.

Section ChatFacts.

Variable to_text : option JValue → string.
Variable code_points : string → list string.

Abbreviation chat := (chat to_text code_points).
Abbreviation prompt_of := (prompt_of to_text).
Abbreviation spread := (spread code_points).
Abbreviation mock_response := (mock_response to_text).
Abbreviation chat_throws := (ServerSpec.chat_throws to_text).

Lemma spread_None (v : JValue) : spread v = None ↔ ServerSpec.not_iterable v.
Proof.
  rewrite not_iterable_cases.
  destruct v; simpl; split; intros H; try discriminate; try exact I;
    try contradiction; reflexivity.
Qed.

Lemma prompt_of_None (user : UserInfo) (context : string) (message : option JValue)
    (conversation_history : JValue) :
  prompt_of user context message conversation_history = None ↔
  ServerSpec.not_iterable (groups user) ∨ ServerSpec.no_map conversation_history.
Proof.
  unfold Server.prompt_of, system_prompt.
  rewrite <- role_name_None, <- history_messages_None.
  destruct (role_name (groups user)); simpl.
  - destruct (history_messages conversation_history); simpl; split.
    + discriminate.
    + intros [H|H]; discriminate.
    + auto.
    + reflexivity.
  - split; [auto|reflexivity].
Qed.

(** The handler throws in the cases of [chat_throws], and in no other. *)
Lemma chat_failed_iff (searchClient : option SearchClient)
    (openAIClient : option OpenAIClient) (user : UserInfo) (body : option JValue) :
  (∃ code error, chat searchClient openAIClient user body = ChatFailed code error) ↔
  chat_throws searchClient openAIClient user body.
Proof.
  unfold Server.chat, ServerSpec.chat_throws, ServerSpec.context_of.
  destruct (destructure body) as [[message history]|] eqn:Hbody.
  - assert (Hnot : ¬ ServerSpec.no_body body)
      by (rewrite <- destructure_None, Hbody; discriminate).
    destruct (build_context (searchDocuments searchClient message 3))
      as [context srcs] eqn:Hctx. simpl.
    destruct openAIClient as [client|].
    + destruct (prompt_of user context message history) as [messages|] eqn:Hprompt;
        simpl.
      * destruct (client messages) as [completion|] eqn:Hcall; simpl.
        -- destruct (spread history) as [entries|] eqn:Hspread.
           ++ split; [intros (c & e & H); discriminate|].
              intros [Hno|(m & h & [= <- <-] & Hcause)]; [contradiction|].
              destruct Hcause as [Hiter|(client' & [= <-] & Hcause)].
              { apply spread_None in Hiter. congruence. }
              destruct Hcause as [Hg|[Hm|(messages' & Hp & Hc)]].
              ** assert (prompt_of user context message history = None)
                   by (apply prompt_of_None; auto). congruence.
              ** assert (prompt_of user context message history = None)
                   by (apply prompt_of_None; auto). congruence.
              ** rewrite Hctx in Hp. simpl in Hp. congruence.
           ++ split; [|intros _; eexists _, _; reflexivity].
              intros _. right. exists message, history. split; [reflexivity|].
              left. apply spread_None. exact Hspread.
        -- split; [|intros _; eexists _, _; reflexivity].
           intros _. right. exists message, history. split; [reflexivity|].
           right. exists client. split; [reflexivity|]. right. right.
           exists messages. rewrite Hctx. auto.
      * split; [|intros _; eexists _, _; reflexivity].
        intros _. right. exists message, history. split; [reflexivity|].
        right. exists client. split; [reflexivity|].
        apply prompt_of_None in Hprompt as [Hg|Hm]; auto.
    + destruct (spread history) as [entries|] eqn:Hspread.
      * split; [intros (c & e & H); discriminate|].
        intros [Hno|(m & h & [= <- <-] & Hcause)]; [contradiction|].
        destruct Hcause as [Hiter|(client' & Hclient & _)]; [|discriminate].
        apply spread_None in Hiter. congruence.
      * split; [|intros _; eexists _, _; reflexivity].
        intros _. right. exists message, history. split; [reflexivity|].
        left. apply spread_None. exact Hspread.
  - split; [|intros _; eexists _, _; reflexivity].
    intros _. left. apply destructure_None. exact Hbody.
Qed.

Lemma chat_failed_code (searchClient : option SearchClient)
    (openAIClient : option OpenAIClient) (user : UserInfo) (body : option JValue)
    (code : nat) (error : string) :
  chat searchClient openAIClient user body = ChatFailed code error → code = 500%nat.
Proof.
  unfold Server.chat.
  destruct (destructure body) as [[message history]|]; [|intros [= <- _]; reflexivity].
  destruct (build_context _) as [context srcs].
  destruct (match openAIClient with Some _ => _ | None => _ end);
    [|intros [= <- _]; reflexivity].
  destruct (spread history); [discriminate|intros [= <- _]; reflexivity].
Qed.



End ChatFacts.



Example chat_mock_example :
  chat Examples.toy_text Examples.toy_code_points None None Examples.test_user
       (Some (JObj [("message", JStr "hello");
                    ("conversation_history",
                     JArr [entry "user" (Some (JStr "hi"));
                           entry "assistant" (Some (JStr "Hi!"))])]))
  = ChatOk (mkChatResponse (Some (JStr "hello"))
              (mock_response Examples.toy_text (Some (JStr "hello")) 0) []
              [entry "user" (Some (JStr "hi")); entry "assistant" (Some (JStr "Hi!"));
               entry "user" (Some (JStr "hello"));
               entry "assistant"
                 (Some (JStr (mock_response Examples.toy_text (Some (JStr "hello")) 0)))]).
Proof. reflexivity. Qed.

(** Requests that throw by themselves: a [null] history is answered 500 also
    when no collaborator is configured; a history given as a string is
    answered without a completion client, character by character, and 500
    with one. *)
Example chat_malformed_examples :
  chat Examples.toy_text Examples.toy_code_points None None Examples.test_user
       (Some (JObj [("message", JStr "hello"); ("conversation_history", JNull)]))
  = ChatFailed 500 "Chat processing failed"
  ∧ chat Examples.toy_text Examples.toy_code_points None None Examples.test_user None
    = ChatFailed 500 "Chat processing failed"
  ∧ chat Examples.toy_text Examples.toy_code_points None (Some (λ _, Some (Some "ok")))
         Examples.test_user
         (Some (JObj [("message", JStr "hello"); ("conversation_history", JStr "ab")]))
    = ChatFailed 500 "Chat processing failed"
  ∧ chat Examples.toy_text Examples.toy_code_points None (Some (λ _, Some (Some "ok")))
         (mkUserInfo (JStr "a@b.c") (JStr "A") (JStr "t") (JStr "o") (JNum 7))
         (Examples.ask "hello")
    = ChatFailed 500 "Chat processing failed".
Proof. repeat split. Qed.

End ServerFacts.

(** ** Aggregate lifecycle routes *)

Module LifecycleFacts.
Import Js Store Routes LifecycleSpec.

(** Running a handler symbolically: unfold the monad, then split on the
    faults the plan may raise. *)
Ltac exec :=
  unfold status_of, db_after, world_after, run, start,
    try_finally, try_catch, connect, release, BEGIN, COMMIT, ROLLBACK, query,
    query_checked, throw,
    mbind, mret, M_bind, M_ret, committed, no_fault, fault_at; simpl.

Ltac fault_cases :=
  repeat match goal with
  | |- context [if ?fault ?n then _ else _] => destruct (fault n) eqn:?; simpl
  end.

(** *** Rows of the altered table *)

Lemma invariant_rows (d : Db) : invariant d ↔ rows_ok (aggregates d).
Proof. reflexivity. Qed.

Lemma rows_ok_alter (m : gmap Z Aggregate) (f : Aggregate → Aggregate) (id : Z) :
  rows_ok m →
  (∀ a, m !! id = Some a → attached_xor_spare (f a)) →
  rows_ok (alter f id m).
Proof.
  intros Hinv Hf id' a'.
  destruct (decide (id = id')) as [<-|Hne].
  - rewrite lookup_alter_eq. destruct (m !! id) as [a|] eqn:Ha; [|discriminate].
    simpl. intros [= <-]. apply Hf. reflexivity.
  - rewrite lookup_alter_ne by exact Hne. apply Hinv.
Qed.

Lemma detached_ok (sp : bool) (st : string) (a : Aggregate) :
  attached_xor_spare (set_wagon_spare_status None sp st a).
Proof. split; simpl; [congruence|reflexivity]. Qed.

Lemma not_spare_ok (w : option Z) (st : string) (a : Aggregate) :
  attached_xor_spare (set_wagon_spare_status w false st a).
Proof. split; simpl; [reflexivity|discriminate]. Qed.

Lemma reserve_ok (st : string) (a : Aggregate) :
  attached_xor_spare (set_wagon_status None st a).
Proof. split; simpl; [congruence|reflexivity]. Qed.

Lemma set_wagon_ok (w : option Z) (a : Aggregate) :
  (w ≠ None → is_spare a = false) → attached_xor_spare (set_wagon w a).
Proof.
  intros Hsp. split; simpl.
  - exact Hsp.
  - intros Htrue. destruct w as [n|]; [|reflexivity].
    rewrite Hsp in Htrue by discriminate. discriminate.
Qed.

Lemma set_wagon_status_ok (w : option Z) (st : string) (a : Aggregate) :
  (w ≠ None → is_spare a = false) → attached_xor_spare (set_wagon_status w st a).
Proof.
  intros Hsp. split; simpl.
  - exact Hsp.
  - intros Htrue. destruct w as [n|]; [|reflexivity].
    rewrite Hsp in Htrue by discriminate. discriminate.
Qed.

(** *** Connection and transaction discipline *)

Lemma assign_disciplined fault id wagon_id d :
  disciplined (assign fault id wagon_id) d.
Proof.
  unfold disciplined, assign. exec. fault_cases; auto.
  all: destruct (aggregates d !! id); simpl; fault_cases; auto.
Qed.

Lemma replace_v1_disciplined fault u old new reason d :
  disciplined (replace_v1 fault u old new reason) d.
Proof.
  unfold disciplined, replace_v1. exec. fault_cases; auto.
  all: destruct (aggregates d !! old); simpl; fault_cases; auto.
Qed.

Lemma replace_v2_disciplined fault u old new reason d :
  disciplined (replace_v2 fault u old new reason) d.
Proof.
  unfold disciplined, replace_v2. exec. fault_cases; auto.
  all: destruct (aggregates d !! old); simpl; fault_cases; auto.
Qed.

Lemma replace_cars_disciplined fault old new car_id d :
  disciplined (replace_cars fault old new car_id) d.
Proof. unfold disciplined, replace_cars. exec. fault_cases; auto. Qed.

Lemma swap_disciplined fault id target d :
  disciplined (swap fault id target) d.
Proof.
  unfold disciplined, swap. exec. fault_cases; auto.
  all: destruct (aggregates d !! id); simpl;
    destruct (aggregates d !! target); simpl; fault_cases; auto.
Qed.

Lemma put_configuration_v1_disciplined fault u id b d :
  disciplined (put_configuration_v1 fault u id b) d.
Proof.
  unfold disciplined, put_configuration_v1. exec. fault_cases; auto.
  all: destruct (upsert_configuration_v1 b id _) as [[[] d']|]; simpl;
    fault_cases; auto.
Qed.


(** *** Assign *)

Lemma fleet_invariant : invariant Examples.fleet.
Proof.
  intros id a. unfold Examples.fleet. simpl.
  destruct (decide (id = 10%Z)) as [->|H10].
  { rewrite lookup_insert_eq. intros [= <-]. split; [reflexivity|discriminate]. }
  rewrite lookup_insert_ne by congruence.
  destruct (decide (id = 20%Z)) as [->|H20].
  { rewrite lookup_insert_eq. intros [= <-]. split; simpl; [congruence|reflexivity]. }
  rewrite lookup_insert_ne by congruence.
  destruct (decide (id = 30%Z)) as [->|H30].
  { rewrite lookup_insert_eq. intros [= <-]. split; [reflexivity|discriminate]. }
  rewrite lookup_insert_ne by congruence. rewrite lookup_empty. discriminate.
Qed.

(** C7, as stated, fails on a spare aggregate: the UPDATE of the assign
    route sets the wagon reference only, so the spare flag stays set and the
    status stays what it was. *)
Lemma assign_keeps_spare_counterexample :
  status_of (assign no_fault 20 (Given (Some 7%Z))) Examples.fleet = 200%nat
  ∧ aggregates (db_after (assign no_fault 20 (Given (Some 7%Z))) Examples.fleet) !! 20%Z
    = Some (mkAggregate "AGG-20" "maintenance" (Some 7%Z) true None None).
Proof. split; vm_compute; reflexivity. Qed.

(** C7 (amended).  When no statement fails, assigning an existing aggregate
    answers 200 with the updated row; afterwards its wagon reference is the
    requested one (NULL when the body has no wagon_id) while its spare flag,
    status and other columns are as before, no other aggregate has changed,
    and exactly one aggregate_logs row has been appended, which records the
    old wagon id and the wagon_id member of the body (an empty object when
    the body has none).  For an id that does not exist the route answers 404
    and the store is unchanged.  Update and log row are written in one
    transaction: whatever statement fails, the route ends with the
    transaction closed and the client released, and either it answered 200
    with both the update and the log row in place, or it answered another
    status and the store is as it was. *)
Theorem assign_sets_wagon_and_logs (id : Z) (wagon_id : Member) (d : Db) :
  (∀ a, aggregates d !! id = Some a →
     fst (run (assign no_fault id wagon_id) d)
       = Ret (mkReply 200 (BAggregate (set_wagon (param wagon_id) a)))
     ∧ aggregates (db_after (assign no_fault id wagon_id) d)
       = <[id := set_wagon (param wagon_id) a]> (aggregates d)
     ∧ aggregate_logs (db_after (assign no_fault id wagon_id) d)
       = (aggregate_logs d ++ [moved_row id wagon_id a])%list
     ∧ aggregate_replacements (db_after (assign no_fault id wagon_id) d)
       = aggregate_replacements d
     ∧ audit_logs (db_after (assign no_fault id wagon_id) d) = audit_logs d
     ∧ sensor_readings (db_after (assign no_fault id wagon_id) d) = sensor_readings d)
  ∧ (aggregates d !! id = None →
     status_of (assign no_fault id wagon_id) d = 404%nat
     ∧ db_after (assign no_fault id wagon_id) d = d)
  ∧ (∀ fault,
       tx (world_after (assign fault id wagon_id) d) = None
       ∧ held (world_after (assign fault id wagon_id) d) = 0%nat
       ∧ ((status_of (assign fault id wagon_id) d = 200%nat
           ∧ ∃ a, aggregates d !! id = Some a
               ∧ aggregates (db (world_after (assign fault id wagon_id) d))
                 = <[id := set_wagon (param wagon_id) a]> (aggregates d)
               ∧ aggregate_logs (db (world_after (assign fault id wagon_id) d))
                 = (aggregate_logs d ++ [moved_row id wagon_id a])%list)
          ∨ (status_of (assign fault id wagon_id) d ≠ 200%nat
             ∧ db (world_after (assign fault id wagon_id) d) = d))).
Proof.
  assert (Hrows : ∀ a, aggregates d !! id = Some a →
            alter (set_wagon (param wagon_id)) id (aggregates d)
            = <[id := set_wagon (param wagon_id) a]> (aggregates d)).
  { intros a Ha. apply map_eq. intros i. destruct (decide (id = i)) as [<-|Hne].
    - rewrite lookup_alter_eq, lookup_insert_eq, Ha. reflexivity.
    - rewrite lookup_alter_ne, lookup_insert_ne by exact Hne. reflexivity. }
  assert (Hnew : stringify_fields [("wagon_id", member_value wagon_id)]
                 = JObj match wagon_id with
                        | Missing => []
                        | Given v => [("wagon_id", of_id v)]
                        end)
    by (destruct wagon_id; reflexivity).
  split; [|split].
  - intros a Ha. specialize (Hrows a Ha). unfold assign, moved_row. rewrite Hnew.
    exec. rewrite Ha. simpl. split; [reflexivity|]. split; [exact Hrows|repeat split].
  - intros Hnone. unfold assign. exec. rewrite Hnone. simpl. split; reflexivity.
  - intros fault. unfold assign, moved_row. rewrite Hnew. exec.
    destruct (fault 0%nat); simpl;
      [split; [reflexivity|]; split; [reflexivity|]; right; split;
         [discriminate|reflexivity]|].
    destruct (fault 1%nat); simpl;
      [split; [reflexivity|]; split; [reflexivity|]; right; split;
         [discriminate|reflexivity]|].
    destruct (aggregates d !! id) as [a|] eqn:Ha; simpl.
    + destruct (fault 2%nat); simpl;
        [split; [reflexivity|]; split; [reflexivity|]; right; split;
           [discriminate|reflexivity]|].
      split; [reflexivity|]. split; [reflexivity|]. left. split; [reflexivity|].
      exists a. split; [reflexivity|]. split; [apply Hrows; reflexivity|reflexivity].
    + split; [reflexivity|]. split; [reflexivity|]. right. split;
        [discriminate|reflexivity].
Qed.

Lemma assign_sets_wagon_and_logs_witness :
  (fst (run (assign no_fault 30 (Given (Some 9%Z))) Examples.fleet)
     = Ret (mkReply 200 (BAggregate (set_wagon (Some 9%Z) Examples.aggregate_30)))
   ∧ aggregate_logs (db_after (assign no_fault 30 (Given (Some 9%Z))) Examples.fleet)
     = [mkAggregateLog 30 (Some 9%Z) "moved" "Aggregate reassigned to different wagon"
          (Some (JObj [("wagon_id", JNum 8)])) (Some (JObj [("wagon_id", JNum 9)]))]
   ∧ aggregate_logs (db_after (assign no_fault 30 Missing) Examples.fleet)
     = [mkAggregateLog 30 None "moved" "Aggregate reassigned to different wagon"
          (Some (JObj [("wagon_id", JNum 8)])) (Some (JObj []))])
  ∧ status_of (assign no_fault 99 (Given (Some 9%Z))) Examples.fleet = 404%nat.
Proof.
  split.
  - destruct (proj1 (assign_sets_wagon_and_logs 30 (Given (Some 9%Z)) Examples.fleet)
                Examples.aggregate_30 eq_refl) as (Hreply & _ & Hlogs & _).
    destruct (proj1 (assign_sets_wagon_and_logs 30 Missing Examples.fleet)
                Examples.aggregate_30 eq_refl) as (_ & _ & Hlogs' & _).
    split; [exact Hreply|]. rewrite Hlogs, Hlogs'. split; reflexivity.
  - apply (proj1 (proj2 (assign_sets_wagon_and_logs 99 (Given (Some 9%Z))
                           Examples.fleet))).
    reflexivity.
Defined.

(** Whatever statement fails, assign either answers 200 or leaves the store
    untouched, and the log row is never written without the update. *)
Lemma assign_all_or_nothing fault id wagon_id d :
  status_of (assign fault id wagon_id) d = 200%nat
  ∨ db_after (assign fault id wagon_id) d = d.
Proof.
  destruct (assign_disciplined fault id wagon_id d) as (_ & Htx & Hres).
  destruct Hres as [Hok|Hsame]; [left; exact Hok|right].
  unfold db_after, committed. rewrite Htx. exact Hsame.
Qed.

(** *** The attached-xor-spare invariant *)

(** C2, as stated, fails: assigning the spare aggregate 20 to wagon 7 leaves
    it attached and still flagged spare. *)
Lemma assign_breaks_invariant_counterexample :
  invariant Examples.fleet
  ∧ ¬ invariant (db_after (handler no_fault (OpAssign 20 (Given (Some 7%Z)))) Examples.fleet).
Proof.
  split; [exact fleet_invariant|].
  intros Hinv.
  destruct (Hinv 20%Z (mkAggregate "AGG-20" "maintenance" (Some 7%Z) true None None))
    as [Hattached _].
  - vm_compute. reflexivity.
  - simpl in Hattached. assert (true = false) by (apply Hattached; discriminate).
    discriminate.
Qed.

(** Move and swap break it the same way. *)
Example move_swap_break_invariant :
  ¬ invariant (db_after (handler no_fault (OpMove 20 7)) Examples.fleet)
  ∧ ¬ invariant (db_after (handler no_fault (OpSwap 10 20)) Examples.fleet).
Proof.
  split; intros Hinv.
  - destruct (Hinv 20%Z (mkAggregate "AGG-20" "maintenance" (Some 7%Z) true None None))
      as [Hattached _]; [vm_compute; reflexivity|].
    simpl in Hattached. assert (true = false) by (apply Hattached; discriminate).
    discriminate.
  - destruct (Hinv 20%Z (mkAggregate "AGG-20" "maintenance" (Some 7%Z) true None None))
      as [Hattached _]; [vm_compute; reflexivity|].
    simpl in Hattached. assert (true = false) by (apply Hattached; discriminate).
    discriminate.
Qed.

(** C2 (amended).  Unassign and the two admin replace routes preserve the
    invariant on every store, whatever statement fails.  Assign, move, swap
    and the cars-schema replace never write [is_spare]: they preserve the
    invariant when the aggregates that receive a wagon reference are not
    flagged spare beforehand ([attaches_unflagged]). *)
Theorem lifecycle_preserves_invariant (fault : nat → bool) (op : Operation) (d : Db) :
  invariant d →
  attaches_unflagged op d →
  invariant (db_after (handler fault op) d).
Proof.
  intros Hinv Hop. destruct op as [id w|id|id c|u o n r|u o n r|o n c|a b]; simpl in Hop.
  - (* assign *)
    unfold handler, assign. exec. fault_cases; try exact Hinv.
    all: destruct (aggregates d !! id) as [row|] eqn:Hrow; simpl; fault_cases;
      try exact Hinv.
    apply invariant_rows. simpl. apply rows_ok_alter; [exact Hinv|].
    intros a' Ha'. apply set_wagon_ok. intros Hw. rewrite Hrow in Ha'.
    exact (Hop Hw a' Ha').
  - (* unassign *)
    unfold handler, unassign. exec. fault_cases; try exact Hinv.
    assert (Hnew : rows_ok (alter (set_wagon_status None "reserve") id (aggregates d))).
    { apply rows_ok_alter; [exact Hinv|]. intros a' _. apply reserve_ok. }
    destruct (aggregates d !! id); simpl; exact Hnew.
  - (* move *)
    unfold handler, move. exec. fault_cases; try exact Hinv.
    assert (Hnew : rows_ok (alter (set_wagon (Some c)) id (aggregates d))).
    { apply rows_ok_alter; [exact Hinv|]. intros a' Ha'. apply set_wagon_ok.
      intros _. exact (Hop a' Ha'). }
    destruct (aggregates d !! id); simpl; exact Hnew.
  - (* replace, first admin variant *)
    unfold handler, replace_v1. exec. fault_cases; try exact Hinv.
    all: destruct (aggregates d !! o) as [row|] eqn:Hrow; simpl; fault_cases;
      try exact Hinv.
    apply invariant_rows. simpl. apply rows_ok_alter.
    + apply rows_ok_alter; [exact Hinv|]. intros a' _. apply detached_ok.
    + intros a' _. apply not_spare_ok.
  - (* replace, second admin variant *)
    unfold handler, replace_v2. exec. fault_cases; try exact Hinv.
    all: destruct (aggregates d !! o) as [row|] eqn:Hrow; simpl; fault_cases;
      try exact Hinv.
    apply invariant_rows. simpl. apply rows_ok_alter.
    + apply rows_ok_alter; [exact Hinv|]. intros a' _. apply detached_ok.
    + intros a' _. apply not_spare_ok.
  - (* replace, cars schema *)
    unfold handler, replace_cars. exec. fault_cases; try exact Hinv.
    apply invariant_rows. simpl. apply rows_ok_alter.
    + apply rows_ok_alter; [exact Hinv|]. intros a' _. apply reserve_ok.
    + intros a' Ha'. apply set_wagon_status_ok. intros Hc.
      destruct (decide (o = n)) as [<-|Hne].
      * rewrite lookup_alter_eq in Ha'.
        destruct (aggregates d !! o) as [a0|] eqn:Ha0; [|discriminate].
        simpl in Ha'. injection Ha' as <-. simpl. exact (Hop Hc a0 eq_refl).
      * rewrite lookup_alter_ne in Ha' by exact Hne. exact (Hop Hc a' Ha').
  - (* swap *)
    unfold handler, swap. exec. fault_cases; try exact Hinv.
    all: destruct (aggregates d !! a) as [ra|] eqn:Hra; simpl;
      destruct (aggregates d !! b) as [rb|] eqn:Hrb; simpl; fault_cases;
      try exact Hinv.
    destruct (Hop ra rb eq_refl eq_refl) as [Hab Hba].
    apply invariant_rows. simpl. apply rows_ok_alter.
    + apply rows_ok_alter; [exact Hinv|]. intros a' Ha'.
      rewrite Hra in Ha'. injection Ha' as <-. apply set_wagon_ok, Hab.
    + intros a' Ha'. apply set_wagon_ok. intros Hw.
      destruct (decide (a = b)) as [<-|Hne].
      * rewrite lookup_alter_eq, Hra in Ha'. simpl in Ha'. injection Ha' as <-.
        simpl. rewrite Hra in Hrb. injection Hrb as <-. apply Hba, Hw.
      * rewrite lookup_alter_ne in Ha' by exact Hne.
        rewrite Hrb in Ha'. injection Ha' as <-. apply Hba, Hw.
Qed.

Lemma lifecycle_preserves_invariant_witness :
  invariant (db_after (handler no_fault (OpReplaceV1 None 10 20 "fault")) Examples.fleet)
  ∧ invariant (db_after (handler no_fault (OpAssign 30 (Given (Some 9%Z)))) Examples.fleet).
Proof.
  split.
  - apply (lifecycle_preserves_invariant no_fault (OpReplaceV1 None 10 20 "fault")
             Examples.fleet fleet_invariant).
    exact I.
  - apply (lifecycle_preserves_invariant no_fault (OpAssign 30 (Given (Some 9%Z)))
             Examples.fleet fleet_invariant).
    intros _ a. vm_compute. intros [= <-]. reflexivity.
Defined.

(** *** Replace *)

Lemma replace_v1_success u old new reason d o n :
  aggregates d !! old = Some o → aggregates d !! new = Some n → old ≠ new →
  status_of (replace_v1 no_fault u old new reason) d = 200%nat
  ∧ replaced d (db_after (replace_v1 no_fault u old new reason) d) old new o n
      (audit_row_v1 u old new o reason) u reason.
Proof.
  intros Ho Hn Hne. unfold replace_v1, replaced. exec. rewrite Ho. simpl.
  split; [reflexivity|]. repeat split.
  - rewrite lookup_alter_ne by congruence. rewrite lookup_alter_eq, Ho. reflexivity.
  - rewrite lookup_alter_eq. rewrite lookup_alter_ne by exact Hne. rewrite Hn. reflexivity.
  - intros id Hold Hnew. rewrite !lookup_alter_ne by congruence. reflexivity.
Qed.

Lemma replace_v2_success u old new reason d o n :
  aggregates d !! old = Some o → aggregates d !! new = Some n → old ≠ new →
  status_of (replace_v2 no_fault u old new reason) d = 200%nat
  ∧ replaced d (db_after (replace_v2 no_fault u old new reason) d) old new o n
      (audit_row_v2 u old new reason) u reason.
Proof.
  intros Ho Hn Hne. unfold replace_v2, replaced. exec. rewrite Ho. simpl.
  split; [reflexivity|]. repeat split.
  - rewrite lookup_alter_ne by congruence. rewrite lookup_alter_eq, Ho. reflexivity.
  - rewrite lookup_alter_eq. rewrite lookup_alter_ne by exact Hne. rewrite Hn. reflexivity.
  - intros id Hold Hnew. rewrite !lookup_alter_ne by congruence. reflexivity.
Qed.

(** The cars-schema variant: two updates and nothing else. *)
Lemma replace_cars_effect old new car_id d :
  status_of (replace_cars no_fault old new car_id) d = 200%nat
  ∧ db_after (replace_cars no_fault old new car_id) d
    = with_aggregates
        (alter (set_wagon_status car_id "operational") new
           (alter (set_wagon_status None "reserve") old (aggregates d))) d.
Proof. unfold replace_cars. exec. split; reflexivity. Qed.

(** C1, as stated, fails on two of the three replace routes.  With the old
    aggregate 99 absent, the second admin variant answers 500, and the
    cars-schema variant answers 200 after attaching the new aggregate.  With
    the old aggregate 10 on wagon 7, the cars-schema variant leaves it with
    status reserve and its spare flag unset, and writes no replacement or
    audit row. *)
Lemma replace_counterexample :
  aggregates Examples.fleet !! 99%Z = None
  ∧ status_of (replace_v2 no_fault (Some Examples.supervisor) 99 20 "fault") Examples.fleet
    = 500%nat
  ∧ status_of (replace_cars no_fault 99 20 (Some 7%Z)) Examples.fleet = 200%nat
  ∧ aggregates (db_after (replace_cars no_fault 99 20 (Some 7%Z)) Examples.fleet) !! 20%Z
    = Some (mkAggregate "AGG-20" "operational" (Some 7%Z) true None None)
  ∧ aggregates (db_after (replace_cars no_fault 10 20 (Some 7%Z)) Examples.fleet) !! 10%Z
    = Some (mkAggregate "AGG-10" "reserve" None false None None)
  ∧ aggregate_replacements (db_after (replace_cars no_fault 10 20 (Some 7%Z)) Examples.fleet)
    = []
  ∧ audit_logs (db_after (replace_cars no_fault 10 20 (Some 7%Z)) Examples.fleet) = [].
Proof. repeat split; vm_compute; reflexivity. Qed.

(** Replacing an aggregate by itself leaves it attached. *)
Example replace_by_itself :
  aggregates (db_after (replace_v1 no_fault None 10 10 "fault") Examples.fleet) !! 10%Z
  = Some (mkAggregate "AGG-10" "operational" (Some 7%Z) false None None).
Proof. vm_compute. reflexivity. Qed.

(** C1 (amended).  In both admin variants, when no statement fails, the old
    aggregate exists, and the new aggregate exists and is another one: the
    route answers 200; afterwards the old aggregate is detached, flagged spare
    and in maintenance, the new aggregate is on the wagon the old one had, not
    spare and operational, no other aggregate has changed, and exactly one
    aggregate_replacements row (old, new, wagon) and exactly one audit_logs
    row have been appended; the audit row of the first variant names old, new
    and the wagon, that of the second names new and old but not the wagon.
    When the old aggregate does not exist, both variants roll back, whatever
    statement fails: they end with the transaction closed, the client
    released and the store as it was; the first answers 404 (500 when the
    lookup itself fails), the second 500.  The cars-schema variant does not
    look the old aggregate up and writes no row: it sets the old aggregate to
    detached with status reserve and the new one to the car of the request
    with status operational, and answers 200. *)
Theorem replace_effects (u : option User) (old new : Z) (reason : string) (d : Db) :
  (∀ o n, aggregates d !! old = Some o → aggregates d !! new = Some n → old ≠ new →
     (status_of (replace_v1 no_fault u old new reason) d = 200%nat
      ∧ replaced d (db_after (replace_v1 no_fault u old new reason) d) old new o n
          (audit_row_v1 u old new o reason) u reason)
     ∧ (status_of (replace_v2 no_fault u old new reason) d = 200%nat
        ∧ replaced d (db_after (replace_v2 no_fault u old new reason) d) old new o n
            (audit_row_v2 u old new reason) u reason))
  ∧ (aggregates d !! old = None →
     ∀ fault,
       rolled_back (replace_v1 fault u old new reason) d
       ∧ rolled_back (replace_v2 fault u old new reason) d
       ∧ (fault 0%nat = false →
          status_of (replace_v1 fault u old new reason) d = 404%nat)
       ∧ status_of (replace_v2 fault u old new reason) d = 500%nat)
  ∧ (∀ car_id,
       status_of (replace_cars no_fault old new car_id) d = 200%nat
       ∧ db_after (replace_cars no_fault old new car_id) d
         = with_aggregates
             (alter (set_wagon_status car_id "operational") new
                (alter (set_wagon_status None "reserve") old (aggregates d))) d).
Proof.
  split; [|split].
  - intros o n Ho Hn Hne. split.
    + apply replace_v1_success; assumption.
    + apply replace_v2_success; assumption.
  - intros Ho fault. unfold rolled_back, replace_v1, replace_v2. exec.
    destruct (fault 0%nat); simpl; [repeat split; discriminate|].
    rewrite Ho. simpl. repeat split.
  - intros car_id. apply replace_cars_effect.
Qed.

Lemma replace_effects_witness :
  (status_of (replace_v1 no_fault (Some Examples.supervisor) 10 20 "fault") Examples.fleet
     = 200%nat
   ∧ aggregates (db_after (replace_v1 no_fault (Some Examples.supervisor) 10 20 "fault")
                   Examples.fleet) !! 20%Z
     = Some (mkAggregate "AGG-20" "operational" (Some 7%Z) false None None))
  ∧ status_of (replace_v1 no_fault (Some Examples.supervisor) 99 20 "fault") Examples.fleet
    = 404%nat
  ∧ tx (world_after (replace_v1 no_fault (Some Examples.supervisor) 99 20 "fault")
          Examples.fleet) = None.
Proof.
  split.
  - destruct (proj1 (replace_effects (Some Examples.supervisor) 10 20 "fault" Examples.fleet)
                Examples.aggregate_10 Examples.aggregate_20 eq_refl eq_refl)
      as [[Hstatus (_ & Hnew & _)] _]; [discriminate|].
    split; [exact Hstatus|exact Hnew].
  - destruct (proj1 (proj2 (replace_effects (Some Examples.supervisor) 99 20 "fault"
                              Examples.fleet)) eq_refl no_fault)
      as ((Htx & _) & _ & Hstatus & _).
    split; [apply Hstatus; reflexivity|exact Htx].
Defined.

(** *** Swap *)

Lemma swap_run (A B : Z) (a b : Aggregate) (d : Db) :
  aggregates d !! A = Some a → aggregates d !! B = Some b →
  status_of (swap no_fault A B) d = 200%nat
  ∧ db_after (swap no_fault A B) d
    = with_aggregates
        (alter (set_wagon (current_wagon_id a)) B
           (alter (set_wagon (current_wagon_id b)) A (aggregates d))) d.
Proof.
  intros Ha Hb. unfold swap. exec. rewrite Ha, Hb. simpl. split; reflexivity.
Qed.

Lemma swap_lookup_first (A B : Z) (a b : Aggregate) (m : gmap Z Aggregate) :
  m !! A = Some a → m !! B = Some b →
  alter (set_wagon (current_wagon_id a)) B
    (alter (set_wagon (current_wagon_id b)) A m) !! A
  = Some (set_wagon (current_wagon_id b) a).
Proof.
  intros Ha Hb. destruct (decide (A = B)) as [<-|Hne].
  - rewrite !lookup_alter_eq, Ha. simpl.
    rewrite Ha in Hb. injection Hb as <-. reflexivity.
  - rewrite lookup_alter_ne by congruence. rewrite lookup_alter_eq, Ha. reflexivity.
Qed.

Lemma swap_lookup_second (A B : Z) (a b : Aggregate) (m : gmap Z Aggregate) :
  m !! A = Some a → m !! B = Some b →
  alter (set_wagon (current_wagon_id a)) B
    (alter (set_wagon (current_wagon_id b)) A m) !! B
  = Some (set_wagon (current_wagon_id a) b).
Proof.
  intros Ha Hb. destruct (decide (A = B)) as [<-|Hne].
  - rewrite !lookup_alter_eq, Ha. simpl.
    rewrite Ha in Hb. injection Hb as <-. reflexivity.
  - rewrite lookup_alter_eq. rewrite lookup_alter_ne by exact Hne.
    rewrite Hb. reflexivity.
Qed.

Lemma swap_lookup_other (A B id : Z) (w1 w2 : option Z) (m : gmap Z Aggregate) :
  id ≠ A → id ≠ B →
  alter (set_wagon w1) B (alter (set_wagon w2) A m) !! id = m !! id.
Proof. intros HA HB. rewrite !lookup_alter_ne by congruence. reflexivity. Qed.

(** Swapping twice gives the rows back. *)
Lemma swap_twice_rows (A B : Z) (a b : Aggregate) (m : gmap Z Aggregate) :
  m !! A = Some a → m !! B = Some b →
  alter (set_wagon (current_wagon_id b)) B
    (alter (set_wagon (current_wagon_id a)) A
       (alter (set_wagon (current_wagon_id a)) B
          (alter (set_wagon (current_wagon_id b)) A m))) = m.
Proof.
  intros Ha Hb. apply map_eq. intros id.
  destruct (decide (id = B)) as [->|HB].
  - rewrite lookup_alter_eq.
    destruct (decide (A = B)) as [->|Hne].
    + rewrite !lookup_alter_eq, Hb. simpl. destruct b; reflexivity.
    + rewrite lookup_alter_ne by exact Hne. rewrite lookup_alter_eq.
      rewrite lookup_alter_ne by exact Hne. rewrite Hb. simpl.
      destruct b; reflexivity.
  - rewrite lookup_alter_ne by congruence.
    destruct (decide (id = A)) as [->|HA].
    + rewrite lookup_alter_eq. rewrite lookup_alter_ne by congruence.
      rewrite lookup_alter_eq, Ha. simpl. destruct a; reflexivity.
    + rewrite !lookup_alter_ne by congruence. reflexivity.
Qed.

(** C3.  When both aggregates exist and no statement fails, swap answers 200,
    each aggregate ends on the wagon the other had, nothing else changes, and
    a second swap of the same pair restores the store.  When either aggregate
    is missing the answer is 404 and the transaction is rolled back: it is
    closed, the client is released and the store is unchanged, also when a
    statement fails. *)
Theorem swap_exchanges_and_round_trips (A B : Z) (d : Db) :
  (∀ a b, aggregates d !! A = Some a → aggregates d !! B = Some b →
     status_of (swap no_fault A B) d = 200%nat
     ∧ aggregates (db_after (swap no_fault A B) d) !! A
       = Some (set_wagon (current_wagon_id b) a)
     ∧ aggregates (db_after (swap no_fault A B) d) !! B
       = Some (set_wagon (current_wagon_id a) b)
     ∧ (∀ id, id ≠ A → id ≠ B →
          aggregates (db_after (swap no_fault A B) d) !! id = aggregates d !! id)
     ∧ status_of (swap no_fault A B) (db_after (swap no_fault A B) d) = 200%nat
     ∧ db_after (swap no_fault A B) (db_after (swap no_fault A B) d) = d)
  ∧ (aggregates d !! A = None ∨ aggregates d !! B = None →
     status_of (swap no_fault A B) d = 404%nat
     ∧ db_after (swap no_fault A B) d = d
     ∧ ∀ fault, rolled_back (swap fault A B) d).
Proof.
  split.
  - intros a b Ha Hb.
    destruct (swap_run A B a b d Ha Hb) as [Hstatus Hdb].
    pose proof (swap_lookup_first A B a b (aggregates d) Ha Hb) as HA'.
    pose proof (swap_lookup_second A B a b (aggregates d) Ha Hb) as HB'.
    rewrite Hdb. simpl.
    split; [exact Hstatus|]. split; [exact HA'|]. split; [exact HB'|].
    split; [intros id HA HB; apply swap_lookup_other; assumption|].
    set (d1 := with_aggregates _ d).
    destruct (swap_run A B (set_wagon (current_wagon_id b) a)
                (set_wagon (current_wagon_id a) b) d1 HA' HB') as [Hstatus2 Hdb2].
    split; [exact Hstatus2|]. rewrite Hdb2. subst d1. simpl.
    rewrite (swap_twice_rows A B a b (aggregates d) Ha Hb).
    destruct d; reflexivity.
  - intros Hmissing. split; [|split].
    + unfold swap. exec. destruct Hmissing as [-> | Hb].
      * simpl. destruct (aggregates d !! B); reflexivity.
      * rewrite Hb. destruct (aggregates d !! A); reflexivity.
    + unfold swap. exec. destruct Hmissing as [-> | Hb].
      * simpl. destruct (aggregates d !! B); reflexivity.
      * rewrite Hb. destruct (aggregates d !! A); reflexivity.
    + intros fault. unfold rolled_back, swap. exec.
      fault_cases; try (repeat split; congruence).
      destruct Hmissing as [-> | Hb].
      * simpl. destruct (aggregates d !! B); simpl; repeat split.
      * rewrite Hb. destruct (aggregates d !! A); simpl; repeat split.
Qed.

Lemma swap_exchanges_and_round_trips_witness :
  (current_wagon_id <$> aggregates (db_after (swap no_fault 10 30) Examples.fleet) !! 10%Z
     = Some (Some 8%Z)
   ∧ current_wagon_id <$> aggregates (db_after (swap no_fault 10 30) Examples.fleet) !! 30%Z
     = Some (Some 7%Z)
   ∧ db_after (swap no_fault 10 30) (db_after (swap no_fault 10 30) Examples.fleet)
     = Examples.fleet)
  ∧ status_of (swap no_fault 10 99) Examples.fleet = 404%nat
  ∧ tx (world_after (swap no_fault 10 99) Examples.fleet) = None.
Proof.
  split.
  - destruct (proj1 (swap_exchanges_and_round_trips 10 30 Examples.fleet)
                Examples.aggregate_10 Examples.aggregate_30 eq_refl eq_refl)
      as (_ & HA & HB & _ & _ & Hback).
    rewrite HA, HB. split; [reflexivity|]. split; [reflexivity|exact Hback].
  - destruct (proj2 (swap_exchanges_and_round_trips 10 99 Examples.fleet)
                (or_intror eq_refl)) as (Hstatus & _ & Hback).
    split; [exact Hstatus|exact (proj1 (Hback no_fault))].
Defined.

(** Whatever statement fails, swap commits both updates or none. *)
Lemma swap_all_or_nothing fault A B d :
  status_of (swap fault A B) d = 200%nat ∨ db_after (swap fault A B) d = d.
Proof.
  destruct (swap_disciplined fault A B d) as (_ & Htx & Hres).
  destruct Hres as [Hok|Hsame]; [left; exact Hok|right].
  unfold db_after, committed. rewrite Htx. exact Hsame.
Qed.

(** *** Sensor readings *)

(** C5, as stated, fails: the route issues two statements through the pool
    with no transaction around them.  When the UPDATE fails the history row
    stays, the live values of the aggregate are the old ones, and the answer
    is 500. *)
Lemma record_reading_not_atomic_counterexample :
  status_of (record_reading (fault_at 1) 30 Examples.reading_1) Examples.fleet = 500%nat
  ∧ sensor_readings (db_after (record_reading (fault_at 1) 30 Examples.reading_1)
                       Examples.fleet)
    = [mkSensorReading 30 (Some 24%Z) (Some 5%Z) (Some 40%Z) (Some 1200%Z) None]
  ∧ aggregates (db_after (record_reading (fault_at 1) 30 Examples.reading_1)
                  Examples.fleet) !! 30%Z
    = Some Examples.aggregate_30
  ∧ current_temperature Examples.aggregate_30 = Some 21%Z.
Proof. repeat split; vm_compute; reflexivity. Qed.

(** C5 (amended).  The route first appends the sensor_readings row and then
    updates the live temperature and pressure of the aggregate, as two
    statements that commit one by one.  So the live values are never updated
    without the history row: if the INSERT fails nothing changes (500); if
    the UPDATE fails the history row stays while the aggregates are unchanged
    (500); if neither fails both are in place (200). *)
Theorem record_reading_insert_then_update (fault : nat → bool) (id : Z) (r : Reading)
    (d : Db) :
  let d' := db_after (record_reading fault id r) d in
  (fault 0%nat = true
   ∧ status_of (record_reading fault id r) d = 500%nat
   ∧ d' = d)
  ∨ (fault 0%nat = false ∧ fault 1%nat = true
     ∧ status_of (record_reading fault id r) d = 500%nat
     ∧ sensor_readings d' = (sensor_readings d ++ [reading_row id r])%list
     ∧ aggregates d' = aggregates d)
  ∨ (fault 0%nat = false ∧ fault 1%nat = false
     ∧ fst (run (record_reading fault id r) d)
       = Ret (mkReply 200 (BReading (reading_row id r)))
     ∧ sensor_readings d' = (sensor_readings d ++ [reading_row id r])%list
     ∧ aggregates d'
       = alter (set_live_values (temperature r) (pressure r)) id (aggregates d)).
Proof.
  unfold record_reading, reading_row. exec.
  destruct (fault 0%nat) eqn:H0; simpl.
  - left. auto.
  - destruct (fault 1%nat) eqn:H1; simpl.
    + right; left. repeat split.
    + right; right. repeat split.
Qed.

(** The live values change only together with a history row. *)
Lemma record_reading_live_needs_history fault id r d :
  aggregates (db_after (record_reading fault id r) d) ≠ aggregates d →
  reading_row id r ∈ sensor_readings (db_after (record_reading fault id r) d).
Proof.
  unfold record_reading, reading_row. exec.
  destruct (fault 0%nat); simpl; [contradiction|].
  destruct (fault 1%nat); simpl; [contradiction|].
  intros _. apply elem_of_app. right. apply list_elem_of_singleton. reflexivity.
Qed.

(** *** Tenant configuration *)

(** C6 at the failing input: in the second admin variant of the
    configuration route a failing statement (here the INSERT, statement 1;
    likewise the UPDATE, statement 0) is answered 500 with the client still
    checked out and its transaction still open: no ROLLBACK, no release.
    The first variant, on the same request and fault, rolls back and
    releases. *)
Theorem put_configuration_v2_keeps_client (tenant_id : string) (b : ConfigurationBody)
    (d : Db) :
  (status_of (put_configuration_v2 (fault_at 1) tenant_id b) d = 500%nat
   ∧ held (world_after (put_configuration_v2 (fault_at 1) tenant_id b) d) = 1%nat
   ∧ tx (world_after (put_configuration_v2 (fault_at 1) tenant_id b) d) = Some d)
  ∧ (status_of (put_configuration_v2 (fault_at 0) tenant_id b) d = 500%nat
     ∧ held (world_after (put_configuration_v2 (fault_at 0) tenant_id b) d) = 1%nat
     ∧ tx (world_after (put_configuration_v2 (fault_at 0) tenant_id b) d) = Some d)
  ∧ (∀ u, status_of (put_configuration_v1 (fault_at 1) u tenant_id b) d = 500%nat
          ∧ held (world_after (put_configuration_v1 (fault_at 1) u tenant_id b) d) = 0%nat
          ∧ tx (world_after (put_configuration_v1 (fault_at 1) u tenant_id b) d) = None
          ∧ db (world_after (put_configuration_v1 (fault_at 1) u tenant_id b) d) = d).
Proof.
  unfold put_configuration_v2, put_configuration_v1. exec.
  repeat split.
Qed.

(** No fault is needed for the leak: a body without wagon count and wagon
    types violates the NOT NULL columns, and the INSERT throws. *)
Example put_configuration_v2_leak_example :
  held (world_after (put_configuration_v2 (fault_at 1) "default" Examples.three_wagons)
          Examples.fleet) = 1%nat
  ∧ held (world_after (put_configuration_v2 no_fault "default" Examples.colour_only)
            Examples.fleet) = 1%nat
  ∧ held (world_after (put_configuration_v2 no_fault "default" Examples.three_wagons)
            Examples.fleet) = 0%nat.
Proof. repeat split; vm_compute; reflexivity. Qed.

(** Without a failing statement the second variant commits and releases. *)
Lemma put_configuration_v2_success tenant_id b d :
  is_Some (upsert_configuration_v2 b tenant_id (snd (update_tenant_v2 b tenant_id d))) →
  status_of (put_configuration_v2 no_fault tenant_id b) d = 200%nat
  ∧ held (world_after (put_configuration_v2 no_fault tenant_id b) d) = 0%nat
  ∧ tx (world_after (put_configuration_v2 no_fault tenant_id b) d) = None.
Proof.
  intros [[[] d'] Hok]. unfold put_configuration_v2. exec.
  simpl in Hok. rewrite Hok. repeat split.
Qed.

(** The other transactional routes (assign, the three replace variants, swap,
    and the first variant of the configuration route) are disciplined under
    every fault plan: no client stays checked out, no transaction stays open,
    and the store is either committed with a 200 answer or as it was. *)
Lemma transactional_routes_disciplined (fault : nat → bool) (d : Db) :
  (∀ id wagon_id, disciplined (assign fault id wagon_id) d)
  ∧ (∀ u old new reason, disciplined (replace_v1 fault u old new reason) d)
  ∧ (∀ u old new reason, disciplined (replace_v2 fault u old new reason) d)
  ∧ (∀ old new car_id, disciplined (replace_cars fault old new car_id) d)
  ∧ (∀ id target, disciplined (swap fault id target) d)
  ∧ (∀ u id b, disciplined (put_configuration_v1 fault u id b) d).
Proof.
  split; [intros; apply assign_disciplined|].
  split; [intros; apply replace_v1_disciplined|].
  split; [intros; apply replace_v2_disciplined|].
  split; [intros; apply replace_cars_disciplined|].
  split; [intros; apply swap_disciplined|].
  intros; apply put_configuration_v1_disciplined.
Qed.

End LifecycleFacts.

(** ** Further aggregate routes *)

Module AggregateRoutesFacts.
Import Js Store Routes LifecycleSpec AggregateRoutes.

Ltac run_all :=
  unfold answer_of, world_of, status_of, db_after, world_after, run, start,
    try_finally, try_catch, connect, release, BEGIN, COMMIT, ROLLBACK, query,
    query_checked, throw,
    mbind, mret, M_bind, M_ret, committed, no_fault, fault_at; simpl.

Ltac split_faults :=
  repeat match goal with
  | |- context [if ?fault ?n then _ else _] => destruct (fault n) eqn:?; simpl
  end.

(** *** What the lifecycle operations leave alone *)

Lemma touched_only_refl (ids : list Z) (m : gmap Z Aggregate) : touched_only ids m m.
Proof. intros id. destruct (m !! id); auto. Qed.

Lemma touched_only_alter (ids : list Z) (m m' : gmap Z Aggregate)
    (f : Aggregate → Aggregate) (id : Z) :
  touched_only ids m m' →
  id ∈ ids →
  (∀ a, aggregate_number (f a) = aggregate_number a
        ∧ current_temperature (f a) = current_temperature a
        ∧ pressure_value (f a) = pressure_value a) →
  touched_only ids m (alter f id m').
Proof.
  intros Hto Hin Hf id'. specialize (Hto id').
  destruct (decide (id = id')) as [<-|Hne].
  - rewrite lookup_alter_eq.
    destruct (m !! id) as [a|], (m' !! id) as [a'|]; simpl; try exact Hto.
    destruct Hto as (Hn & Ht & Hp & _). destruct (Hf a') as (Hn' & Ht' & Hp').
    repeat split; try congruence.
  - rewrite lookup_alter_ne by exact Hne. exact Hto.
Qed.

Lemma keeps_set_wagon w a :
  aggregate_number (set_wagon w a) = aggregate_number a
  ∧ current_temperature (set_wagon w a) = current_temperature a
  ∧ pressure_value (set_wagon w a) = pressure_value a.
Proof. repeat split. Qed.

Lemma keeps_set_wagon_status w st a :
  aggregate_number (set_wagon_status w st a) = aggregate_number a
  ∧ current_temperature (set_wagon_status w st a) = current_temperature a
  ∧ pressure_value (set_wagon_status w st a) = pressure_value a.
Proof. repeat split. Qed.

Lemma keeps_set_wagon_spare_status w sp st a :
  aggregate_number (set_wagon_spare_status w sp st a) = aggregate_number a
  ∧ current_temperature (set_wagon_spare_status w sp st a) = current_temperature a
  ∧ pressure_value (set_wagon_spare_status w sp st a) = pressure_value a.
Proof. repeat split. Qed.

Lemma touched_only_dom (ids : list Z) (m m' : gmap Z Aggregate) :
  touched_only ids m m' → dom m' = dom m.
Proof.
  intros Hto. apply set_eq. intros id. rewrite !elem_of_dom.
  specialize (Hto id). destruct (m !! id), (m' !! id); try contradiction.
  - split; eauto.
  - split; intros [? ?]; discriminate.
Qed.

(** Every lifecycle operation, whatever statement fails, keeps the set of
    aggregate ids; changes no aggregate other than the ones it names, and of
    those neither the aggregate number nor the live temperature and pressure;
    and writes no sensor reading. *)
Theorem lifecycle_touches_only_targets (fault : nat → bool) (op : Operation) (d : Db) :
  touched_only (targets op) (aggregates d) (aggregates (db_after (handler fault op) d))
  ∧ dom (aggregates (db_after (handler fault op) d)) = dom (aggregates d)
  ∧ sensor_readings (db_after (handler fault op) d) = sensor_readings d
  ∧ tenants (db_after (handler fault op) d) = tenants d.
Proof.
  assert (Hmain :
    touched_only (targets op) (aggregates d) (aggregates (db_after (handler fault op) d))
    ∧ sensor_readings (db_after (handler fault op) d) = sensor_readings d
    ∧ tenants (db_after (handler fault op) d) = tenants d).
  { destruct op as [id w|id|id c|u o n r|u o n r|o n c|a b]; unfold handler, targets.
    - unfold assign. run_all. split_faults;
        try (split; [apply touched_only_refl|split; reflexivity]).
      all: destruct (aggregates d !! id) as [row|] eqn:Hrow; simpl; split_faults;
        try (split; [apply touched_only_refl|split; reflexivity]).
      split; [|split; reflexivity].
      apply touched_only_alter;
        [apply touched_only_refl|set_solver|apply keeps_set_wagon].
    - unfold unassign. run_all. split_faults;
        try (split; [apply touched_only_refl|split; reflexivity]).
      assert (Hto : touched_only [id] (aggregates d)
                      (alter (set_wagon_status None "reserve") id (aggregates d))).
      { apply touched_only_alter;
          [apply touched_only_refl|set_solver|apply keeps_set_wagon_status]. }
      destruct (aggregates d !! id); simpl; (split; [exact Hto|split; reflexivity]).
    - unfold move. run_all. split_faults;
        try (split; [apply touched_only_refl|split; reflexivity]).
      assert (Hto : touched_only [id] (aggregates d)
                      (alter (set_wagon (Some c)) id (aggregates d))).
      { apply touched_only_alter;
          [apply touched_only_refl|set_solver|apply keeps_set_wagon]. }
      destruct (aggregates d !! id); simpl; (split; [exact Hto|split; reflexivity]).
    - unfold replace_v1. run_all. split_faults;
        try (split; [apply touched_only_refl|split; reflexivity]).
      all: destruct (aggregates d !! o) as [row|] eqn:Hrow; simpl; split_faults;
        try (split; [apply touched_only_refl|split; reflexivity]).
      split; [|split; reflexivity].
      apply touched_only_alter; [|set_solver|apply keeps_set_wagon_spare_status].
      apply touched_only_alter;
        [apply touched_only_refl|set_solver|apply keeps_set_wagon_spare_status].
    - unfold replace_v2. run_all. split_faults;
        try (split; [apply touched_only_refl|split; reflexivity]).
      all: destruct (aggregates d !! o) as [row|] eqn:Hrow; simpl; split_faults;
        try (split; [apply touched_only_refl|split; reflexivity]).
      split; [|split; reflexivity].
      apply touched_only_alter; [|set_solver|apply keeps_set_wagon_spare_status].
      apply touched_only_alter;
        [apply touched_only_refl|set_solver|apply keeps_set_wagon_spare_status].
    - unfold replace_cars. run_all. split_faults;
        try (split; [apply touched_only_refl|split; reflexivity]).
      split; [|split; reflexivity].
      apply touched_only_alter; [|set_solver|apply keeps_set_wagon_status].
      apply touched_only_alter;
        [apply touched_only_refl|set_solver|apply keeps_set_wagon_status].
    - unfold swap. run_all. split_faults;
        try (split; [apply touched_only_refl|split; reflexivity]).
      all: destruct (aggregates d !! a) as [ra|] eqn:Hra; simpl;
        destruct (aggregates d !! b) as [rb|] eqn:Hrb; simpl; split_faults;
        try (split; [apply touched_only_refl|split; reflexivity]).
      split; [|split; reflexivity].
      apply touched_only_alter; [|set_solver|apply keeps_set_wagon].
      apply touched_only_alter;
        [apply touched_only_refl|set_solver|apply keeps_set_wagon]. }
  destruct Hmain as (Hto & Hsr & Htn).
  split; [exact Hto|]. split; [|split; assumption].
  eapply touched_only_dom. exact Hto.
Qed.


(** *** Status changes *)

(** The status route updates, then logs, with no transaction.  On an unknown
    id it answers 404 and writes nothing.  On a known id it sets the status
    and nothing else of the row; if the log INSERT then fails, the answer is
    500 although the new status stays, with no log row. *)
Theorem update_status_then_log (fault : nat → bool) (id : Z) (status : string) (d : Db) :
  let h := update_status fault id status in
  match fault 0%nat, aggregates d !! id with
  | true, _ => status_of h d = 500%nat ∧ db_after h d = d
  | false, None => status_of h d = 404%nat ∧ db_after h d = d
  | false, Some a =>
      aggregates (db_after h d) = <[id := set_status status a]> (aggregates d)
      ∧ (if fault 1%nat
         then status_of h d = 500%nat
              ∧ aggregate_logs (db_after h d) = aggregate_logs d
         else fst (run h d) = Ret (mkReply 200 (BAggregate (set_status status a)))
              ∧ aggregate_logs (db_after h d)
                = (aggregate_logs d ++ [status_log id status])%list)
  end.
Proof.
  unfold update_status, status_log. run_all.
  destruct (fault 0%nat); simpl; [split; reflexivity|].
  destruct (aggregates d !! id) as [a|] eqn:Ha; simpl.
  - assert (Hrows : alter (set_status status) id (aggregates d)
                    = <[id := set_status status a]> (aggregates d)).
    { apply map_eq. intros i. destruct (decide (id = i)) as [<-|Hne].
      - rewrite lookup_alter_eq, lookup_insert_eq, Ha. reflexivity.
      - rewrite lookup_alter_ne, lookup_insert_ne by exact Hne. reflexivity. }
    destruct (fault 1%nat); simpl; (split; [exact Hrows|split; reflexivity]).
  - split; [reflexivity|]. destruct d as [ag lg rp au sr tn tc]. simpl in *.
    unfold with_aggregates. simpl. f_equal.
    apply map_eq. intros i. destruct (decide (id = i)) as [<-|Hne].
    + rewrite lookup_alter_eq, Ha. reflexivity.
    + rewrite lookup_alter_ne by exact Hne. reflexivity.
Qed.

(** *** Listings of spare aggregates *)

(** The first admin variant lists the aggregates that are flagged spare and
    on no wagon, the second all aggregates that are flagged spare.  So every
    row of the first listing is a row of the second, and on a store that
    satisfies the attached-xor-spare invariant the two listings are the
    same.  Each fails exactly when its query does. *)
Theorem spare_listings_agree (fault : nat → bool) (d : Db) :
  (invariant d → answer_of (spare_v1 fault) d = answer_of (spare_v2 fault) d)
  ∧ (if fault 0%nat
     then answer_of (spare_v1 fault) d
          = Ret (Failed 500 "Failed to fetch spare aggregates")
          ∧ answer_of (spare_v2 fault) d
            = Ret (Failed 500 "Failed to fetch spare aggregates")
     else ∃ rows rows',
            answer_of (spare_v1 fault) d = Ret (Sent rows)
            ∧ answer_of (spare_v2 fault) d = Ret (Sent rows')
            ∧ rows ⊆ rows'
            ∧ (∀ id a, rows !! id = Some a ↔
                       aggregates d !! id = Some a
                       ∧ is_spare a = true ∧ current_wagon_id a = None)
            ∧ (∀ id a, rows' !! id = Some a ↔
                       aggregates d !! id = Some a ∧ is_spare a = true)).
Proof.
  unfold spare_v1, spare_v2. run_all.
  destruct (fault 0%nat); simpl; [split; [reflexivity|split; reflexivity]|].
  split.
  - intros Hinv. do 2 f_equal. apply map_eq. intros id. apply option_eq. intros a.
    rewrite !map_lookup_filter_Some. simpl. split.
    + intros [Ha [Hsp _]]. auto.
    + intros [Ha Hsp]. split; [exact Ha|]. split; [exact Hsp|].
      apply (Hinv id a Ha), Hsp.
  - eexists _, _. split; [reflexivity|]. split; [reflexivity|]. split; [|split].
    + apply map_subseteq_spec. intros id a. rewrite !map_lookup_filter_Some. simpl.
      intros [Ha [Hsp _]]. auto.
    + intros id a. rewrite map_lookup_filter_Some. simpl. reflexivity.
    + intros id a. rewrite map_lookup_filter_Some. simpl. reflexivity.
Qed.

Lemma spare_listings_agree_witness :
  answer_of (spare_v1 no_fault) Examples.fleet = answer_of (spare_v2 no_fault) Examples.fleet.
Proof.
  apply (proj1 (spare_listings_agree no_fault Examples.fleet)
           LifecycleFacts.fleet_invariant).
Defined.

(** Without the invariant they differ: an aggregate flagged spare on a wagon
    is listed by the second variant only. *)
Example spare_listings_differ :
  (∃ rows, answer_of (spare_v1 no_fault) MoreExamples.flagged_on_wagon = Ret (Sent rows)
           ∧ rows !! 20%Z = None)
  ∧ (∃ rows, answer_of (spare_v2 no_fault) MoreExamples.flagged_on_wagon = Ret (Sent rows)
             ∧ is_Some (rows !! 20%Z)).
Proof.
  split; eexists; (split; [reflexivity|]).
  - vm_compute. reflexivity.
  - vm_compute. eauto.
Qed.

(** After a committed replacement by either admin variant the old aggregate
    is in the spare listing of both admin variants and the new aggregate is in
    neither.  After a replacement by the cars-schema variant that names a
    car, the old aggregate is in the reserve listing of the cars-schema routes
    and the new one is not. *)
Theorem replaced_aggregate_is_listed_spare (u : option User) (old new : Z)
    (reason : string) (o n : Aggregate) (d : Db) :
  aggregates d !! old = Some o →
  aggregates d !! new = Some n →
  old ≠ new →
  (∀ d', d' = db_after (replace_v1 no_fault u old new reason) d
         ∨ d' = db_after (replace_v2 no_fault u old new reason) d →
     ∀ listing, listing = spare_v1 no_fault ∨ listing = spare_v2 no_fault →
       ∃ rows, answer_of listing d' = Ret (Sent rows)
               ∧ rows !! old = Some (set_wagon_spare_status None true "maintenance" o)
               ∧ rows !! new = None)
  ∧ (∀ car, ∃ rows,
       answer_of (reserve no_fault)
         (db_after (replace_cars no_fault old new (Some car)) d) = Ret (Sent rows)
       ∧ rows !! old = Some (set_wagon_status None "reserve" o)
       ∧ rows !! new = None).
Proof.
  intros Ho Hn Hne. split.
  - intros d' Hd' listing Hl.
    assert (Hrep : aggregates d' !! old
                   = Some (set_wagon_spare_status None true "maintenance" o)
                 ∧ aggregates d' !! new
                   = Some (set_wagon_spare_status (current_wagon_id o) false
                             "operational" n)).
    { destruct Hd' as [-> | ->].
      - destruct (LifecycleFacts.replace_v1_success u old new reason d o n Ho Hn Hne)
          as (_ & Hold & Hnew & _). auto.
      - destruct (LifecycleFacts.replace_v2_success u old new reason d o n Ho Hn Hne)
          as (_ & Hold & Hnew & _). auto. }
    destruct Hrep as [Hold Hnew].
    assert (Hnew' : ∀ a, aggregates d' !! new = Some a → is_spare a = false).
    { intros a Ha. rewrite Hnew in Ha. injection Ha as <-. reflexivity. }
    destruct Hl as [-> | ->]; unfold spare_v1, spare_v2; run_all;
      eexists; (split; [reflexivity|]); split.
    + apply map_lookup_filter_Some. split; [exact Hold|]. split; reflexivity.
    + apply map_lookup_filter_None. right. intros a Ha. simpl.
      intros [Hsp' _]. rewrite (Hnew' a Ha) in Hsp'. discriminate.
    + apply map_lookup_filter_Some. split; [exact Hold|]. reflexivity.
    + apply map_lookup_filter_None. right. intros a Ha. simpl.
      rewrite (Hnew' a Ha). discriminate.
  - intros car.
    destruct (LifecycleFacts.replace_cars_effect old new (Some car) d) as [_ Hdb].
    set (d' := db_after (replace_cars no_fault old new (Some car)) d) in *.
    clearbody d'. subst d'. unfold reserve. run_all.
    eexists. split; [reflexivity|]. split.
    + apply map_lookup_filter_Some. split; [|reflexivity].
      rewrite lookup_alter_ne by congruence. rewrite lookup_alter_eq, Ho. reflexivity.
    + apply map_lookup_filter_None. right. intros a.
      rewrite lookup_alter_eq. rewrite lookup_alter_ne by exact Hne. rewrite Hn.
      simpl. intros [= <-]. simpl. discriminate.
Qed.

Lemma replaced_aggregate_is_listed_spare_witness :
  ∃ rows,
    answer_of (spare_v1 no_fault)
      (db_after (replace_v1 no_fault None 10 20 "fault") Examples.fleet) = Ret (Sent rows)
    ∧ rows !! 10%Z = Some (set_wagon_spare_status None true "maintenance" Examples.aggregate_10)
    ∧ rows !! 20%Z = None.
Proof.
  apply (proj1 (replaced_aggregate_is_listed_spare None 10 20 "fault"
                  Examples.aggregate_10 Examples.aggregate_20 Examples.fleet
                  eq_refl eq_refl ltac:(discriminate))
           _ (or_introl eq_refl) _ (or_introl eq_refl)).
Defined.

(** Unassigning an existing aggregate puts it in the reserve listing and takes
    it out of the listing of every car; moving it to a car does the
    opposite. *)
Theorem unassign_and_move_change_listings (id car : Z) (a : Aggregate) (d : Db) :
  aggregates d !! id = Some a →
  (∃ rows, answer_of (reserve no_fault) (db_after (unassign no_fault id) d)
           = Ret (Sent rows)
           ∧ rows !! id = Some (set_wagon_status None "reserve" a))
  ∧ (∀ c, ∃ rows, answer_of (car_aggregates no_fault c) (db_after (unassign no_fault id) d)
                  = Ret (Sent rows)
                  ∧ rows !! id = None)
  ∧ (∃ rows, answer_of (car_aggregates no_fault car) (db_after (move no_fault id car) d)
             = Ret (Sent rows)
             ∧ rows !! id = Some (set_wagon (Some car) a))
  ∧ (∃ rows, answer_of (reserve no_fault) (db_after (move no_fault id car) d)
             = Ret (Sent rows)
             ∧ rows !! id = None).
Proof.
  intros Ha.
  assert (Hun : aggregates (db_after (unassign no_fault id) d) !! id
                = Some (set_wagon_status None "reserve" a)).
  { unfold unassign. run_all. rewrite Ha. simpl. rewrite lookup_alter_eq, Ha. reflexivity. }
  assert (Hmv : aggregates (db_after (move no_fault id car) d) !! id
                = Some (set_wagon (Some car) a)).
  { unfold move. run_all. rewrite Ha. simpl. rewrite lookup_alter_eq, Ha. reflexivity. }
  set (d1 := db_after (unassign no_fault id) d) in *.
  set (d2 := db_after (move no_fault id car) d) in *. clearbody d1 d2.
  unfold reserve, car_aggregates. run_all.
  split; [|split; [|split]].
  - eexists. split; [reflexivity|]. apply map_lookup_filter_Some. split; [exact Hun|].
    reflexivity.
  - intros c. eexists. split; [reflexivity|]. apply map_lookup_filter_None. right.
    intros a' Ha'. rewrite Hun in Ha'. injection Ha' as <-. simpl. discriminate.
  - eexists. split; [reflexivity|]. apply map_lookup_filter_Some. split; [exact Hmv|].
    reflexivity.
  - eexists. split; [reflexivity|]. apply map_lookup_filter_None. right.
    intros a' Ha'. rewrite Hmv in Ha'. injection Ha' as <-. simpl. discriminate.
Qed.

Lemma unassign_and_move_change_listings_witness :
  ∃ rows, answer_of (reserve no_fault) (db_after (unassign no_fault 10) Examples.fleet)
          = Ret (Sent rows)
          ∧ rows !! 10%Z = Some (set_wagon_status None "reserve" Examples.aggregate_10).
Proof.
  apply (proj1 (unassign_and_move_change_listings 10 9 Examples.aggregate_10
                  Examples.fleet eq_refl)).
Defined.

(** *** Deleting an aggregate *)

(** Deleting an existing aggregate answers 200 and removes exactly that row;
    afterwards assign, move, unassign and swap on its id answer 404 and change
    nothing.  Deleting an unknown id answers 404 and changes nothing. *)
Theorem delete_then_operate (id : Z) (d : Db) :
  (∀ a, aggregates d !! id = Some a →
     let d' := db_after (delete_aggregate no_fault id) d in
     status_of (delete_aggregate no_fault id) d = 200%nat
     ∧ d' = with_aggregates (delete id (aggregates d)) d
     ∧ aggregates d' !! id = None
     ∧ (∀ other, other ≠ id → aggregates d' !! other = aggregates d !! other)
     ∧ ∀ op, op = OpAssign id Missing ∨ (∃ w, op = OpAssign id (Given w))
             ∨ (∃ c, op = OpMove id c) ∨ op = OpUnassign id
             ∨ (∃ b, op = OpSwap id b) ∨ (∃ b, op = OpSwap b id) →
         status_of (handler no_fault op) d' = 404%nat
         ∧ db_after (handler no_fault op) d' = d')
  ∧ (aggregates d !! id = None →
     status_of (delete_aggregate no_fault id) d = 404%nat
     ∧ db_after (delete_aggregate no_fault id) d = d).
Proof.
  split.
  - intros a Ha d'.
    assert (Hd' : d' = with_aggregates (delete id (aggregates d)) d).
    { subst d'. unfold delete_aggregate. run_all. rewrite Ha. reflexivity. }
    assert (Hgone : aggregates d' !! id = None).
    { rewrite Hd'. simpl. apply lookup_delete_eq. }
    split; [unfold delete_aggregate; run_all; rewrite Ha; reflexivity|].
    split; [exact Hd'|]. split; [exact Hgone|].
    split; [intros other Hne; rewrite Hd'; simpl; apply lookup_delete_ne; congruence|].
    assert (Hsame : with_aggregates (aggregates d') d' = d') by (destruct d'; reflexivity).
    assert (Halter : ∀ f, alter f id (aggregates d') = aggregates d').
    { intros f. apply map_eq. intros i. destruct (decide (id = i)) as [<-|Hne].
      - rewrite lookup_alter_eq, Hgone. reflexivity.
      - rewrite lookup_alter_ne by exact Hne. reflexivity. }
    intros op Hop.
    destruct Hop as [-> | [[w ->] | [[c ->] | [-> | [[b ->] | [b ->]]]]]]; simpl.
    + unfold assign. run_all. rewrite Hgone. simpl. split; reflexivity.
    + unfold assign. run_all. rewrite Hgone. simpl. split; reflexivity.
    + unfold move. run_all. rewrite Hgone. simpl. rewrite Halter.
      split; [reflexivity|exact Hsame].
    + unfold unassign. run_all. rewrite Hgone. simpl. rewrite Halter.
      split; [reflexivity|exact Hsame].
    + unfold swap. run_all. rewrite Hgone. simpl.
      destruct (aggregates d' !! b); simpl; split; reflexivity.
    + unfold swap. run_all. rewrite Hgone. simpl.
      destruct (aggregates d' !! b); simpl; split; reflexivity.
  - intros Hnone. unfold delete_aggregate. run_all. rewrite Hnone. simpl.
    split; [reflexivity|]. destruct d as [ag lg rp au sr tn tc]. simpl in *.
    unfold with_aggregates. simpl. f_equal. apply delete_id. exact Hnone.
Qed.

Lemma delete_then_operate_witness :
  status_of (delete_aggregate no_fault 20) Examples.fleet = 200%nat
  ∧ status_of (handler no_fault (OpMove 20 7))
      (db_after (delete_aggregate no_fault 20) Examples.fleet) = 404%nat.
Proof.
  destruct (proj1 (delete_then_operate 20 Examples.fleet) Examples.aggregate_20 eq_refl)
    as (Hstatus & _ & _ & _ & Hops).
  split; [exact Hstatus|].
  apply (Hops (OpMove 20 7)). right; right; left. eexists. reflexivity.
Defined.

(** *** Audit trail *)

Lemma tenant_rows_snoc (tenantId : string) (rows : list AuditLog) (r : AuditLog) :
  filter (λ x, audit_tenant_id x = tenantId) (rows ++ [r])%list
  = (filter (λ x, audit_tenant_id x = tenantId) rows
     ++ (if decide (audit_tenant_id r = tenantId) then [r] else []))%list.
Proof.
  rewrite filter_app. f_equal.
Qed.

(** The audit listing is scoped and paged: every row it returns belongs to
    the caller's tenant, it returns at most [limit] rows, consecutive pages
    tile the tenant's trail, and rows of other tenants have no effect on
    it. *)
Theorem audit_logs_scoped_and_paged (u : option User) (limit offset : nat) (d : Db) :
  ∃ page,
    answer_of (get_audit_logs no_fault u (Some limit) (Some offset)) d = Ret (Sent page)
    ∧ (∀ r, r ∈ page → audit_tenant_id r = tenant_of u ∧ r ∈ audit_logs d)
    ∧ (length page ≤ limit)%nat
    ∧ (∀ more, ∃ next,
         answer_of (get_audit_logs no_fault u (Some more) (Some (offset + limit)%nat)) d
         = Ret (Sent next)
         ∧ answer_of (get_audit_logs no_fault u (Some (limit + more)%nat) (Some offset)) d
           = Ret (Sent (page ++ next)%list))
    ∧ (∀ r, audit_tenant_id r ≠ tenant_of u →
         answer_of (get_audit_logs no_fault u (Some limit) (Some offset))
           (snd (insert_audit_log r d)) = Ret (Sent page)).
Proof.
  unfold get_audit_logs. run_all. eexists. split; [reflexivity|].
  set (trail := reverse (filter (λ r, audit_tenant_id r = tenant_of u) (audit_logs d))).
  split; [|split; [|split]].
  - intros r Hr. apply subseteq_take, subseteq_drop in Hr.
    subst trail. apply elem_of_reverse, list_elem_of_filter in Hr. exact Hr.
  - rewrite length_take. lia.
  - intros more. eexists. split; [reflexivity|]. do 2 f_equal.
    rewrite <- drop_drop. symmetry. apply take_take_drop.
  - intros r Hne. do 2 f_equal. rewrite tenant_rows_snoc.
    destruct (decide (audit_tenant_id r = tenant_of u)); [contradiction|].
    rewrite app_nil_r. reflexivity.
Qed.

Example audit_logs_example :
  answer_of (get_audit_logs no_fault (Some MoreExamples.operator_a) None None)
    MoreExamples.audited_fleet
  = Ret (Sent [MoreExamples.audit_a; MoreExamples.audit_a])
  ∧ answer_of (get_audit_logs no_fault None None None) MoreExamples.audited_fleet
    = Ret (Sent []).
Proof. split; vm_compute; reflexivity. Qed.

Lemma newest_first_snoc {A} (P : A → Prop) `{∀ x, Decision (P x)} (rows : list A)
    (r : A) (n : nat) :
  P r →
  take (S n) (reverse (filter P (rows ++ [r])%list))
  = r :: take n (reverse (filter P rows)).
Proof.
  intros Hr. rewrite filter_app, filter_singleton_True by (exact Hr || exact []).
  rewrite reverse_snoc. reflexivity.
Qed.

Lemma other_rows_snoc {A} (P : A → Prop) `{∀ x, Decision (P x)} (rows : list A) (r : A) :
  ¬ P r → filter P (rows ++ [r])%list = filter P rows.
Proof.
  intros Hr. rewrite filter_app, filter_singleton_False by (exact Hr || exact []).
  apply app_nil_r.
Qed.

(** A committed replacement is the newest entry of the audit trail of the
    caller's tenant, and the trails of all other tenants read as before. *)
Theorem replacement_heads_audit_trail (u : option User) (old new : Z) (reason : string)
    (o n : Aggregate) (d : Db) :
  aggregates d !! old = Some o →
  aggregates d !! new = Some n →
  old ≠ new →
  (∃ rest,
     answer_of (get_audit_logs no_fault u None None)
       (db_after (replace_v1 no_fault u old new reason) d)
     = Ret (Sent (audit_row_v1 u old new o reason :: rest)))
  ∧ (∃ rest,
       answer_of (get_audit_logs no_fault u None None)
         (db_after (replace_v2 no_fault u old new reason) d)
       = Ret (Sent (audit_row_v2 u old new reason :: rest)))
  ∧ ∀ u' limit offset, tenant_of u' ≠ tenant_of u →
      answer_of (get_audit_logs no_fault u' limit offset)
        (db_after (replace_v1 no_fault u old new reason) d)
      = answer_of (get_audit_logs no_fault u' limit offset) d
      ∧ answer_of (get_audit_logs no_fault u' limit offset)
          (db_after (replace_v2 no_fault u old new reason) d)
        = answer_of (get_audit_logs no_fault u' limit offset) d.
Proof.
  intros Ho Hn Hne.
  destruct (LifecycleFacts.replace_v1_success u old new reason d o n Ho Hn Hne)
    as (_ & _ & _ & _ & _ & Haudit1 & _).
  destruct (LifecycleFacts.replace_v2_success u old new reason d o n Ho Hn Hne)
    as (_ & _ & _ & _ & _ & Haudit2 & _).
  set (d1 := db_after (replace_v1 no_fault u old new reason) d) in *.
  set (d2 := db_after (replace_v2 no_fault u old new reason) d) in *.
  clearbody d1 d2. unfold get_audit_logs. run_all.
  rewrite Haudit1, Haudit2. split; [|split].
  - eexists. do 2 f_equal. rewrite drop_0.
    apply (newest_first_snoc (λ r, audit_tenant_id r = tenant_of u)). reflexivity.
  - eexists. do 2 f_equal. rewrite drop_0.
    apply (newest_first_snoc (λ r, audit_tenant_id r = tenant_of u)). reflexivity.
  - intros u' limit offset Hother.
    rewrite !(other_rows_snoc (λ r, audit_tenant_id r = tenant_of u')); [auto| |].
    + simpl. congruence.
    + simpl. congruence.
Qed.

Lemma replacement_heads_audit_trail_witness :
  ∃ rest,
    answer_of (get_audit_logs no_fault (Some Examples.supervisor) None None)
      (db_after (replace_v1 no_fault (Some Examples.supervisor) 10 20 "fault")
         Examples.fleet)
    = Ret (Sent (audit_row_v1 (Some Examples.supervisor) 10 20 Examples.aggregate_10
                   "fault" :: rest)).
Proof.
  apply (proj1 (replacement_heads_audit_trail (Some Examples.supervisor) 10 20 "fault"
                  Examples.aggregate_10 Examples.aggregate_20 Examples.fleet
                  eq_refl eq_refl ltac:(discriminate))).
Defined.

(** *** Aggregate logs *)

(** The log listing returns at most 50 rows, all of the asked aggregate.
    Right after a committed assign its first row is the 'moved' record of
    that assignment, and right after a logged status change it is the
    'status_change' record of that change. *)
Theorem logs_newest_first (id : Z) (d : Db) :
  (∃ rows, answer_of (get_logs no_fault id) d = Ret (Sent rows)
           ∧ (length rows ≤ 50)%nat
           ∧ ∀ r, r ∈ rows → log_aggregate_id r = id ∧ r ∈ aggregate_logs d)
  ∧ (∀ a wagon_id, aggregates d !! id = Some a →
       ∃ rest, answer_of (get_logs no_fault id) (db_after (assign no_fault id wagon_id) d)
               = Ret (Sent (moved_row id wagon_id a :: rest)))
  ∧ (∀ a status, aggregates d !! id = Some a →
       ∃ rest, answer_of (get_logs no_fault id)
                 (db_after (update_status no_fault id status) d)
               = Ret (Sent (status_log id status :: rest))).
Proof.
  split; [|split].
  - unfold get_logs. run_all. eexists. split; [reflexivity|]. split.
    + rewrite length_take. lia.
    + intros r Hr. apply subseteq_take, elem_of_reverse, list_elem_of_filter in Hr.
      exact Hr.
  - intros a wagon_id Ha.
    assert (Hlogs : aggregate_logs (db_after (assign no_fault id wagon_id) d)
                    = (aggregate_logs d ++ [moved_row id wagon_id a])%list).
    { unfold assign, moved_row. run_all. rewrite Ha. destruct wagon_id; reflexivity. }
    set (d1 := db_after (assign no_fault id wagon_id) d) in *. clearbody d1.
    unfold get_logs. run_all. rewrite Hlogs. eexists. do 2 f_equal.
    apply (newest_first_snoc (λ r, log_aggregate_id r = id)). reflexivity.
  - intros a status Ha.
    assert (Hlogs : aggregate_logs (db_after (update_status no_fault id status) d)
                    = (aggregate_logs d ++ [status_log id status])%list).
    { unfold update_status. run_all. rewrite Ha. reflexivity. }
    set (d1 := db_after (update_status no_fault id status) d) in *. clearbody d1.
    unfold get_logs. run_all. rewrite Hlogs. eexists. do 2 f_equal.
    apply (newest_first_snoc (λ r, log_aggregate_id r = id)). reflexivity.
Qed.

Lemma logs_newest_first_witness :
  (∃ rest, answer_of (get_logs no_fault 10)
             (db_after (update_status no_fault 10 "maintenance") Examples.fleet)
           = Ret (Sent (status_log 10 "maintenance" :: rest)))
  ∧ (∃ rest, answer_of (get_logs no_fault 10)
               (db_after (assign no_fault 10 Missing) Examples.fleet)
             = Ret (Sent (mkAggregateLog 10 None "moved"
                            "Aggregate reassigned to different wagon"
                            (Some (JObj [("wagon_id", JNum 7)])) (Some (JObj []))
                          :: rest))).
Proof.
  split.
  - apply (proj2 (proj2 (logs_newest_first 10 Examples.fleet))
             Examples.aggregate_10 "maintenance" eq_refl).
  - apply (proj1 (proj2 (logs_newest_first 10 Examples.fleet))
             Examples.aggregate_10 Missing eq_refl).
Defined.

(** *** The connection probe *)

(** The probe answers true exactly when the pool handed out a client and the
    query succeeded (the pool variant returns then, and rethrows otherwise).
    It releases its client only after a successful query: when the client was
    handed out and the query throws, both variants end with the client still
    checked out; when the pool hands out no client, none is held.  The store
    is never changed. *)
Theorem testConnection_releases_only_on_success (fault : nat → bool) (reachable : bool)
    (d : Db) :
  answer_of (testConnection fault reachable) d
  = Ret (reachable && negb (fault 0%nat))
  ∧ answer_of (testConnection_pool fault reachable) d
    = (if reachable && negb (fault 0%nat) then Ret tt else Throw)
  ∧ held (world_of (testConnection fault reachable) d)
    = (if reachable && fault 0%nat then 1 else 0)%nat
  ∧ held (world_of (testConnection_pool fault reachable) d)
    = (if reachable && fault 0%nat then 1 else 0)%nat
  ∧ db (world_of (testConnection fault reachable) d) = d
  ∧ db (world_of (testConnection_pool fault reachable) d) = d.
Proof.
  unfold testConnection, testConnection_pool, pool_connect.
  destruct reachable; run_all; [|repeat split].
  destruct (fault 0%nat); simpl; repeat split.
Qed.

(** *** Tenant configuration: writing, then reading *)

Lemma coalesce_twice {A} (p c : option A) : coalesce p (coalesce p c) = coalesce p c.
Proof. destruct p; reflexivity. Qed.

Lemma upsert_configuration_v1_ok (b : ConfigurationBody) (id : string) (count : Z)
    (types : JValue) (d : Db) :
  is_Some (tenants d !! id) →
  body_wagon_count b = Some count →
  body_wagon_types b = Some types →
  truthy types = true →
  upsert_configuration_v1 b id d
  = Some (tt, with_train_configurations
                (<[id := mkTrainConfiguration count types
                           (merged_labels b (train_configurations d !! id))]>
                   (train_configurations d)) d).
Proof.
  intros [t Ht] Hc Hty Htr.
  unfold upsert_configuration_v1, upsert_configuration, merged_labels.
  rewrite Hc, Hty. simpl. rewrite Htr. simpl.
  destruct (train_configurations d !! id) as [c|]; simpl; [reflexivity|].
  rewrite Ht. destruct (stringify_if_truthy (body_custom_labels b)); reflexivity.
Qed.

Lemma upsert_configuration_v2_ok (b : ConfigurationBody) (id : string) (count : Z)
    (types : JValue) (d : Db) :
  is_Some (tenants d !! id) →
  body_wagon_count b = Some count →
  body_wagon_types b = Some types →
  upsert_configuration_v2 b id d
  = Some (tt, with_train_configurations
                (<[id := mkTrainConfiguration count types (body_custom_labels b)]>
                   (train_configurations d)) d).
Proof.
  intros [t Ht] Hc Hty. unfold upsert_configuration_v2, upsert_configuration.
  rewrite Hc, Hty. simpl.
  destruct (train_configurations d !! id) as [c|]; simpl; [reflexivity|].
  rewrite Ht. reflexivity.
Qed.

Lemma put_configuration_v1_effect u id b d d' :
  upsert_configuration_v1 b id (snd (update_tenant_v1 b id d)) = Some (tt, d') →
  status_of (put_configuration_v1 no_fault u id b) d = 200%nat
  ∧ db_after (put_configuration_v1 no_fault u id b) d
    = snd (insert_audit_log (configuration_audit_row u id b) d').
Proof.
  intros Hok. unfold put_configuration_v1, configuration_audit_row. run_all.
  simpl in Hok. rewrite Hok. simpl. split; reflexivity.
Qed.

Lemma put_configuration_v1_rejected u id b d :
  upsert_configuration_v1 b id (snd (update_tenant_v1 b id d)) = None →
  status_of (put_configuration_v1 no_fault u id b) d = 500%nat
  ∧ rolled_back (put_configuration_v1 no_fault u id b) d.
Proof.
  intros Hno. unfold rolled_back, put_configuration_v1. run_all.
  simpl in Hno. rewrite Hno. simpl. repeat split.
Qed.

Lemma put_configuration_v2_effect id b d d' :
  upsert_configuration_v2 b id (snd (update_tenant_v2 b id d)) = Some (tt, d') →
  status_of (put_configuration_v2 no_fault id b) d = 200%nat
  ∧ db_after (put_configuration_v2 no_fault id b) d = d'.
Proof.
  intros Hok. unfold put_configuration_v2. run_all.
  simpl in Hok. rewrite Hok. simpl. split; reflexivity.
Qed.

Lemma put_configuration_v2_rejected id b d :
  upsert_configuration_v2 b id (snd (update_tenant_v2 b id d)) = None →
  status_of (put_configuration_v2 no_fault id b) d = 500%nat
  ∧ db_after (put_configuration_v2 no_fault id b) d = d
  ∧ held (world_after (put_configuration_v2 no_fault id b) d) = 1%nat
  ∧ tx (world_after (put_configuration_v2 no_fault id b) d) = Some d.
Proof.
  intros Hno. unfold put_configuration_v2. run_all.
  simpl in Hno. rewrite Hno. simpl. repeat split.
Qed.

Lemma merged_tenant_twice (b : ConfigurationBody) (t : Tenant) :
  merged_tenant b (merged_tenant b t) = merged_tenant b t.
Proof.
  unfold merged_tenant. simpl. rewrite !coalesce_twice.
  destruct (body_name b); reflexivity.
Qed.

(** The configuration table has two NOT NULL columns, wagon count and wagon
    types, so a PUT stores a configuration only when the body gives both.
    For an existing tenant and such a body (with truthy wagon types), when no
    statement fails: after the first variant, GET shows the tenant with each
    field the body gave and the previous value of each field it omitted, and
    the configuration with the wagon count and wagon types of the body and
    the custom labels of the body or, when it gives none, the stored ones;
    repeating the same PUT changes neither tenant nor configuration again.
    After the second variant, GET shows logo and colour merged in the same
    way and the configuration exactly as the body gives it.  A body without
    wagon count or wagon types is answered 500 by both variants: the first
    rolls back, also the tenant update; the second keeps its client with the
    transaction open, and nothing is committed. *)
Theorem configuration_write_then_read (u : option User) (id : string)
    (b : ConfigurationBody) (t : Tenant) (d : Db) :
  tenants d !! id = Some t →
  (∀ count types,
     body_wagon_count b = Some count →
     body_wagon_types b = Some types →
     truthy types = true →
     let d1 := db_after (put_configuration_v1 no_fault u id b) d in
     let d2 := db_after (put_configuration_v2 no_fault id b) d in
     status_of (put_configuration_v1 no_fault u id b) d = 200%nat
     ∧ answer_of (get_configuration_v1 no_fault id) d1
       = Ret (Sent (merged_tenant b t,
                    Some (mkTrainConfiguration count types
                            (merged_labels b (train_configurations d !! id)))))
     ∧ tenants (db_after (put_configuration_v1 no_fault u id b) d1) = tenants d1
     ∧ train_configurations (db_after (put_configuration_v1 no_fault u id b) d1)
       = train_configurations d1
     ∧ status_of (put_configuration_v2 no_fault id b) d = 200%nat
     ∧ answer_of (get_configuration_v2 no_fault id) d2
       = Ret (Sent (recoloured_tenant b t,
                    Some (mkTrainConfiguration count types (body_custom_labels b)))))
  ∧ (body_wagon_count b = None ∨ stringify_if_truthy (body_wagon_types b) = None →
     status_of (put_configuration_v1 no_fault u id b) d = 500%nat
     ∧ rolled_back (put_configuration_v1 no_fault u id b) d)
  ∧ (body_wagon_count b = None ∨ body_wagon_types b = None →
     status_of (put_configuration_v2 no_fault id b) d = 500%nat
     ∧ db_after (put_configuration_v2 no_fault id b) d = d
     ∧ held (world_after (put_configuration_v2 no_fault id b) d) = 1%nat
     ∧ tx (world_after (put_configuration_v2 no_fault id b) d) = Some d).
Proof.
  intros Ht. split; [|split].
  - intros count types Hc Hty Htr d1 d2.
    assert (Halter : ∀ (f : Tenant → Tenant),
              alter f id (tenants d) = <[id := f t]> (tenants d)).
    { intros f. apply map_eq. intros i. destruct (decide (id = i)) as [<-|Hne].
      - rewrite lookup_alter_eq, lookup_insert_eq, Ht. reflexivity.
      - rewrite lookup_alter_ne, lookup_insert_ne by exact Hne. reflexivity. }
    (* the first variant *)
    assert (Hup : is_Some (tenants (snd (update_tenant_v1 b id d)) !! id)).
    { simpl. rewrite lookup_alter_eq, Ht. eexists. reflexivity. }
    apply (upsert_configuration_v1_ok b id count types) in Hup; [|assumption..].
    destruct (put_configuration_v1_effect u id b d _ Hup) as [Hst1 Hd1].
    fold d1 in Hd1.
    assert (Htn : tenants d1 = <[id := merged_tenant b t]> (tenants d)).
    { rewrite Hd1. simpl. apply Halter. }
    assert (Htc : train_configurations d1
                  = <[id := mkTrainConfiguration count types
                              (merged_labels b (train_configurations d !! id))]>
                      (train_configurations d)).
    { rewrite Hd1. reflexivity. }
    (* the first variant again *)
    assert (Hup' : is_Some (tenants (snd (update_tenant_v1 b id d1)) !! id)).
    { simpl. rewrite lookup_alter_eq, Htn, lookup_insert_eq. eexists. reflexivity. }
    apply (upsert_configuration_v1_ok b id count types) in Hup'; [|assumption..].
    destruct (put_configuration_v1_effect u id b d1 _ Hup') as [_ Hd1'].
    (* the second variant *)
    assert (Hup2 : is_Some (tenants (snd (update_tenant_v2 b id d)) !! id)).
    { simpl. rewrite lookup_alter_eq, Ht. eexists. reflexivity. }
    apply (upsert_configuration_v2_ok b id count types) in Hup2; [|assumption..].
    destruct (put_configuration_v2_effect id b d _ Hup2) as [Hst2 Hd2].
    fold d2 in Hd2.
    clearbody d1 d2.
    split; [exact Hst1|]. split; [|split; [|split; [|split; [exact Hst2|]]]].
    + unfold get_configuration_v1. run_all. rewrite Htn, lookup_insert_eq. simpl.
      rewrite Htc, lookup_insert_eq. reflexivity.
    + rewrite Hd1'. simpl. rewrite Htn.
      apply map_eq. intros i. destruct (decide (id = i)) as [<-|Hne].
      * rewrite lookup_alter_eq, lookup_insert_eq. simpl. f_equal.
        apply merged_tenant_twice.
      * rewrite lookup_alter_ne by exact Hne. reflexivity.
    + rewrite Hd1'. simpl. rewrite Htc, lookup_insert_eq, insert_insert_eq.
      f_equal. f_equal. unfold merged_labels. simpl. apply coalesce_twice.
    + subst d2. unfold get_configuration_v2. run_all.
      rewrite lookup_alter_eq, Ht, lookup_insert_eq. reflexivity.
  - intros Hnull. apply put_configuration_v1_rejected.
    unfold upsert_configuration_v1, upsert_configuration.
    destruct Hnull as [-> | ->]; [reflexivity|].
    destruct (body_wagon_count b); reflexivity.
  - intros Hnull. apply put_configuration_v2_rejected.
    unfold upsert_configuration_v2, upsert_configuration.
    destruct Hnull as [-> | ->]; [reflexivity|].
    destruct (body_wagon_count b); reflexivity.
Qed.

Lemma configuration_write_then_read_witness :
  answer_of (get_configuration_v1 no_fault "default")
    (db_after (put_configuration_v1 no_fault None "default" Examples.three_wagons)
       Examples.fleet)
  = Ret (Sent (mkTenant "Öresundståg" None (Some "#112233") (Some "sv"),
               Some (mkTrainConfiguration 3
                       (JArr [JStr "M43 Hytt"; JStr "T47 Salong"; JStr "M45 Hytt"])
                       None)))
  ∧ status_of (put_configuration_v1 no_fault None "default" Examples.colour_only)
      Examples.fleet = 500%nat.
Proof.
  destruct (configuration_write_then_read None "default" Examples.three_wagons
              (mkTenant "Öresundståg" None (Some "#3B82F6") (Some "sv"))
              Examples.fleet eq_refl) as [Hwrite _].
  destruct (configuration_write_then_read None "default" Examples.colour_only
              (mkTenant "Öresundståg" None (Some "#3B82F6") (Some "sv"))
              Examples.fleet eq_refl) as (_ & Hnull & _).
  destruct (Hwrite 3%Z _ eq_refl eq_refl eq_refl) as (_ & Hread & _).
  split; [exact Hread|]. apply Hnull. left. reflexivity.
Defined.

End AggregateRoutesFacts.

(** ** Token splitting, sources of a chat answer, mapping updates *)

Module ServerMoreFacts.
Import Js Server ServerSpec.

Lemma split_on_cons (sep : ascii) (s : string) :
  ∃ piece pieces, split_on sep s = piece :: pieces.
Proof.
  induction s as [|c s IH]; simpl; [eauto|].
  destruct (Ascii.eqb c sep); [eauto|].
  destruct IH as (piece & pieces & ->). eauto.
Qed.

Lemma join_cons_cons (sep : ascii) (p q : string) (rest : list string) :
  join sep (p :: q :: rest) = p ++ String sep (join sep (q :: rest)).
Proof. reflexivity. Qed.

(** Splitting loses nothing: joining the pieces with the separator gives the
    string back, no piece contains the separator, and there is always at
    least one piece. *)
Theorem split_on_join (sep : ascii) (s : string) :
  join sep (split_on sep s) = s
  ∧ Forall (free_of sep) (split_on sep s)
  ∧ split_on sep s ≠ [].
Proof.
  split; [|split].
  - induction s as [|c s IH]; [reflexivity|].
    destruct (split_on_cons sep s) as (piece & pieces & Hs).
    simpl split_on. rewrite Hs in *.
    destruct (Ascii.eqb c sep) eqn:Hc.
    + apply Ascii.eqb_eq in Hc as ->. rewrite join_cons_cons, IH. reflexivity.
    + destruct pieces as [|p ps].
      * simpl in *. rewrite IH. reflexivity.
      * rewrite join_cons_cons. rewrite join_cons_cons in IH. rewrite <- IH.
        reflexivity.
  - induction s as [|c s IH]; simpl.
    + constructor; [exact I|constructor].
    + destruct (Ascii.eqb_spec c sep) as [->|Hne].
      * constructor; [exact I|exact IH].
      * destruct (split_on sep s) as [|piece pieces].
        -- constructor; [split; [exact Hne|exact I]|constructor].
        -- inversion IH as [|? ? Hp Hps]; subst.
           constructor; [split; assumption|assumption].
  - destruct (split_on_cons sep s) as (piece & pieces & ->). discriminate.
Qed.

Lemma split_on_free (sep : ascii) (s : string) :
  free_of sep s → split_on sep s = [s].
Proof.
  induction s as [|c s IH]; simpl; [reflexivity|].
  intros [Hne Hfree]. destruct (Ascii.eqb_spec c sep) as [->|_]; [contradiction|].
  rewrite (IH Hfree). reflexivity.
Qed.

Lemma split_on_app (sep : ascii) (s rest : string) :
  free_of sep s →
  split_on sep (s ++ String sep rest) = s :: split_on sep rest.
Proof.
  induction s as [|c s IH]; simpl.
  - intros _. rewrite Ascii.eqb_refl. reflexivity.
  - intros [Hne Hfree]. destruct (Ascii.eqb_spec c sep) as [->|_]; [contradiction|].
    rewrite (IH Hfree). reflexivity.
Qed.

Lemma substring_all (s : string) : String.substring 0 (String.length s) s = s.
Proof. induction s as [|c s IH]; simpl; [reflexivity|]. rewrite IH. reflexivity. Qed.

Lemma substring_from_bearer (token : string) :
  substring_from 7 ("Bearer " ++ token) = token.
Proof.
  unfold substring_from. simpl. change ("" ++ token) with token.
  rewrite Nat.sub_0_r. apply substring_all.
Qed.

Lemma prefix_bearer (token : string) : String.prefix "Bearer " ("Bearer " ++ token) = true.
Proof. simpl. change ("" ++ token) with token. destruct token; reflexivity. Qed.

Section Tokens.

Variable base64_utf8 : string → string.
Variable JSON_parse : string → option JValue.
Variable config_tenantId : string.

(** The hook reads the second segment of the token and nothing else: for a
    three-part bearer token it lets the request through, and the identity it
    installs is the same for every header segment and every signature
    segment. *)
Theorem authenticate_reads_payload_only (header header' payload signature signature'
    : string) :
  free_of "." header → free_of "." header' → free_of "." payload →
  (∃ user, authenticate base64_utf8 JSON_parse config_tenantId
             (Some (bearer header payload signature)) = Authenticated user)
  ∧ authenticate base64_utf8 JSON_parse config_tenantId
      (Some (bearer header payload signature))
    = authenticate base64_utf8 JSON_parse config_tenantId
        (Some (bearer header' payload signature'))
  ∧ split_on "." (header ++ "." ++ payload ++ "." ++ signature) !! 1%nat = Some payload.
Proof.
  intros Hh Hh' Hp.
  assert (Hseg : ∀ h sig, free_of "." h →
            split_on "." (h ++ "." ++ payload ++ "." ++ sig) !! 1%nat = Some payload).
  { intros h sig Hfree.
    change (h ++ "." ++ payload ++ "." ++ sig)
      with (h ++ String "." (payload ++ String "." sig)).
    rewrite (split_on_app "." h _ Hfree). simpl.
    rewrite (split_on_app "." payload _ Hp). reflexivity. }
  assert (Hauth : ∀ h sig,
            authenticate base64_utf8 JSON_parse config_tenantId (Some (bearer h payload sig))
            = match user_of_token base64_utf8 JSON_parse config_tenantId
                      (h ++ "." ++ payload ++ "." ++ sig) with
              | Some user => Authenticated user
              | None => Authenticated (development_user config_tenantId)
              end).
  { intros h sig. unfold authenticate, bearer.
    rewrite prefix_bearer, substring_from_bearer. reflexivity. }
  assert (Htoken : ∀ h sig, free_of "." h →
            user_of_token base64_utf8 JSON_parse config_tenantId
              (h ++ "." ++ payload ++ "." ++ sig)
            = user_of_token base64_utf8 JSON_parse config_tenantId ("." ++ payload)).
  { intros h sig Hfree. unfold user_of_token. rewrite (Hseg h sig Hfree).
    change ("." ++ payload) with ("" ++ String "." payload).
    rewrite (split_on_app "." "" payload I), (split_on_free "." payload Hp).
    reflexivity. }
  split; [|split].
  - rewrite Hauth.
    destruct (user_of_token base64_utf8 JSON_parse config_tenantId
                (header ++ "." ++ payload ++ "." ++ signature));
      eexists; reflexivity.
  - rewrite !Hauth, (Htoken header signature Hh), (Htoken header' signature' Hh').
    reflexivity.
  - apply Hseg, Hh.
Qed.

End Tokens.

Lemma authenticate_reads_payload_only_witness :
  authenticate id Examples.toy_parse "tid-0" (Some (bearer "aaa" "{}" "zzz"))
  = authenticate id Examples.toy_parse "tid-0" (Some (bearer "bbb" "{}" "")).
Proof.
  apply (proj1 (proj2 (authenticate_reads_payload_only id Examples.toy_parse "tid-0"
                         "aaa" "bbb" "{}" "zzz" ""
                         ltac:(repeat split; discriminate)
                         ltac:(repeat split; discriminate)
                         ltac:(repeat split; discriminate)))).
Defined.


(** *** Sources of a chat answer *)

Lemma existsb_eqb_elem (x : string) (l : list string) :
  existsb (String.eqb x) l = true ↔ x ∈ l.
Proof.
  induction l as [|y l IH]; simpl.
  - split; [discriminate|]. intros H. inversion H.
  - rewrite orb_true_iff, IH, elem_of_cons.
    split; (intros [H|H]; [left|right; exact H]).
    + apply String.eqb_eq, H.
    + apply String.eqb_eq, H.
Qed.

Lemma add_results_sources (idx : nat) (results : list SearchResult) (context : string)
    (acc : list string) :
  NoDup acc →
  NoDup (add_results idx results context acc).2
  ∧ (∀ s, s ∈ (add_results idx results context acc).2 ↔ s ∈ acc ∨ s ∈ source <$> results)
  ∧ (length (add_results idx results context acc).2 ≤ length acc + length results)%nat.
Proof.
  revert idx context acc.
  induction results as [|r results IH]; intros idx context acc Hnd; simpl.
  - split; [exact Hnd|]. split; [|lia]. intros s. split; [auto|].
    intros [H|H]; [exact H|inversion H].
  - destruct (existsb (String.eqb (source r)) acc) eqn:Hin.
    + apply existsb_eqb_elem in Hin.
      destruct (IH (S idx)
                  (context ++ "[" ++ pretty (S idx) ++ "] " ++ result_content r ++ nl ++ nl)
                  acc Hnd) as (Hnd' & Hmem & Hlen).
      split; [exact Hnd'|]. split; [|lia].
      intros s. rewrite Hmem, elem_of_cons. split.
      * intros [H|H]; auto.
      * intros [H|[->|H]]; auto.
    + assert (Hnot : source r ∉ acc).
      { intros H. apply existsb_eqb_elem in H. congruence. }
      assert (Hnd2 : NoDup (acc ++ [source r])).
      { apply NoDup_app. split; [exact Hnd|]. split; [|apply NoDup_singleton].
        intros x Hx Hx'. apply list_elem_of_singleton in Hx'. subst. contradiction. }
      destruct (IH (S idx)
                  (context ++ "[" ++ pretty (S idx) ++ "] " ++ result_content r ++ nl ++ nl)
                  (acc ++ [source r])%list Hnd2) as (Hnd' & Hmem & Hlen).
      split; [exact Hnd'|]. split.
      * intros s. rewrite Hmem, elem_of_app, list_elem_of_singleton, elem_of_cons.
        tauto.
      * rewrite length_app in Hlen. simpl in Hlen. lia.
Qed.

Lemma searchDocuments_sources_nonempty (searchClient : option SearchClient)
    (query : option JValue) (top : nat) :
  "" ∉ source <$> searchDocuments searchClient query top.
Proof.
  unfold searchDocuments. destruct searchClient as [client|]; [|inversion 1].
  destruct (client query top) as [documents|]; [|inversion 1].
  intros Hin. apply list_elem_of_fmap in Hin as (r & Hr & Hin).
  apply list_elem_of_fmap in Hin as (doc & -> & _). simpl in Hr.
  unfold str_or in Hr. destruct (metadata_storage_name doc) as [nm|]; [|discriminate].
  destruct (String.eqb_spec nm ""); [discriminate|congruence].
Qed.

(** The sources of a chat answer are the sources of the search hits, each
    listed once and none empty (a hit without a name counts as "Unknown"), so
    there are at most as many sources as hits; and the answer cites no source
    exactly when the search found nothing. *)
Theorem chat_sources_deduplicated (to_text : option JValue → string)
    (code_points : string → list string) (searchClient : option SearchClient)
    (openAIClient : option OpenAIClient) (user : UserInfo) (body : option JValue) :
  match chat to_text code_points searchClient openAIClient user body with
  | ChatOk response =>
      NoDup (sources response)
      ∧ (∀ s, s ∈ sources response
              ↔ s ∈ source <$> searchDocuments searchClient (message_of body) 3)
      ∧ ("" ∉ sources response)
      ∧ (length (sources response)
         ≤ length (searchDocuments searchClient (message_of body) 3))%nat
      ∧ (sources response = []
         ↔ searchDocuments searchClient (message_of body) 3 = [])
  | ChatFailed _ _ => True
  end.
Proof.
  assert (Hctx : ∀ results,
    NoDup (build_context results).2
    ∧ (∀ s, s ∈ (build_context results).2 ↔ s ∈ source <$> results)
    ∧ (length (build_context results).2 ≤ length results)%nat).
  { intros results. unfold build_context. destruct results as [|r results].
    - simpl. split; [constructor|]. split; [reflexivity|lia].
    - destruct (add_results_sources 0 (r :: results)
                  ("Relevant information from documentation:" ++ nl ++ nl) []
                  (@NoDup_nil_2 string)) as (Hnd & Hmem & Hlen).
      split; [exact Hnd|]. split; [|exact Hlen].
      intros s. rewrite Hmem. split; [intros [H|H]; [inversion H|exact H]|auto]. }
  unfold chat, message_of.
  destruct (destructure body) as [[message history]|]; [|exact I].
  pose proof (searchDocuments_sources_nonempty searchClient message 3) as Hnonempty.
  specialize (Hctx (searchDocuments searchClient message 3)).
  destruct (build_context (searchDocuments searchClient message 3)) as [context srcs].
  simpl in Hctx. destruct Hctx as (Hnd & Hmem & Hlen).
  assert (Hall : NoDup srcs
    ∧ (∀ s, s ∈ srcs ↔ s ∈ source <$> searchDocuments searchClient message 3)
    ∧ ("" ∉ srcs)
    ∧ (length srcs ≤ length (searchDocuments searchClient message 3))%nat
    ∧ (srcs = [] ↔ searchDocuments searchClient message 3 = [])).
  { split; [exact Hnd|]. split; [exact Hmem|]. split; [rewrite Hmem; exact Hnonempty|].
    split; [exact Hlen|]. split.
    - intros ->. destruct (searchDocuments searchClient message 3) as [|r rs];
        [reflexivity|].
      exfalso. assert (Hin : source r ∈ @nil string)
        by (apply Hmem; simpl; left). inversion Hin.
    - intros Hnil. rewrite Hnil in Hlen. simpl in Hlen.
      destruct srcs; [reflexivity|simpl in Hlen; lia]. }
  destruct (match openAIClient with Some _ => _ | None => _ end); [|exact I].
  destruct (spread code_points history); [exact Hall|exact I].
Qed.

Example chat_sources_example :
  let hits := [mkSearchDocument (Some "Check the fuse.") (Some "manual.pdf") (Some 2%Z);
               mkSearchDocument (Some "Reset the breaker.") None None;
               mkSearchDocument None (Some "manual.pdf") (Some 1%Z)] in
  match chat Examples.toy_text Examples.toy_code_points (Some (λ _ _, Some hits)) None
          Examples.test_user (Examples.ask "fuse") with
  | ChatOk response => sources response = ["manual.pdf"; "Unknown"]
  | ChatFailed _ _ => False
  end.
Proof. reflexivity. Qed.

End ServerMoreFacts.

(** ** Updating the tenant mapping table *)

Module TenantMappingMoreFacts.
Import Js TenantMapping.

Lemma find_app_first {A} (p : A → bool) (l1 l2 : list A) :
  List.find p (l1 ++ l2)
  = match List.find p l1 with Some x => Some x | None => List.find p l2 end.
Proof.
  induction l1 as [|x l1 IH]; simpl; [reflexivity|].
  destruct (p x); [reflexivity|exact IH].
Qed.

Lemma findIndex_lookup (azure : string) (tm : list TenantMapping) (i : nat) :
  findIndex azure tm = Some i →
  ∃ m, tm !! i = Some m ∧ azureTenantId m = azure.
Proof.
  revert i. induction tm as [|m tm IH]; simpl; intros i Hfind; [discriminate|].
  destruct (String.eqb_spec (azureTenantId m) azure) as [Heq|Hne].
  - injection Hfind as <-. eauto.
  - destruct (findIndex azure tm) as [j|]; [|discriminate].
    simpl in Hfind. injection Hfind as <-. apply IH. reflexivity.
Qed.

Lemma findIndex_None_iff (azure : string) (tm : list TenantMapping) :
  findIndex azure tm = None ↔ azure ∉ azureTenantId <$> tm.
Proof.
  induction tm as [|m tm IH]; simpl.
  - split; [intros _ H; inversion H|reflexivity].
  - rewrite not_elem_of_cons.
    destruct (String.eqb_spec (azureTenantId m) azure) as [Heq|Hne].
    + split; [discriminate|]. intros [H _]. congruence.
    + destruct (findIndex azure tm) as [j|]; simpl.
      * split; [discriminate|]. intros [_ H]. apply IH in H. discriminate.
      * split; [|reflexivity]. intros _. split; [congruence|]. apply IH. reflexivity.
Qed.

Lemma findIndex_snoc (m : TenantMapping) (tm : list TenantMapping) :
  findIndex (azureTenantId m) tm = None →
  findIndex (azureTenantId m) (tm ++ [m]) = Some (length tm).
Proof.
  induction tm as [|m' tm IH]; simpl.
  - rewrite String.eqb_refl. reflexivity.
  - destruct (String.eqb (azureTenantId m') (azureTenantId m)); [discriminate|].
    destruct (findIndex (azureTenantId m) tm); [discriminate|].
    intros _. rewrite IH by reflexivity. reflexivity.
Qed.

Lemma keys_after_add (tm : list TenantMapping) (m : TenantMapping) :
  azureTenantId <$> addTenantMapping tm m
  = if bool_decide (azureTenantId m ∈ azureTenantId <$> tm)
    then azureTenantId <$> tm
    else ((azureTenantId <$> tm) ++ [azureTenantId m])%list.
Proof.
  unfold addTenantMapping.
  destruct (findIndex (azureTenantId m) tm) as [i|] eqn:Hidx.
  - destruct (findIndex_lookup _ _ _ Hidx) as (m0 & Hlook & Hkey).
    rewrite bool_decide_true.
    + rewrite list_fmap_insert. apply list_insert_id.
      rewrite list_lookup_fmap, Hlook. simpl. congruence.
    + apply list_elem_of_fmap. exists m0. split; [congruence|].
      eapply list_elem_of_lookup_2. exact Hlook.
  - rewrite bool_decide_false by (apply findIndex_None_iff; exact Hidx).
    rewrite fmap_app. reflexivity.
Qed.

(** [addTenantMapping] is an upsert by external id: the resolution of every
    other external id is unchanged; the table keeps its size when the id is
    known and grows by one otherwise; external ids that were distinct stay
    distinct; and adding the same mapping twice is the same as adding it
    once. *)
Theorem addTenantMapping_upsert (tm : list TenantMapping) (m : TenantMapping) :
  (∀ azure, azure ≠ azureTenantId m →
     getDbTenantId (addTenantMapping tm m) azure = getDbTenantId tm azure)
  ∧ length (addTenantMapping tm m)
    = (if bool_decide (azureTenantId m ∈ azureTenantId <$> tm)
       then length tm else S (length tm))
  ∧ (NoDup (azureTenantId <$> tm) → NoDup (azureTenantId <$> addTenantMapping tm m))
  ∧ addTenantMapping (addTenantMapping tm m) m = addTenantMapping tm m.
Proof.
  split; [|split; [|split]].
  - intros azure Hne. unfold addTenantMapping, getDbTenantId.
    destruct (findIndex (azureTenantId m) tm) as [i|] eqn:Hidx.
    + destruct (findIndex_lookup _ _ _ Hidx) as (m0 & Hlook & Hkey).
      rewrite insert_take_drop by (eapply lookup_lt_Some; exact Hlook).
      rewrite <- (take_drop_middle tm i m0 Hlook) at 3.
      rewrite !find_app_first. simpl.
      destruct (String.eqb_spec (azureTenantId m) azure); [congruence|].
      destruct (String.eqb_spec (azureTenantId m0) azure); [congruence|].
      reflexivity.
    + rewrite find_app_first. simpl.
      destruct (String.eqb_spec (azureTenantId m) azure); [congruence|].
      destruct (List.find _ tm); reflexivity.
  - pose proof (keys_after_add tm m) as Hkeys.
    apply (f_equal length) in Hkeys. rewrite length_fmap in Hkeys. rewrite Hkeys.
    destruct (bool_decide _); [apply length_fmap|].
    rewrite length_app, length_fmap. simpl. lia.
  - intros Hnd. rewrite keys_after_add.
    destruct (bool_decide (azureTenantId m ∈ azureTenantId <$> tm)) eqn:Hin;
      [exact Hnd|].
    apply bool_decide_eq_false in Hin.
    apply NoDup_app. split; [exact Hnd|]. split; [|apply NoDup_singleton].
    intros x Hx Hx'. apply list_elem_of_singleton in Hx'. subst. contradiction.
  - unfold addTenantMapping at 2 3.
    destruct (findIndex (azureTenantId m) tm) as [i|] eqn:Hidx.
    + destruct (findIndex_lookup _ _ _ Hidx) as (m0 & Hlook & Hkey).
      assert (Hidx' : findIndex (azureTenantId m) (<[i:=m]> tm) = Some i).
      { clear Hkey m0 Hlook. revert i Hidx.
        induction tm as [|m' tm IH]; simpl; intros i Hidx; [discriminate|].
        destruct (String.eqb (azureTenantId m') (azureTenantId m)) eqn:Heq.
        - injection Hidx as <-. simpl. rewrite String.eqb_refl. reflexivity.
        - destruct (findIndex (azureTenantId m) tm) as [j|]; [|discriminate].
          simpl in Hidx. injection Hidx as <-. simpl. rewrite Heq.
          rewrite (IH j eq_refl). reflexivity. }
      unfold addTenantMapping. rewrite Hidx'. apply list_insert_insert_eq.
    + unfold addTenantMapping. rewrite (findIndex_snoc m tm Hidx).
      rewrite insert_app_r_alt by lia. rewrite Nat.sub_diag. reflexivity.
Qed.

Lemma addTenantMapping_upsert_witness :
  getDbTenantId
    (addTenantMapping DEFAULT_TENANT_MAPPINGS (mkTenantMapping "azure-2" "snalltaget" "S"))
    "71416bf2-04a4-4715-a8d2-6af239168e20"
  = "default".
Proof.
  rewrite (proj1 (addTenantMapping_upsert DEFAULT_TENANT_MAPPINGS
                    (mkTenantMapping "azure-2" "snalltaget" "S"))
             "71416bf2-04a4-4715-a8d2-6af239168e20" ltac:(discriminate)).
  reflexivity.
Defined.

End TenantMappingMoreFacts.

(** ** Trains and wagons *)

Module FleetFacts.
Import Js Store Routes AggregateRoutes Fleet FleetSpec.

Ltac frun :=
  unfold fleet_after, fleet_answer, fleet_world, fleet_start,
    ftry_finally, ftry_catch, fconnect, frelease, fBEGIN, fCOMMIT, fROLLBACK,
    fquery, fthrow, fbind, fret, fleet_committed, no_fault, fault_at; simpl.

(** *** The loop over the wagon types *)

(** Whatever fails, the loop leaves the transaction and the client as they
    were. *)
Lemma insert_wagons_keeps_tx fault make i types w :
  fleet_tx (insert_wagons fault make i types w).2 = fleet_tx w
  ∧ fleet_held (insert_wagons fault make i types w).2 = fleet_held w.
Proof.
  revert i w. induction types as [|type rest IH]; intros i w; simpl.
  - split; reflexivity.
  - unfold fbind, fquery. destruct (fault (fleet_issued w)); simpl; [split; reflexivity|].
    unfold insert_wagon.
    destruct (wagons (fleet_db w) !! next_wagon (sequences w)); simpl;
      [split; reflexivity|].
    destruct (IH (S i) (mkFleetWorld
                (mkFleetDb (core (fleet_db w)) (trains (fleet_db w))
                   (<[next_wagon (sequences w) := make i type]> (wagons (fleet_db w))))
                (fleet_tx w) (fleet_held w) (S (fleet_issued w))
                (mkSequences (next_train (sequences w)) (next_wagon (sequences w) + 1))))
      as [Htx Hheld].
    split; [exact Htx|exact Hheld].
Qed.

Lemma add_wagons_lookup (rows : list (Z * Wagon)) (m : gmap Z Wagon) (id : Z) :
  NoDup rows.*1 →
  add_wagons rows m !! id
  = match (list_to_map rows : gmap Z Wagon) !! id with
    | Some w => Some w
    | None => m !! id
    end.
Proof.
  revert m. induction rows as [|[k r] rows IH]; intros m Hnd; simpl.
  - rewrite lookup_empty. reflexivity.
  - apply NoDup_cons in Hnd as [Hk Hnd]. unfold add_wagons in *. simpl.
    rewrite IH by exact Hnd.
    destruct (decide (k = id)) as [->|Hne].
    + rewrite !lookup_insert_eq.
      rewrite (not_elem_of_list_to_map_1 _ id Hk). reflexivity.
    + rewrite !lookup_insert_ne by exact Hne. reflexivity.
Qed.

Lemma new_wagons_keys make first i types :
  (new_wagons make first i types).*1 = (λ k, first + Z.of_nat k)%Z <$> seq 0 (length types).
Proof.
  revert first i. induction types as [|type rest IH]; intros first i; simpl; [reflexivity|].
  rewrite Z.add_0_r. f_equal. rewrite IH, <- fmap_S_seq, <- list_fmap_compose.
  apply list_fmap_ext. intros _ k _. simpl. lia.
Qed.

Lemma new_wagons_key_range make first i types id w :
  (id, w) ∈ new_wagons make first i types →
  (first ≤ id < first + Z.of_nat (length types))%Z.
Proof.
  intros Hin. assert (Hk : id ∈ (new_wagons make first i types).*1).
  { apply list_elem_of_fmap. exists (id, w). split; [reflexivity|exact Hin]. }
  rewrite new_wagons_keys in Hk. apply list_elem_of_fmap in Hk as (k & -> & Hk).
  apply elem_of_seq in Hk. lia.
Qed.

Lemma new_wagons_NoDup make first i types :
  NoDup (new_wagons make first i types).*1.
Proof.
  rewrite new_wagons_keys. apply NoDup_fmap_2; [|apply NoDup_seq].
  intros a b Hab. lia.
Qed.

(** Without faults, with the wagon sequence ahead of the table, the loop
    inserts every wagon. *)
Lemma insert_wagons_ok make i types w :
  (∀ id, (next_wagon (sequences w) ≤ id)%Z → wagons (fleet_db w) !! id = None) →
  insert_wagons no_fault make i types w
  = (Ret tt,
     mkFleetWorld
       (mkFleetDb (core (fleet_db w)) (trains (fleet_db w))
          (add_wagons (new_wagons make (next_wagon (sequences w)) i types)
             (wagons (fleet_db w))))
       (fleet_tx w) (fleet_held w) (fleet_issued w + length types)
       (mkSequences (next_train (sequences w))
          (next_wagon (sequences w) + Z.of_nat (length types)))).
Proof.
  revert i w. induction types as [|type rest IH]; intros i w Hfresh.
  - simpl. unfold fret. destruct w as [[c t wg] tx h n [st sw]]. simpl.
    rewrite Nat.add_0_r, Z.add_0_r. reflexivity.
  - simpl. unfold fbind, fquery, no_fault, insert_wagon.
    rewrite (Hfresh (next_wagon (sequences w))) by lia. simpl.
    rewrite IH.
    + simpl. do 2 f_equal; [|f_equal; lia].
      f_equal; lia.
    + simpl. intros id Hid. rewrite lookup_insert_ne by lia. apply Hfresh. lia.
Qed.

(** *** Creating and configuring trains *)

Ltac loop_step Hloop :=
  match goal with
  | |- context [insert_wagons ?f ?mk ?i ?tys ?w] =>
      let Htx := fresh "Htx" in
      let Hheld := fresh "Hheld" in
      destruct (insert_wagons_keeps_tx f mk i tys w) as [Htx Hheld];
      destruct (insert_wagons f mk i tys w) as [[[]|] w2] eqn:Hloop;
      simpl in Htx, Hheld; simpl; try rewrite Htx; try rewrite Hheld; simpl
  end.

(** The three routes that create a train are all-or-nothing under every fault
    plan, also when the body names no wagon types: the client is released, the
    transaction is closed, and either the new train is returned or the answer
    is 500 and trains, wagons and audit trail are as before. *)
Theorem train_creation_all_or_nothing (fault : nat → bool) (u : option User)
    (number name : string) (operator : option string) (wagon_types : option (list string))
    (s : Sequences) (d : FleetDb) :
  all_or_nothing (create_train fault number name operator) s d
  ∧ all_or_nothing (configure_v1 fault u number name operator wagon_types) s d
  ∧ all_or_nothing (configure_v2 fault u number name operator wagon_types) s d.
Proof.
  unfold all_or_nothing.
  split; [|split].
  - unfold create_train. generalize X31_LAYOUT. intros layout. frun.
    destruct (fault 0%nat); simpl; [eauto 10|].
    unfold insert_train. destruct (trains d !! next_train s); simpl; [eauto 10|].
    loop_step Hloop; eauto 10.
  - unfold configure_v1. frun.
    destruct (fault 0%nat); simpl; [eauto 10|].
    unfold insert_train. destruct (trains d !! next_train s); simpl; [eauto 10|].
    destruct wagon_types as [types|]; simpl; [|eauto 10].
    loop_step Hloop; [|eauto 10].
    destruct (fault (fleet_issued w2)); simpl; rewrite ?Htx, ?Hheld; simpl; eauto 10.
  - unfold configure_v2. frun.
    destruct (fault 0%nat); simpl; [eauto 10|].
    unfold insert_train. destruct (trains d !! next_train s); simpl; [eauto 10|].
    destruct wagon_types as [types|]; simpl; [|eauto 10].
    loop_step Hloop; [|eauto 10].
    destruct (fault (fleet_issued w2)); simpl; rewrite ?Htx, ?Hheld; simpl; eauto 10.
Qed.


(** *** The wagons of a new train *)

Lemma new_wagons_elem make first i types id w :
  (id, w) ∈ new_wagons make first i types ↔
  ∃ k type, types !! k = Some type
            ∧ id = (first + Z.of_nat k)%Z ∧ w = make (i + k)%nat type.
Proof.
  revert first i. induction types as [|t rest IH]; intros first i; simpl.
  - split; [intros H; inversion H|intros (k & type & H & _); discriminate].
  - rewrite elem_of_cons, IH. split.
    + intros [[= -> ->]|(k & type & Hk & -> & ->)].
      * exists 0%nat, t. rewrite Z.add_0_r, Nat.add_0_r. auto.
      * exists (S k), type. split; [exact Hk|]. split; [lia|f_equal; lia].
    + intros (k & type & Hk & -> & ->). destruct k as [|k]; simpl in Hk.
      * injection Hk as ->. left. rewrite Z.add_0_r, Nat.add_0_r. reflexivity.
      * right. exists k, type. split; [exact Hk|]. split; [lia|f_equal; lia].
Qed.

Lemma new_wagons_length make first i types :
  length (new_wagons make first i types) = length types.
Proof.
  revert first i. induction types as [|t rest IH]; intros first i; simpl; [reflexivity|].
  rewrite IH. reflexivity.
Qed.

Lemma numbered_v1 train : numbered train (wagon_v1 train).
Proof. intros i type. repeat split. Qed.

Lemma numbered_v2 train number : numbered train (wagon_v2 train number).
Proof. intros i type. repeat split. Qed.

Lemma new_wagons_labels train make first i types :
  numbered train make →
  (λ r : Z * Wagon, (position r.2, wagon_type r.2)) <$> new_wagons make first i types
  = imap (λ k type, (Z.of_nat (i + k) + 1, type)%Z) types.
Proof.
  intros Hmk. revert first i. induction types as [|t rest IH]; intros first i; simpl;
    [reflexivity|].
  destruct (Hmk i t) as (_ & Hpos & Hty). rewrite Hpos, Hty, Nat.add_0_r. f_equal.
  rewrite IH. apply imap_ext. intros k type _. simpl. f_equal. lia.
Qed.

Lemma new_wagons_sorted train make first i types :
  numbered train make →
  Sorted by_position (new_wagons make first i types).
Proof.
  intros Hmk. revert first i. induction types as [|t rest IH]; intros first i; simpl.
  - constructor.
  - constructor; [apply IH|].
    destruct rest as [|t' rest']; simpl; constructor.
    unfold by_position. simpl.
    destruct (Hmk i t) as (_ & -> & _). destruct (Hmk (S i) t') as (_ & -> & _). lia.
Qed.

#[local] Instance by_position_total : Total by_position.
Proof. intros x y. unfold by_position. lia. Qed.

#[local] Instance by_position_trans : Transitive by_position.
Proof. intros x y z. unfold by_position. lia. Qed.

Lemma bind_no_aggregates (d : FleetDb) (rows : list (Z * Wagon)) :
  (∀ w, w ∈ rows →
     filter (λ r : Z * Aggregate, current_wagon_id r.2 = Some w.1) (aggregates (core d))
     = ∅) →
  rows ≫= join_aggregates d = (λ w, (w, None)) <$> rows.
Proof.
  induction rows as [|w rows IH]; intros Hfree; [reflexivity|].
  rewrite bind_cons, fmap_cons, IH.
  - unfold join_aggregates at 1. rewrite Hfree by left. rewrite map_to_list_empty.
    reflexivity.
  - intros w' Hw'. apply Hfree. right. exact Hw'.
Qed.

(** Reading the wagons of a train whose wagons are exactly the rows [new_wagons]
    added to a table that knew neither the train nor these ids. *)
Lemma select_new_wagons (train first : Z) (make : nat → string → Wagon)
    (types : list string) (c : Db) (tr : gmap Z Train) (wg : gmap Z Wagon)
    (s : Sequences) :
  numbered train make →
  (∀ id w, wg !! id = Some w → wagon_train_id w ≠ train) →
  (∀ id, (first ≤ id)%Z → wg !! id = None) →
  (∀ id a wagon, aggregates c !! id = Some a → current_wagon_id a = Some wagon →
     (wagon < first)%Z) →
  let d' := mkFleetDb c tr (add_wagons (new_wagons make first 0 types) wg) in
  filter (λ r : Z * Wagon, wagon_train_id r.2 = train) (wagons d')
  = list_to_map (new_wagons make first 0 types)
  ∧ select_wagons train s d'
    = (Some ((λ w, (w, None)) <$> new_wagons make first 0 types), s, d').
Proof.
  intros Hmk Hother Hfresh Hagg d'.
  pose proof (new_wagons_NoDup make first 0 types) as Hnd.
  assert (Hfilter : filter (λ r : Z * Wagon, wagon_train_id r.2 = train) (wagons d')
                    = list_to_map (new_wagons make first 0 types)).
  { apply map_eq. intros id. apply option_eq. intros w.
    rewrite map_lookup_filter_Some. subst d'. simpl.
    rewrite add_wagons_lookup by exact Hnd.
    destruct (list_to_map (new_wagons make first 0 types) !! id) as [w'|] eqn:Hl.
    - split; [intros [H _]; exact H|]. intros [= <-]. split; [reflexivity|].
      apply elem_of_list_to_map in Hl; [|exact Hnd].
      apply new_wagons_elem in Hl as (k & type & _ & _ & ->). apply Hmk.
    - split; [|discriminate]. intros [Hw Htrain]. exfalso.
      exact (Hother id w Hw Htrain). }
  split; [exact Hfilter|].
  subst d'. unfold select_wagons. simpl in *. do 3 f_equal. rewrite Hfilter.
  assert (Hsorted :
    merge_sort by_position
      (map_to_list (list_to_map (new_wagons make first 0 types) : gmap Z Wagon))
    = new_wagons make first 0 types).
  { apply (Sorted_unique_strong by_position).
    - intros x1 x2 Hx1 Hx2 H12 H21.
      rewrite merge_sort_Permutation, map_to_list_to_map in Hx1 by exact Hnd.
      destruct x1 as [k1 w1], x2 as [k2 w2].
      apply new_wagons_elem in Hx1 as (i1 & t1 & Ht1 & -> & ->).
      apply new_wagons_elem in Hx2 as (i2 & t2 & Ht2 & -> & ->).
      unfold by_position in H12, H21. simpl in H12, H21.
      destruct (Hmk i1 t1) as (_ & Hp1 & _).
      destruct (Hmk i2 t2) as (_ & Hp2 & _).
      rewrite Hp1, Hp2 in H12, H21.
      assert (i1 = i2) by lia. subst i2. rewrite Ht1 in Ht2. injection Ht2 as ->.
      reflexivity.
    - apply Sorted_merge_sort. apply by_position_total.
    - eapply new_wagons_sorted. exact Hmk.
    - rewrite merge_sort_Permutation. apply map_to_list_to_map. exact Hnd. }
  rewrite Hsorted. apply bind_no_aggregates.
  intros [id w] Hin. simpl. apply map_empty. intros aid.
  apply map_lookup_filter_None. right. intros a Ha. simpl. intros Hw.
  apply new_wagons_key_range in Hin. specialize (Hagg aid a id Ha Hw). lia.
Qed.


(** *** Configuring, then reading *)

Lemma configure_v1_ok u number name operator types s d :
  ahead s d →
  fleet_answer (configure_v1 no_fault u number name operator (Some types)) s d
  = Ret (Sent (next_train s, train_v1 u number name operator))
  ∧ fleet_after (configure_v1 no_fault u number name operator (Some types)) s d
    = mkFleetDb
        (snd (insert_audit_log
                (created u number (next_train s)
                   (Some (JObj [("train_number", JStr number);
                                ("wagon_types", JArr (JStr <$> types))]))
                   (length types))
                (core d)))
        (<[next_train s := train_v1 u number name operator]> (trains d))
        (add_wagons (new_wagons (wagon_v1 (next_train s)) (next_wagon s) 0 types)
           (wagons d))
  ∧ sequences (fleet_world (configure_v1 no_fault u number name operator (Some types)) s d)
    = mkSequences (next_train s + 1) (next_wagon s + Z.of_nat (length types)).
Proof.
  intros (Htrain & Hwagon & _ & _). unfold configure_v1, train_v1, created.
  unfold fleet_after, fleet_answer, fleet_world, fleet_start,
    ftry_finally, ftry_catch, fconnect, frelease, fBEGIN, fCOMMIT, fROLLBACK,
    fquery, fthrow, fbind, fret, fleet_committed, insert_train. simpl.
  rewrite (Htrain (next_train s)) by lia. simpl.
  rewrite insert_wagons_ok by (simpl; exact Hwagon). simpl.
  repeat split.
Qed.

Lemma configure_v2_ok u number name operator types s d :
  ahead s d →
  fleet_answer (configure_v2 no_fault u number name operator (Some types)) s d
  = Ret (Sent (next_train s, train_v2 u number name operator))
  ∧ fleet_after (configure_v2 no_fault u number name operator (Some types)) s d
    = mkFleetDb
        (snd (insert_audit_log (created u number (next_train s) None (length types))
                (core d)))
        (<[next_train s := train_v2 u number name operator]> (trains d))
        (add_wagons (new_wagons (wagon_v2 (next_train s) number) (next_wagon s) 0 types)
           (wagons d))
  ∧ sequences (fleet_world (configure_v2 no_fault u number name operator (Some types)) s d)
    = mkSequences (next_train s + 1) (next_wagon s + Z.of_nat (length types)).
Proof.
  intros (Htrain & Hwagon & _ & _). unfold configure_v2, train_v2, created.
  unfold fleet_after, fleet_answer, fleet_world, fleet_start,
    ftry_finally, ftry_catch, fconnect, frelease, fBEGIN, fCOMMIT, fROLLBACK,
    fquery, fthrow, fbind, fret, fleet_committed, insert_train. simpl.
  rewrite (Htrain (next_train s)) by lia. simpl.
  rewrite insert_wagons_ok by (simpl; exact Hwagon). simpl.
  repeat split.
Qed.

Lemma create_train_ok number name operator s d :
  ahead s d →
  fleet_answer (create_train no_fault number name operator) s d
  = Ret (Sent (next_train s, train_v1 None number name operator))
  ∧ fleet_after (create_train no_fault number name operator) s d
    = mkFleetDb (core d)
        (<[next_train s := train_v1 None number name operator]> (trains d))
        (add_wagons (new_wagons (wagon_v1 (next_train s)) (next_wagon s) 0 X31_LAYOUT)
           (wagons d)).
Proof.
  intros (Htrain & Hwagon & _ & _). unfold create_train, train_v1.
  generalize X31_LAYOUT. intros layout.
  unfold fleet_after, fleet_answer, fleet_world, fleet_start,
    ftry_finally, ftry_catch, fconnect, frelease, fBEGIN, fCOMMIT, fROLLBACK,
    fquery, fthrow, fbind, fret, fleet_committed, insert_train. simpl.
  rewrite (Htrain (next_train s)) by lia. simpl.
  rewrite insert_wagons_ok by (simpl; exact Hwagon). simpl.
  repeat split.
Qed.

Lemma read_new_train (train : Z) (row : Train) (make : nat → string → Wagon)
    (types : list string) (c : Db) (s s' : Sequences) (d : FleetDb) :
  numbered train make →
  ahead s d → train = next_train s → aggregates c = aggregates (core d) →
  let d' := mkFleetDb c (<[train := row]> (trains d))
              (add_wagons (new_wagons make (next_wagon s) 0 types) (wagons d)) in
  (∃ rows, fleet_answer (get_train no_fault train) s' d' = Ret (Sent (row, rows))
           ∧ layout_of rows = expected_layout types)
  ∧ wagon_count d' train = length types.
Proof.
  intros Hmk (Htrain & Hwagon & Hrefs & Hagg) -> Hc d'.
  destruct (select_new_wagons (next_train s) (next_wagon s) make types c
              (<[next_train s := row]> (trains d)) (wagons d) s' Hmk) as [Hfilter Hsel].
  { intros id w Hw Heq. specialize (Hrefs id w Hw). lia. }
  { exact Hwagon. }
  { intros id a wagon Ha Hw. rewrite Hc in Ha. exact (Hagg id a wagon Ha Hw). }
  split.
  - subst d'.
    unfold get_train, fleet_answer, fleet_start, ftry_catch, fbind, fquery, fret, no_fault.
    cbn [fleet_db sequences fleet_issued]. unfold select_train at 1.
    cbn [trains]. rewrite lookup_insert_eq.
    cbn [fleet_db sequences fleet_issued]. rewrite Hsel.
    eexists. split; [reflexivity|].
    unfold layout_of, expected_layout. rewrite <- list_fmap_compose.
    pose proof (new_wagons_labels (next_train s) make (next_wagon s) 0 types Hmk) as Hl.
    simpl in Hl.
    transitivity ((λ p : Z * string, (p.1, p.2, @None (Z * Aggregate)))
                    <$> ((λ r : Z * Wagon, (position r.2, wagon_type r.2))
                           <$> new_wagons make (next_wagon s) 0 types)).
    + rewrite <- list_fmap_compose. reflexivity.
    + rewrite Hl. rewrite fmap_imap. reflexivity.
  - subst d'. unfold wagon_count. rewrite Hfilter.
    rewrite map_size_list_to_map by apply new_wagons_NoDup.
    apply new_wagons_length.
Qed.


Lemma read_new_train_v2 (u : option User) (train : Z) (row : Train)
    (make : nat → string → Wagon) (types : list string) (c : Db) (s s' : Sequences)
    (d : FleetDb) :
  numbered train make →
  ahead s d → train = next_train s → aggregates c = aggregates (core d) →
  train_tenant_id row = tenant_of u →
  let d' := mkFleetDb c (<[train := row]> (trains d))
              (add_wagons (new_wagons make (next_wagon s) 0 types) (wagons d)) in
  ∃ rows, fleet_answer (get_train_v2 no_fault u train) s' d' = Ret (Sent (row, rows))
          ∧ layout_of rows = expected_layout types.
Proof.
  intros Hmk Hahead -> Hc Htenant d'.
  destruct (proj1 (read_new_train (next_train s) row make types c s s' d Hmk Hahead
                     eq_refl Hc)) as (rows & Hget & Hlayout).
  exists rows. split; [|exact Hlayout]. rewrite <- Hget. subst d'.
  unfold get_train_v2, get_train, fleet_answer, fleet_start, ftry_catch, fbind, fquery,
    fret, no_fault.
  cbn [fleet_db sequences fleet_issued]. unfold select_train_of, select_train.
  cbn [trains]. rewrite lookup_insert_eq. simpl.
  destruct (decide (train_tenant_id row = tenant_of u)); [reflexivity|contradiction].
Qed.

(** A train configured through either admin route reads back as configured:
    the route answers with the new train, owned by the caller's tenant; one
    audit row records it; and reading the train returns one row per wagon
    type, in the order given, at positions 1, 2, ..., with no aggregate.  The
    sequences must be ahead of the tables. *)
Theorem configured_train_reads_back (u : option User) (number name : string)
    (operator : option string) (types : list string) (s : Sequences) (d : FleetDb) :
  ahead s d →
  (let h := configure_v1 no_fault u number name operator (Some types) in
   fleet_answer h s d = Ret (Sent (next_train s, train_v1 u number name operator))
   ∧ audit_logs (core (fleet_after h s d))
     = (audit_logs (core d)
        ++ [created u number (next_train s)
              (Some (JObj [("train_number", JStr number);
                           ("wagon_types", JArr (JStr <$> types))]))
              (length types)])%list
   ∧ ∀ s', ∃ rows,
       fleet_answer (get_train no_fault (next_train s)) s' (fleet_after h s d)
       = Ret (Sent (train_v1 u number name operator, rows))
       ∧ layout_of rows = expected_layout types)
  ∧ (let h := configure_v2 no_fault u number name operator (Some types) in
     fleet_answer h s d = Ret (Sent (next_train s, train_v2 u number name operator))
     ∧ audit_logs (core (fleet_after h s d))
       = (audit_logs (core d)
          ++ [created u number (next_train s) None (length types)])%list
     ∧ ∀ s', ∃ rows,
         fleet_answer (get_train_v2 no_fault u (next_train s)) s' (fleet_after h s d)
         = Ret (Sent (train_v2 u number name operator, rows))
         ∧ layout_of rows = expected_layout types).
Proof.
  intros Hahead. split.
  - destruct (configure_v1_ok u number name operator types s d Hahead)
      as (Hanswer & Hafter & _).
    cbv zeta. rewrite Hafter. split; [exact Hanswer|]. split; [reflexivity|].
    intros s'.
    refine (proj1 (read_new_train (next_train s) _ (wagon_v1 (next_train s)) types _ s s' d
                     (numbered_v1 _) Hahead eq_refl _)).
    reflexivity.
  - destruct (configure_v2_ok u number name operator types s d Hahead)
      as (Hanswer & Hafter & _).
    cbv zeta. rewrite Hafter. split; [exact Hanswer|]. split; [reflexivity|].
    intros s'.
    refine (read_new_train_v2 u (next_train s) _ (wagon_v2 (next_train s) number) types _
              s s' d (numbered_v2 _ _) Hahead eq_refl _ _); reflexivity.
Qed.

Lemma depot_ahead : ahead FleetExamples.depot_sequences FleetExamples.depot.
Proof.
  unfold ahead, FleetExamples.depot, FleetExamples.depot_sequences. simpl.
  split; [|split; [|split]].
  - intros id Hid. rewrite lookup_insert_ne by lia. apply lookup_empty.
  - intros id Hid. rewrite !lookup_insert_ne by lia. apply lookup_empty.
  - intros id w. destruct (decide (id = 7%Z)) as [->|H7].
    { rewrite lookup_insert_eq. intros [= <-]. simpl. lia. }
    rewrite lookup_insert_ne by congruence.
    destruct (decide (id = 8%Z)) as [->|H8].
    { rewrite lookup_insert_eq. intros [= <-]. simpl. lia. }
    rewrite lookup_insert_ne by congruence. rewrite lookup_empty. discriminate.
  - intros id a wagon. unfold Examples.fleet. simpl.
    destruct (decide (id = 10%Z)) as [->|H10].
    { rewrite lookup_insert_eq. intros [= <-] [= <-]. lia. }
    rewrite lookup_insert_ne by congruence.
    destruct (decide (id = 20%Z)) as [->|H20].
    { rewrite lookup_insert_eq. intros [= <-]. discriminate. }
    rewrite lookup_insert_ne by congruence.
    destruct (decide (id = 30%Z)) as [->|H30].
    { rewrite lookup_insert_eq. intros [= <-] [= <-]. lia. }
    rewrite lookup_insert_ne by congruence. rewrite lookup_empty. discriminate.
Qed.

Lemma configured_train_reads_back_witness :
  ∃ rows,
    fleet_answer (get_train no_fault 2) (mkSequences 3 14)
      (fleet_after (configure_v1 no_fault (Some MoreExamples.operator_b) "X31-2001" "New"
                      None (Some X31_LAYOUT))
         FleetExamples.depot_sequences FleetExamples.depot)
    = Ret (Sent (train_v1 (Some MoreExamples.operator_b) "X31-2001" "New" None, rows))
    ∧ layout_of rows = expected_layout X31_LAYOUT.
Proof.
  apply (proj2 (proj2 (proj1 (configured_train_reads_back (Some MoreExamples.operator_b)
                                "X31-2001" "New" None X31_LAYOUT
                                FleetExamples.depot_sequences FleetExamples.depot
                                depot_ahead))) (mkSequences 3 14)).
Defined.

(** POST /api/trains always builds the X31 layout: the new train, of the
    default tenant, reads back with five wagons at positions 1 to 5 with the
    five X31 types, and its wagons are the ones the first configuration route
    inserts for that list.  No audit row is written. *)
Theorem created_train_has_x31_layout (number name : string) (operator : option string)
    (s : Sequences) (d : FleetDb) :
  ahead s d →
  let h := create_train no_fault number name operator in
  fleet_answer h s d = Ret (Sent (next_train s, train_v1 None number name operator))
  ∧ (∀ s', ∃ rows,
       fleet_answer (get_train no_fault (next_train s)) s' (fleet_after h s d)
       = Ret (Sent (train_v1 None number name operator, rows))
       ∧ layout_of rows
         = [(1%Z, "M43 Hytt", None); (2%Z, "M43 Salong", None); (3%Z, "T47 Salong", None);
            (4%Z, "M45 Salong", None); (5%Z, "M45 Hytt", None)])
  ∧ wagons (fleet_after h s d)
    = wagons (fleet_after (configure_v1 no_fault None number name operator
                             (Some X31_LAYOUT)) s d)
  ∧ audit_logs (core (fleet_after h s d)) = audit_logs (core d).
Proof.
  intros Hahead h. subst h.
  destruct (create_train_ok number name operator s d Hahead) as (Hanswer & Hafter).
  destruct (configure_v1_ok None number name operator X31_LAYOUT s d Hahead)
    as (_ & Hafter1 & _).
  rewrite Hafter, Hafter1. split; [exact Hanswer|]. split; [|split; reflexivity].
  intros s'.
  refine (proj1 (read_new_train (next_train s) _ (wagon_v1 (next_train s)) X31_LAYOUT _
                   s s' d (numbered_v1 _) Hahead eq_refl _)).
  reflexivity.
Qed.

Lemma created_train_has_x31_layout_witness :
  fleet_answer (create_train no_fault "X31-2001" "New" None)
    FleetExamples.depot_sequences FleetExamples.depot
  = Ret (Sent (2%Z, train_v1 None "X31-2001" "New" None)).
Proof.
  apply (proj1 (created_train_has_x31_layout "X31-2001" "New" None
                  FleetExamples.depot_sequences FleetExamples.depot depot_ahead)).
Defined.

(** *** Tenant scoping of trains *)

Lemma list_trains_v2_rows (u : option User) (s : Sequences) (d : FleetDb) :
  ∃ rows, fleet_answer (list_trains_v2 no_fault u) s d = Ret (Sent rows)
          ∧ ∀ id t n, rows !! id = Some (t, n) ↔
                      trains d !! id = Some t ∧ train_tenant_id t = tenant_of u
                      ∧ n = wagon_count d id.
Proof.
  unfold list_trains_v2. frun. eexists. split; [reflexivity|].
  intros id t n. rewrite map_lookup_imap.
  destruct (trains d !! id) as [t'|]; simpl.
  - destruct (decide (train_tenant_id t' = tenant_of u)) as [Ht|Ht].
    + split; [intros [= <- <-]; auto|]. intros ([= <-] & _ & ->). reflexivity.
    + split; [discriminate|]. intros ([= <-] & Ht' & _). contradiction.
  - split; [discriminate|]. intros (H & _). discriminate.
Qed.

Lemma get_train_v2_hidden (u : option User) (id : Z) (s : Sequences) (d : FleetDb) :
  (trains d !! id = None
   ∨ ∃ t, trains d !! id = Some t ∧ train_tenant_id t ≠ tenant_of u) →
  fleet_answer (get_train_v2 no_fault u id) s d = Ret (Failed 404 "Train not found").
Proof.
  intros Hid. unfold get_train_v2. frun.
  destruct Hid as [-> | (t & -> & Hne)]; simpl; [reflexivity|].
  destruct (decide (train_tenant_id t = tenant_of u)); [contradiction|reflexivity].
Qed.

(** The scoped routes show a tenant its own trains only.  The listing returns
    exactly the trains of the caller's tenant, each with the number of its
    wagons; reading a train of another tenant is answered like a train that
    does not exist, 404.  The unscoped listing of the database routes returns
    every train. *)
Theorem trains_are_tenant_scoped (u : option User) (s : Sequences) (d : FleetDb) :
  (∃ rows, fleet_answer (list_trains_v2 no_fault u) s d = Ret (Sent rows)
           ∧ ∀ id t n, rows !! id = Some (t, n) ↔
                       trains d !! id = Some t ∧ train_tenant_id t = tenant_of u
                       ∧ n = wagon_count d id)
  ∧ (∀ id, (trains d !! id = None
            ∨ ∃ t, trains d !! id = Some t ∧ train_tenant_id t ≠ tenant_of u) →
       fleet_answer (get_train_v2 no_fault u id) s d = Ret (Failed 404 "Train not found"))
  ∧ (∃ rows, fleet_answer (list_trains no_fault) s d = Ret (Sent rows)
             ∧ ∀ id t n, rows !! id = Some (t, n) ↔
                         trains d !! id = Some t ∧ n = wagon_count d id).
Proof.
  split; [apply list_trains_v2_rows|]. split; [intros id; apply get_train_v2_hidden|].
  unfold list_trains. frun. eexists. split; [reflexivity|].
  intros id t n. rewrite map_lookup_imap.
  destruct (trains d !! id) as [t'|]; simpl.
  - split; [intros [= <- <-]; auto|]. intros ([= <-] & ->). reflexivity.
  - split; [discriminate|]. intros (H & _). discriminate.
Qed.

Lemma trains_are_tenant_scoped_witness :
  fleet_answer (get_train_v2 no_fault (Some MoreExamples.operator_b) 1)
    FleetExamples.depot_sequences FleetExamples.depot
  = Ret (Failed 404 "Train not found").
Proof.
  apply (proj1 (proj2 (trains_are_tenant_scoped (Some MoreExamples.operator_b)
                         FleetExamples.depot_sequences FleetExamples.depot)) 1%Z).
  right. eexists. split; [reflexivity|]. discriminate.
Defined.

(** A train configured by one tenant is listed for that tenant with the
    number of wagons asked for, and is neither listed nor readable for any
    other tenant. *)
Theorem configured_train_is_private (u u' : option User) (number name : string)
    (operator : option string) (types : list string) (s s' : Sequences) (d : FleetDb) :
  ahead s d →
  tenant_of u' ≠ tenant_of u →
  let d' := fleet_after (configure_v2 no_fault u number name operator (Some types)) s d in
  (∃ rows, fleet_answer (list_trains_v2 no_fault u) s' d' = Ret (Sent rows)
           ∧ rows !! next_train s
             = Some (train_v2 u number name operator, length types))
  ∧ (∃ rows, fleet_answer (list_trains_v2 no_fault u') s' d' = Ret (Sent rows)
             ∧ rows !! next_train s = None)
  ∧ fleet_answer (get_train_v2 no_fault u' (next_train s)) s' d'
    = Ret (Failed 404 "Train not found").
Proof.
  intros Hahead Hother d'.
  destruct (configure_v2_ok u number name operator types s d Hahead) as (_ & Hafter & _).
  assert (Hrow : trains d' !! next_train s = Some (train_v2 u number name operator)).
  { subst d'. rewrite Hafter. simpl. apply lookup_insert_eq. }
  assert (Hcount : wagon_count d' (next_train s) = length types).
  { subst d'. rewrite Hafter.
    refine (proj2 (read_new_train (next_train s) _ (wagon_v2 (next_train s) number) types _
                     s s' d (numbered_v2 _ _) Hahead eq_refl _)).
    reflexivity. }
  clearbody d'.
  destruct (list_trains_v2_rows u s' d') as (rows & Hrows & Hspec).
  destruct (list_trains_v2_rows u' s' d') as (rows' & Hrows' & Hspec').
  pose proof (get_train_v2_hidden u' (next_train s) s' d') as Hget.
  split; [|split].
  - exists rows. split; [exact Hrows|]. apply Hspec. split; [exact Hrow|].
    split; [reflexivity|]. symmetry. exact Hcount.
  - exists rows'. split; [exact Hrows'|].
    destruct (rows' !! next_train s) as [[t n]|] eqn:Hl; [|reflexivity].
    apply Hspec' in Hl as (Ht & Htenant & _). rewrite Hrow in Ht. injection Ht as <-.
    simpl in Htenant. congruence.
  - apply Hget. right. eexists. split; [exact Hrow|]. simpl. congruence.
Qed.

Lemma configured_train_is_private_witness :
  fleet_answer (get_train_v2 no_fault (Some MoreExamples.operator_a) 2) (mkSequences 3 11)
    (fleet_after (configure_v2 no_fault (Some MoreExamples.operator_b) "X31-2001" "New"
                    None (Some ["A"; "B"]))
       FleetExamples.depot_sequences FleetExamples.depot)
  = Ret (Failed 404 "Train not found").
Proof.
  apply (proj2 (proj2 (configured_train_is_private (Some MoreExamples.operator_b)
                         (Some MoreExamples.operator_a) "X31-2001" "New" None ["A"; "B"]
                         FleetExamples.depot_sequences (mkSequences 3 11)
                         FleetExamples.depot depot_ahead ltac:(discriminate)))).
Defined.

(** A configuration request without wagon types fails after the train row
    was inserted: the answer is 500 and the transaction is rolled back (it is
    closed, the client is released, and the store the connection sees is the
    one before the request, so no train is left), but the id drawn from the
    sequence is gone. *)
Theorem configure_without_wagon_types (u : option User) (number name : string)
    (operator : option string) (s : Sequences) (d : FleetDb) :
  trains d !! next_train s = None →
  ∀ h, h = configure_v1 no_fault u number name operator None
       ∨ h = configure_v2 no_fault u number name operator None →
    (∃ error, fleet_answer h s d = Ret (Failed 500 error))
    ∧ fleet_tx (fleet_world h s d) = None
    ∧ fleet_held (fleet_world h s d) = 0%nat
    ∧ fleet_db (fleet_world h s d) = d
    ∧ fleet_after h s d = d
    ∧ sequences (fleet_world h s d) = mkSequences (next_train s + 1) (next_wagon s).
Proof.
  intros Hfree h [-> | ->]; [unfold configure_v1|unfold configure_v2]; frun;
    unfold insert_train; rewrite Hfree; simpl; (split; [eexists; reflexivity|]);
    repeat split.
Qed.

Lemma configure_without_wagon_types_witness :
  fleet_tx (fleet_world (configure_v1 no_fault None "X31-2001" "New" None None)
              FleetExamples.depot_sequences FleetExamples.depot) = None
  ∧ fleet_db (fleet_world (configure_v1 no_fault None "X31-2001" "New" None None)
                FleetExamples.depot_sequences FleetExamples.depot)
    = FleetExamples.depot.
Proof.
  destruct (configure_without_wagon_types None "X31-2001" "New" None
              FleetExamples.depot_sequences FleetExamples.depot eq_refl _
              (or_introl eq_refl)) as (_ & Htx & _ & Hdb & _).
  split; [exact Htx|exact Hdb].
Defined.

(** *** Readings in the detail of an aggregate *)

(** After a reading was recorded for an existing aggregate, its detail shows
    the reading as the first of at most ten recent readings, with the new live
    temperature and pressure and the same wagon and train as before.  When
    the UPDATE of the readings route failed, the detail shows the new reading
    next to the old live values. *)
Theorem reading_shows_in_detail (id : Z) (r : Reading) (a : Aggregate) (s : Sequences)
    (d : FleetDb) :
  aggregates (core d) !! id = Some a →
  let after fault :=
    mkFleetDb (db_after (record_reading fault id r) (core d)) (trains d) (wagons d) in
  ∃ wagon train before,
    fleet_answer (get_aggregate no_fault id) s d
    = Ret (Sent (a, wagon, train, before))
    ∧ (∃ rest,
         fleet_answer (get_aggregate no_fault id) s (after no_fault)
         = Ret (Sent (set_live_values (temperature r) (pressure r) a, wagon, train,
                      LifecycleSpec.reading_row id r :: rest))
         ∧ (length rest ≤ 9)%nat)
    ∧ (∃ rest,
         fleet_answer (get_aggregate no_fault id) s (after (fault_at 1))
         = Ret (Sent (a, wagon, train, LifecycleSpec.reading_row id r :: rest))).
Proof.
  intros Ha after.
  assert (Hok : aggregates (db_after (record_reading no_fault id r) (core d)) !! id
                = Some (set_live_values (temperature r) (pressure r) a)
              ∧ sensor_readings (db_after (record_reading no_fault id r) (core d))
                = (sensor_readings (core d) ++ [LifecycleSpec.reading_row id r])%list).
  { unfold record_reading, LifecycleSpec.reading_row.
    unfold db_after, world_after, run, start, try_catch, query, mbind, mret, M_bind,
      M_ret, committed, no_fault. simpl.
    rewrite lookup_alter_eq, Ha. split; reflexivity. }
  assert (Hbad : aggregates (db_after (record_reading (fault_at 1) id r) (core d)) !! id
                 = Some a
               ∧ sensor_readings (db_after (record_reading (fault_at 1) id r) (core d))
                 = (sensor_readings (core d) ++ [LifecycleSpec.reading_row id r])%list).
  { unfold record_reading, LifecycleSpec.reading_row.
    unfold db_after, world_after, run, start, try_catch, query, mbind, mret, M_bind,
      M_ret, committed, fault_at. simpl. split; [exact Ha|reflexivity]. }
  destruct Hok as [Hrow Hreadings]. destruct Hbad as [Hrow' Hreadings'].
  subst after. cbv beta.
  set (d1 := db_after (record_reading no_fault id r) (core d)) in *.
  set (d2 := db_after (record_reading (fault_at 1) id r) (core d)) in *.
  clearbody d1 d2.
  unfold get_aggregate. frun. rewrite Ha, Hrow, Hrow'. simpl.
  rewrite Hreadings, Hreadings'.
  rewrite (AggregateRoutesFacts.newest_first_snoc
             (λ x, reading_aggregate_id x = id)) by reflexivity.
  eexists _, _, _. split; [reflexivity|]. split.
  - eexists. split; [reflexivity|]. rewrite length_take. lia.
  - eexists. reflexivity.
Qed.

Lemma reading_shows_in_detail_witness :
  ∃ rest,
    fleet_answer (get_aggregate no_fault 10) FleetExamples.depot_sequences
      (mkFleetDb (db_after (record_reading no_fault 10 Examples.reading_1) Examples.fleet)
         (trains FleetExamples.depot) (wagons FleetExamples.depot))
    = Ret (Sent (set_live_values (Some 24%Z) (Some 5%Z) Examples.aggregate_10,
                 Some (mkWagon 1 (JNum 1) "M43 Hytt" 1 None),
                 Some (mkTrain "X31-1001" "Old" "Öresundståg" None "tenant-a"),
                 LifecycleSpec.reading_row 10 Examples.reading_1 :: rest)).
Proof.
  destruct (reading_shows_in_detail 10 Examples.reading_1 Examples.aggregate_10
              FleetExamples.depot_sequences FleetExamples.depot eq_refl)
    as (wagon & train & before & Hbefore & (rest & Hafter & _) & _).
  exists rest.
  assert (Hw : wagon = Some (mkWagon 1 (JNum 1) "M43 Hytt" 1 None)
             ∧ train = Some (mkTrain "X31-1001" "Old" "Öresundståg" None "tenant-a")).
  { vm_compute in Hbefore. injection Hbefore as <- <- _. split; reflexivity. }
  destruct Hw as [-> ->]. exact Hafter.
Defined.

End FleetFacts.
